(** * SRM challenge actions (src/actions/srmChallenges.js)

    A shallow embedding of the request validation, pagination, response
    envelope and admin write paths of the SRM actions, and the proofs of the
    properties the specification states about them.

    Conventions of the embedding.
    - [connection.params] is a [gmap string string]: the HTTP layer hands every
      supplied parameter over as a string, an absent key is [undefined].
    - A JavaScript number is an IEEE-754 binary64 value; it is modelled by its
      exact value (type [number]) and every arithmetic operation rounds the
      exact result to the nearest double, ties to even.
    - The asynchronous control flow (async.waterfall / parallel / series /
      auto) is modelled by a state-and-error monad whose state is the list of
      statements sent to the data store so far.
    - [api.helper], [moment] and the data store are not part of this file of
      the repository; they are arguments of the embedded functions. *)

From Stdlib Require Import ZArith Ascii String List Lia Bool.
From stdpp Require Import base option list strings pretty gmap.

Local Open Scope string_scope.
Local Open Scope Z_scope.

(* ------------------------------------------------------------------------- *)
(** ** JavaScript numbers *)

Module JsNumber.

(** A double is NaN, an infinity, an integer, or a non-integral dyadic
    rational [m / 2^k] with [m] odd.  Every finite double has exactly one
    representation, so [===] on non-NaN values is structural equality.
    (The sign of zero is not observable in this program and is not kept.) *)
Inductive number :=
| NaN
| Infinity (negative : bool)
| Int (z : Z)
| Frac (m : Z) (k : positive).

#[export] Instance number_eq_dec : EqDecision number.
Proof. solve_decision. Defined.

(** [norm m k] is the representation of [m / 2^k]. *)
Fixpoint norm (m : Z) (k : nat) : number :=
  match k with
  | O => Int m
  | S k' => if Z.even m then norm (m / 2) k' else Frac m (Pos.of_succ_nat k')
  end.

(** Nearest integer to [n / d], ties to even ([0 <= n], [0 < d]). *)
Definition roundHalfEven (n d : Z) : Z :=
  let q := n / d in
  let r := n mod d in
  if 2 * r <? d then q
  else if d <? 2 * r then q + 1
  else if Z.even q then q else q + 1.

(** floor (log2 (n / d)) for [0 < n], [0 < d]. *)
Definition floorLog2 (n d : Z) : Z :=
  let e0 := Z.log2 n - Z.log2 d in
  if 0 <=? e0
  then (if n <? d * 2 ^ e0 then e0 - 1 else e0)
  else (if n * 2 ^ (- e0) <? d then e0 - 1 else e0).

(** The double nearest to [n / d] ([0 < d]): 53 bits of precision, exponent
    range of binary64, gradual underflow, overflow to infinity. *)
Definition roundDouble (n d : Z) : number :=
  if n =? 0 then Int 0
  else
    let neg := n <? 0 in
    let a := Z.abs n in
    let e := floorLog2 a d in
    let u := Z.max (e - 52) (-1074) in
    let mant :=
      if 0 <=? u then roundHalfEven a (d * 2 ^ u)
      else roundHalfEven (a * 2 ^ (- u)) d in
    let s := if neg then -1 else 1 in
    if 0 <=? u
    then (if 2 ^ 1024 <=? mant * 2 ^ u then Infinity neg
          else Int (s * mant * 2 ^ u))
    else norm (s * mant) (Z.to_nat (- u)).

Definition ofZ (z : Z) : number := roundDouble z 1.

(** Numerator and binary exponent of a finite value: [(m, k)] is [m / 2^k]. *)
Definition dyadic (x : number) : option (Z * Z) :=
  match x with
  | Int z => Some (z, 0)
  | Frac m k => Some (m, Z.pos k)
  | _ => None
  end.

Definition isNegative (x : number) : bool :=
  match x with
  | Infinity b => b
  | Int z => z <? 0
  | Frac m _ => m <? 0
  | NaN => false
  end.

Definition isZero (x : number) : bool :=
  match x with Int 0 => true | _ => false end.

(** [x * y] *)
Definition mul (x y : number) : number :=
  match x, y with
  | NaN, _ | _, NaN => NaN
  | Infinity _, _ | _, Infinity _ =>
      if isZero x || isZero y then NaN
      else Infinity (xorb (isNegative x) (isNegative y))
  | _, _ =>
      match dyadic x, dyadic y with
      | Some (m1, k1), Some (m2, k2) => roundDouble (m1 * m2) (2 ^ (k1 + k2))
      | _, _ => NaN
      end
  end.

(** [x - y] *)
Definition sub (x y : number) : number :=
  match x, y with
  | NaN, _ | _, NaN => NaN
  | Infinity a, Infinity b => if eqb a b then NaN else Infinity a
  | Infinity a, _ => Infinity a
  | _, Infinity b => Infinity (negb b)
  | _, _ =>
      match dyadic x, dyadic y with
      | Some (m1, k1), Some (m2, k2) =>
          roundDouble (m1 * 2 ^ k2 - m2 * 2 ^ k1) (2 ^ (k1 + k2))
      | _, _ => NaN
      end
  end.

(** [x === y] on numbers: NaN differs from everything, itself included. *)
Definition strictEq (x y : number) : bool :=
  match x with
  | NaN => false
  | _ => bool_decide (x = y)
  end.

(** [x > y] *)
Definition gt (x y : number) : bool :=
  match x, y with
  | NaN, _ | _, NaN => false
  | Infinity a, Infinity b => negb a && b
  | Infinity a, _ => negb a
  | _, Infinity b => b
  | _, _ =>
      match dyadic x, dyadic y with
      | Some (m1, k1), Some (m2, k2) => m2 * 2 ^ k1 <? m1 * 2 ^ k2
      | _, _ => false
      end
  end.

(** The integer a number denotes, if it denotes one. *)
Definition toZ (x : number) : option Z :=
  match x with Int z => Some z | _ => None end.

End JsNumber.
Export JsNumber.

(* ------------------------------------------------------------------------- *)
(** ** JavaScript strings

    A string is the sequence of its code units; [ascii] stands for a code
    unit.  Case mapping is the one of the ASCII letters. *)

Module JsString.

(** The double quote, code unit 34. *)
Definition quote : ascii := ascii_of_nat 34.

Definition lowerChar (c : ascii) : ascii :=
  let n := nat_of_ascii c in
  if (Nat.leb 65 n && Nat.leb n 90)%bool then ascii_of_nat (n + 32) else c.

Definition upperChar (c : ascii) : ascii :=
  let n := nat_of_ascii c in
  if (Nat.leb 97 n && Nat.leb n 122)%bool then ascii_of_nat (n - 32) else c.

Fixpoint mapString (f : ascii -> ascii) (s : string) : string :=
  match s with
  | EmptyString => EmptyString
  | String c r => String (f c) (mapString f r)
  end.

Definition toLowerCase : string -> string := mapString lowerChar.
Definition toUpperCase : string -> string := mapString upperChar.

Definition isSpace (c : ascii) : bool :=
  let n := nat_of_ascii c in
  (Nat.eqb n 32 || (Nat.leb 9 n && Nat.leb n 13) || Nat.eqb n 160)%bool.

Fixpoint trimStart (s : string) : string :=
  match s with
  | String c r => if isSpace c then trimStart r else s
  | EmptyString => EmptyString
  end.

Fixpoint trimEnd (s : string) : string :=
  match s with
  | EmptyString => EmptyString
  | String c r =>
      match trimEnd r with
      | EmptyString => if isSpace c then EmptyString else String c EmptyString
      | r' => String c r'
      end
  end.

Definition trim (s : string) : string := trimEnd (trimStart s).

(** [s.split(sep)] for a one-character separator: never empty, the empty
    string gives the list of the empty string. *)
Fixpoint split (sep : ascii) (s : string) : list string :=
  match s with
  | EmptyString => [EmptyString]
  | String c r =>
      if Ascii.eqb c sep then EmptyString :: split sep r
      else match split sep r with
           | w :: ws => String c w :: ws
           | [] => [String c EmptyString]
           end
  end.

(** [xs.join(sep)] *)
Fixpoint join (sep : string) (xs : list string) : string :=
  match xs with
  | [] => EmptyString
  | [x] => x
  | x :: r => x +:+ sep +:+ join sep r
  end.

Definition strEq (a b : string) : bool := String.eqb a b.

(** [s.length] *)
Definition jsLength (s : string) : Z := Z.of_nat (String.length s).

(** [a || b] on an optional string: [undefined] and the empty string are
    falsy. *)
Definition orElse (a : option string) (b : string) : string :=
  match a with
  | Some EmptyString | None => b
  | Some s => s
  end.

End JsString.
Export JsString.

(* ------------------------------------------------------------------------- *)
(** ** Errors *)

(** ../errors/IllegalArgumentError, NotFoundError, ForbiddenError and the
    other error classes the helper and the data store can produce. *)
Inductive ErrorKind :=
| IllegalArgumentError
| NotFoundError
| ForbiddenError
| UnauthorizedError
| StoreError.

Record Error := mkError { kind : ErrorKind; message : string }.

#[export] Instance ErrorKind_eq_dec : EqDecision ErrorKind.
Proof. solve_decision. Defined.
#[export] Instance Error_eq_dec : EqDecision Error.
Proof. solve_decision. Defined.

(** [a || b] on two validation results ([null] is [None]). *)
Definition orErr (a b : option Error) : option Error :=
  match a with Some e => Some e | None => b end.
Infix "<||>" := orErr (at level 50, left associativity).

(* ------------------------------------------------------------------------- *)
(** ** String validators of the admin write paths *)

(** checkExceedsLength (obj, length, name) *)
Definition checkExceedsLength (obj : string) (length : Z) (name : string)
  : option Error :=
  if length <? jsLength obj
  then Some (mkError IllegalArgumentError
               ("Length of " +:+ name +:+ " must not exceed "
                +:+ pretty length +:+ " characters."))
  else None.

(** The loop of checkIllegalCharacters: [pre] is [true] when the variable
    [pre] holds a double quote, [s] is what remains from index [i] on.  The
    result [true] means that an error is returned (inside the loop, or by the
    test after it). *)
Fixpoint scanQuotes (pre : bool) (s : string) : bool :=
  match s with
  | EmptyString => pre
  | String c r =>
      if pre
      then (if Ascii.eqb c quote then scanQuotes false r else true)
      else if Ascii.eqb c quote then scanQuotes true r
      else scanQuotes pre r
  end.

(** checkIllegalCharacters (obj, name) *)
Definition checkIllegalCharacters (obj name : string) : option Error :=
  let message := name +:+ " contains unescaped quotes." in
  if strEq obj (String quote EmptyString)
  then Some (mkError IllegalArgumentError message)
  else if scanQuotes false obj
       then Some (mkError IllegalArgumentError message)
       else None.

(* ------------------------------------------------------------------------- *)
(** ** Conversions from strings to numbers *)

Definition digitOf (c : ascii) : option Z :=
  let n := nat_of_ascii c in
  if (Nat.leb 48 n && Nat.leb n 57)%bool then Some (Z.of_nat n - 48) else None.

Definition hexDigitOf (c : ascii) : option Z :=
  let n := nat_of_ascii c in
  if (Nat.leb 48 n && Nat.leb n 57)%bool then Some (Z.of_nat n - 48)
  else if (Nat.leb 97 n && Nat.leb n 102)%bool then Some (Z.of_nat n - 87)
  else if (Nat.leb 65 n && Nat.leb n 70)%bool then Some (Z.of_nat n - 55)
  else None.

(** Reads the longest prefix of digits in base [base]: the value read so far,
    the number of digits read, and the rest. *)
Fixpoint readDigits (digit : ascii -> option Z) (base : Z) (acc : Z) (count : Z)
    (s : string) : Z * Z * string :=
  match s with
  | EmptyString => (acc, count, s)
  | String c r =>
      match digit c with
      | Some d => readDigits digit base (acc * base + d) (count + 1) r
      | None => (acc, count, s)
      end
  end.

(** An optional sign: [true] for a minus sign. *)
Definition readSign (s : string) : bool * string :=
  match s with
  | String "-"%char r => (true, r)
  | String "+"%char r => (false, r)
  | _ => (false, s)
  end.

(** [m * 10^e] as a double. *)
Definition decimal (neg : bool) (m e : Z) : number :=
  let m := if neg then - m else m in
  if 0 <=? e then roundDouble (m * 10 ^ e) 1 else roundDouble m (10 ^ (- e)).

(** The exponent part of a decimal literal, which must end the literal. *)
Definition readExponent (s : string) : option Z :=
  match s with
  | EmptyString => Some 0
  | String c r =>
      if (Ascii.eqb c "e" || Ascii.eqb c "E")%bool
      then let '(neg, r1) := readSign r in
           match readDigits digitOf 10 0 0 r1 with
           | (v, n, EmptyString) =>
               if 0 <? n then Some (if neg then - v else v) else None
           | _ => None
           end
      else None
  end.

(** [Number(s)] for a string [s] (ToNumber on a StringNumericLiteral):
    surrounding white space is dropped, the empty string is 0, then either a
    hexadecimal integer or a signed decimal literal or [Infinity]; anything
    else is NaN. *)
Definition Number (s : string) : number :=
  let t := trim s in
  match t with
  | EmptyString => Int 0
  | String "0"%char (String x r) =>
      if (Ascii.eqb x "x" || Ascii.eqb x "X")%bool
      then match readDigits hexDigitOf 16 0 0 r with
           | (v, n, EmptyString) => if 0 <? n then ofZ v else NaN
           | _ => NaN
           end
      else
        let '(ip, ni, r1) := readDigits digitOf 10 0 0 t in
        match r1 with
        | String "."%char r2 =>
            let '(fp, nf, r3) := readDigits digitOf 10 ip 0 r2 in
            match readExponent r3 with
            | Some e => decimal false fp (e - nf)
            | None => NaN
            end
        | _ => match readExponent r1 with
               | Some e => decimal false ip e
               | None => NaN
               end
        end
  | _ =>
      let '(neg, body) := readSign t in
      if strEq body "Infinity" then Infinity neg
      else
        let '(ip, ni, r1) := readDigits digitOf 10 0 0 body in
        match r1 with
        | String "."%char r2 =>
            let '(fp, nf, r3) := readDigits digitOf 10 ip 0 r2 in
            if 0 <? ni + nf
            then match readExponent r3 with
                 | Some e => decimal neg fp (e - nf)
                 | None => NaN
                 end
            else NaN
        | _ => if 0 <? ni
               then match readExponent r1 with
                    | Some e => decimal neg ip e
                    | None => NaN
                    end
               else NaN
        end
  end.

(** [Number(v)] for an optional parameter: [Number(undefined)] is NaN. *)
Definition NumberOf (v : option string) : number :=
  match v with Some s => Number s | None => NaN end.

(** [parseInt(v, 10)]: leading white space, an optional sign, then the longest
    run of decimal digits; NaN when there is no digit ([undefined] reads as
    the text "undefined"). *)
Definition parseInt (v : option string) : number :=
  match v with
  | None => NaN
  | Some s =>
      let '(neg, body) := readSign (trimStart s) in
      let '(v, n, _) := readDigits digitOf 10 0 0 body in
      if 0 <? n then ofZ (if neg then - v else v) else NaN
  end.

(* ------------------------------------------------------------------------- *)
(** ** Values, rows, statements and the data store *)

(** The JavaScript values that occur in rows, statement parameters, task
    results and responses. *)
#[warnings="-register-all"]
Inductive Value :=
| VUndefined
| VNull
| VNum (n : number)
| VStr (s : string)
| VBool (b : bool)
| VObj (fields : gmap string Value)
| VArr (items : list Value).

Definition isUndefinedValue (v : Value) : bool :=
  match v with VUndefined => true | _ => false end.

(** _.isNull (v) || _.isUndefined (v) *)
Definition isNullish (v : Value) : bool :=
  match v with VUndefined | VNull => true | _ => false end.

(** The truth value of [v] in a condition. *)
Definition truthy (v : Value) : bool :=
  match v with
  | VUndefined | VNull => false
  | VNum n => match n with NaN | Int 0 => false | _ => true end
  | VStr s => negb (strEq s EmptyString)
  | VBool b => b
  | VObj _ | VArr _ => true
  end.

(** [a !== b] for numbers, strings, booleans, null and undefined (objects
    are compared by identity in JavaScript and are not compared here). *)
Definition strictNe (a b : Value) : bool :=
  match a, b with
  | VNum x, VNum y => negb (strictEq x y)
  | VStr x, VStr y => negb (strEq x y)
  | VBool x, VBool y => xorb x y
  | VNull, VNull | VUndefined, VUndefined => false
  | _, _ => true
  end.

(** The fields of an object value. *)
Definition fieldsOf (v : Value) : gmap string Value :=
  match v with VObj o => o | _ => ∅ end.

(** [item.column]: a missing property reads as [undefined]. *)
Definition prop (item : gmap string Value) (column : string) : Value :=
  default VUndefined (item !! column).

(** A statement sent to the data store: the name of a query (or, for
    executeSqlQuery, its text) and its parameter object. *)
Record Statement := mkStatement {
  query : string;
  sqlArgs : gmap string Value
}.

(** The data store answers a statement with an error or with rows; the answer
    may depend on the statements it has received before. *)
Definition Store : Type :=
  list Statement -> Statement -> Error + list (gmap string Value).

(** The result of an asynchronous step: a value for the next step, an error
    passed to the callback, an exception thrown by the step, or no call of
    the callback at all. *)
Inductive Result (A : Type) :=
| Ok (a : A)
| Err (e : Error)
| Throw (exn : string)
| Hang.
Arguments Ok {A} a.
Arguments Err {A} e.
Arguments Throw {A} exn.
Arguments Hang {A}.

(** An asynchronous computation: from the statements sent so far to the
    statements sent after it and its result. *)
Definition Async (A : Type) : Type :=
  list Statement -> list Statement * Result A.

Definition ret {A} (a : A) : Async A := fun t => (t, Ok a).
Definition fail {A} (e : Error) : Async A := fun t => (t, Err e).
Definition throw {A} (exn : string) : Async A := fun t => (t, Throw exn).

(** Sequencing (async.waterfall, async.series, a dependency of async.auto):
    the continuation runs only after a success. *)
Definition bind {A B} (m : Async A) (k : A -> Async B) : Async B :=
  fun t =>
    match m t with
    | (t', Ok a) => k a t'
    | (t', Err e) => (t', Err e)
    | (t', Throw x) => (t', Throw x)
    | (t', Hang) => (t', Hang)
    end.

Notation "x <- m ;; k" := (bind m (fun x => k))
  (at level 100, m at next level, right associativity).

(** A synchronous validation result handed to the callback: [cb(error)]. *)
Definition check (error : option Error) : Async unit :=
  match error with Some e => fail e | None => ret tt end.

(** async.parallel with two tasks: both are started, whatever the first one
    answers; the error reported is the one of the task started first. *)
Definition parallel {A B} (a : Async A) (b : Async B) : Async (A * B) :=
  fun t =>
    let '(t1, ra) := a t in
    let '(t2, rb) := b t1 in
    (t2, match ra, rb with
         | Ok x, Ok y => Ok (x, y)
         | Err e, _ => Err e
         | Throw x, _ => Throw x
         | Hang, _ => Hang
         | Ok _, Err e => Err e
         | Ok _, Throw x => Throw x
         | Ok _, Hang => Hang
         end).

(** api.dataAccess.executeQuery / executeSqlQuery *)
Definition executeQuery (dataAccess : Store) (name : string)
    (args : gmap string Value) : Async (list (gmap string Value)) :=
  fun t =>
    let q := mkStatement name args in
    ((t ++ [q])%list, match dataAccess t q with
               | inl e => Err e
               | inr rows => Ok rows
               end).

(** What the caller of an action observes. *)
Inductive Outcome (R : Type) :=
| Response (r : R)          (* connection.response = r *)
| Rejected (e : Error)      (* helper.handleError (api, connection, e) *)
| NoConnection              (* helper.handleNoConnection (api, connection, next) *)
| Uncaught (exn : string)   (* an exception left the action *)
| NoAnswer.                 (* next is never called *)
Arguments Response {R} r.
Arguments Rejected {R} e.
Arguments NoConnection {R}.
Arguments Uncaught {R} exn.
Arguments NoAnswer {R}.

Definition finish {R} (m : Async R) : list Statement * Outcome R :=
  match m [] with
  | (t, Ok r) => (t, Response r)
  | (t, Err e) => (t, Rejected e)
  | (t, Throw x) => (t, Uncaught x)
  | (t, Hang) => (t, NoAnswer)
  end.

(** The requester: what helper.checkAdmin and helper.checkMember look at. *)
Record Caller := mkCaller {
  accessLevel : string;
  userId : Value
}.

Record Connection := mkConnection {
  params : gmap string string;
  dbConnectionMap : bool;
  caller : Caller
}.

(** _.isDefined / !_.isUndefined on a parameter *)
Definition isDefined (v : option string) : bool :=
  match v with Some _ => true | None => false end.

(* ------------------------------------------------------------------------- *)
(** ** What the actions use from outside this file *)

(** api.helper (initializers/helper.js): only the members used below.
    checkAdmin and checkMember receive the connection and look at its
    caller; they are given the caller. *)
Record Helper := mkHelper {
  checkDefined : option string -> string -> option Error;
  checkMaxNumber : number -> number -> string -> option Error;
  checkMaxInt : number -> string -> option Error;
  checkPageIndex : number -> string -> option Error;
  checkPositiveInteger : number -> string -> option Error;
  checkNonNegativeInteger : number -> string -> option Error;
  checkInteger : number -> string -> option Error;
  checkIdParameter : number -> string -> option Error;
  checkContains : list string -> string -> string -> option Error;
  checkSortColumn : list string -> string -> option Error;
  checkSubset : list string -> list string -> string -> option Error;
  checkArgument : bool -> string -> option Error;
  checkString : string -> string -> option Error;
  checkStringPopulated : option string -> string -> option Error;
  validateDate : string -> string -> string -> option Error;
  checkDates : string -> string -> string -> option Error;
  checkAdmin : Caller -> string -> string -> option Error;
  checkMember : Caller -> string -> option Error;
  getLowerCaseList : list string -> list string;
  getSortColumnDBName : string -> string;
  editSql : string -> string -> Value -> string;
  readQuery : string -> Error + string;
  transferDBResults2Response :
    list (gmap string Value) -> list (gmap string Value);
  ListType_ACTIVE : string;
  ListType_UPCOMING : string;
  consts_ASCENDING : string;
  helper_MAX_INT : number
}.

(** The two uses of the moment library. *)
Record Moment := mkMoment {
  (* moment(value).zone(zone).format(format) *)
  zoneFormat : string -> string -> string -> string;
  (* moment(a).isBefore(b) *)
  isBefore : string -> string -> bool
}.

Record Api := mkApi {
  helper : Helper;
  moment : Moment;
  dataAccess : Store;
  (* api.idGenerator.getNextIDFromDb (sequence, ...) *)
  getNextIDFromDb : string -> Error + Value;
  (* api.config.tcConfig.databaseTimezoneIdentifier *)
  databaseTimezoneIdentifier : string
}.

(* ------------------------------------------------------------------------- *)
(** ** Constants of the file *)

Definition ALLOWABLE_SORT_COLUMN : list string :=
  ["roundId"; "name"; "startDate"; "totalCompetitors"; "divICompetitors";
   "divIICompetitors"; "divITotalSolutionsSubmitted";
   "divIAverageSolutionsSubmitted"; "divIITotalSolutionsSubmitted";
   "divIIAverageSolutionsSubmitted"; "divITotalSolutionsChallenged";
   "divIAverageSolutionsChallenged"; "divIITotalSolutionsChallenged";
   "divIIAverageSolutionsChallenged"; "submissionEndDate"].

Definition ALLOWABLE_SCHEDULE_SORT_COLUMN : list string :=
  ["registrationStartTime"; "registrationEndTime";
   "codingStartTime"; "codingEndTime";
   "intermissionStartTime"; "intermissionEndTime";
   "challengeStartTime"; "challengeEndTime";
   "systestStartTime"; "systestEndTime"].

Definition VALID_ROUND_STATUS : list string := ["f"; "a"; "p"].
Definition VALID_ROUND_TYPES : list string :=
  ["Single Round Match"; "Tournament Round"; "Long Round"].

(** ROUND_TYPES[key], as Array.prototype.join renders it: an unknown key gives
    [undefined], which join renders as the empty string. *)
Definition ROUND_TYPES (key : string) : string :=
  if strEq key "single round match" then "1"
  else if strEq key "tournament round" then "2"
  else if strEq key "long round" then "10"
  else EmptyString.

Definition SCHEDULE_DATE_FORMAT : string := "YYYY-MM-DDTHH:mm:ss.SSSZ".
Definition SCHEDULE_DATE_FORMAT_DB : string := "YYYY-MM-DD HH:mm:ss".
Definition MAX_ID : number := Int 999999999.
Definition DATE_FORMAT : string := "YYYY-MM-DD HH:mm".
Definition MAX_INT : number := Int 2147483647.
Definition DEFAULT_PAGE_SIZE : number := Int 50.
Definition NON_ADMIN_MESSAGE : string := "Admin access only.".
Definition UNAUTHORIZED_MESSAGE : string := "Authorized access only.".

(** [Number(v || d)] for a parameter [v] and a numeric default [d]. *)
Definition NumberOr (v : option string) (d : number) : number :=
  match v with
  | Some EmptyString | None => d
  | Some s => Number s
  end.

(** The paged response of the list actions. *)
Module Envelope.
Record t := mk {
  total : Value;
  pageIndex : number;
  pageSize : Value;
  data : list (gmap string Value)
}.
End Envelope.

(** [results.count[0].total_count]; reading a property of [undefined] throws. *)
Definition total_count (count : list (gmap string Value)) : Async Value :=
  match count with
  | [] => throw "TypeError: Cannot read property 'total_count' of undefined"
  | row :: _ => ret (prop row "total_count")
  end.

(* ------------------------------------------------------------------------- *)
(** ** searchSRMChallenges *)

(** The object built for each row by searchSRMChallenges. *)
Definition challengeOfRow (item : gmap string Value) : gmap string Value :=
  list_to_map
    [("roundId", prop item "round_id");
     ("name", prop item "name");
     ("startDate", prop item "start_date");
     ("submissionEndDate", prop item "end_date");
     ("totalCompetitors", prop item "total_competitors");
     ("divICompetitors", prop item "div_i_competitors");
     ("divIICompetitors", prop item "div_ii_competitors");
     ("divITotalSolutionsSubmitted", prop item "div_i_total_solutions_submitted");
     ("divIAverageSolutionsSubmitted", prop item "div_i_average_solutions_submitted");
     ("divIITotalSolutionsSubmitted", prop item "div_ii_total_solutions_submitted");
     ("divIIAverageSolutionsSubmitted", prop item "div_ii_average_solutions_submitted");
     ("divITotalSolutionsChallenged", prop item "div_i_total_solutions_challenged");
     ("divIAverageSolutionsChallenged", prop item "div_i_average_solutions_challenged");
     ("divIITotalSolutionsChallenged", prop item "div_ii_total_solutions_challenged");
     ("divIIAverageSolutionsChallenged", prop item "div_ii_average_solutions_challenged")].

(** Lines 258-271 of searchSRMChallenges.run, the part that fixes the sort:
    the pair (sortOrder, sortColumn) after the defaults and the override. *)
Definition searchSort (params : gmap string string) : string * string :=
  let sortOrder := toLowerCase (orElse (params !! "sortOrder") "asc") in
  let sortColumn := toLowerCase (orElse (params !! "sortColumn") "roundId") in
  (* for now *)
  let sortColumn :=
    if strEq sortColumn "submissionenddate" then "roundid" else sortColumn in
  let sortOrder :=
    if negb (isDefined (params !! "sortOrder")) && strEq sortColumn "roundid"
    then "desc" else sortOrder in
  (sortOrder, sortColumn).

(** The window of rows asked from the store (lines 299-304 and 755-758,
    774): the sentinel page index -1 becomes page 1 of MAX_INT rows. *)
Definition pageWindow (pageIndex pageSize : number) : number * number :=
  if strictEq pageIndex (Int (-1)) then (Int 1, MAX_INT)
  else (pageIndex, pageSize).

Definition firstRowIndex (pageIndex pageSize : number) : number :=
  mul (sub pageIndex (Int 1)) pageSize.

(** The last function of the waterfall of searchSRMChallenges and of
    getSRMSchedule: the envelope, [rowOf] being the object built per row. *)
Definition pagedResult (rowOf : gmap string Value -> gmap string Value)
    (params : gmap string string) (pageIndex pageSize : number)
    (count data : list (gmap string Value)) : Async Envelope.t :=
  if Nat.eqb (length data) 0
  then ret (Envelope.mk (VNum (Int 0)) pageIndex
              (if strictEq (NumberOf (params !! "pageIndex")) (Int (-1))
               then VNum (Int 0) else VNum pageSize)
              [])
  else
    total <- total_count count ;;
    ret (Envelope.mk total pageIndex
           (if strictEq (NumberOf (params !! "pageIndex")) (Int (-1))
            then total else VNum pageSize)
           (map rowOf data)).

(** The checks of the first function of the waterfall of
    searchSRMChallenges.run (lines 281-293): the error handed to the
    callback. *)
Definition searchValidate (helper : Helper) (params : gmap string string)
    (pageIndex pageSize : number)
    (sortOrder sortColumn listType challengeName : string) : option Error :=
  let allowedSort := getLowerCaseList helper ALLOWABLE_SORT_COLUMN in
  let error :=
    if isDefined (params !! "pageIndex") && negb (strictEq pageIndex (Int (-1)))
    then checkDefined helper (params !! "pageSize") "pageSize"
    else None in
  error
  <||> checkMaxNumber helper pageIndex MAX_INT "pageIndex"
  <||> checkMaxNumber helper pageSize MAX_INT "pageSize"
  <||> checkPageIndex helper pageIndex "pageIndex"
  <||> checkPositiveInteger helper pageSize "pageSize"
  <||> checkContains helper ["asc"; "desc"] sortOrder "sortOrder"
  <||> checkContains helper [ListType_ACTIVE helper; ListType_UPCOMING helper]
         listType "listType"
  <||> checkArgument helper (jsLength challengeName <=? 32)
         "The challengeName should less than 32 characters."
  <||> checkContains helper allowedSort sortColumn "sortColumn".

(** The object sqlParams of searchSRMChallenges.run (lines 303-310), from
    the page index and size left by the sentinel test above it. *)
Definition searchSqlParams (helper : Helper) (pageIndex pageSize : number)
    (sortColumn sortOrder challengeName status : string) : gmap string Value :=
  list_to_map
    [("firstRowIndex", VNum (firstRowIndex pageIndex pageSize));
     ("pageSize", VNum pageSize);
     ("sortColumn", VStr (getSortColumnDBName helper sortColumn));
     ("sortOrder", VStr sortOrder);
     ("challengeName", VStr challengeName);
     ("status", VStr status)].

(** exports.searchSRMChallenges.run *)
Definition searchSRMChallenges (api : Api) (connection : Connection)
  : list Statement * Outcome Envelope.t :=
  let helper := helper api in
  let params := params connection in
  if negb (dbConnectionMap connection) then ([], NoConnection)
  else
    let '(sortOrder, sortColumn) := searchSort params in
    let pageIndex := NumberOr (params !! "pageIndex") (Int 1) in
    let pageSize := NumberOr (params !! "pageSize") DEFAULT_PAGE_SIZE in
    let listType := toUpperCase (orElse (params !! "listType") "ACTIVE") in
    match params !! "challengeName" with
    | None =>
        (* params.challengeName.toLowerCase() on undefined *)
        ([], Uncaught "TypeError: Cannot call method 'toLowerCase' of undefined")
    | Some name =>
        let challengeName :=
          orElse (Some ("%" +:+ toLowerCase name +:+ "%")) "%" in
        let status :=
          if strEq listType (ListType_ACTIVE helper) then "A" else "F" in
        finish (
          _ <- check (searchValidate helper params pageIndex pageSize
                        sortOrder sortColumn listType challengeName) ;;
          let window := pageWindow pageIndex pageSize in
          let sqlParams :=
            searchSqlParams helper (fst window) (snd window)
              sortColumn sortOrder challengeName status in
          results <-
            parallel
              (executeQuery (dataAccess api) "get_srm_challenges_count" sqlParams)
              (executeQuery (dataAccess api) "get_srm_challenges" sqlParams) ;;
          pagedResult challengeOfRow params (fst window) (snd window)
            (fst results) (snd results))
    end.

(* ------------------------------------------------------------------------- *)
(** ** getSRMSchedule *)

Definition newline : string := String (ascii_of_nat 10) EmptyString.

Definition SCHEDULE_STATUS_FILTER : string :=
  " AND LOWER(r.status) IN (@filter@)" +:+ newline.
Definition SCHEDULE_ROUND_TYPE_FILTER : string :=
  " AND r.round_type_id IN (@filter@)" +:+ newline.
Definition REGISTRATION_START_TIME_BEFORE_FILTER : string :=
  " AND extend(reg.start_time, year to second) <= '@filter@'" +:+ newline.
Definition REGISTRATION_START_TIME_AFTER_FILTER : string :=
  " AND extend(reg.start_time, year to second) >= '@filter@'" +:+ newline.
Definition REGISTRATION_END_TIME_BEFORE_FILTER : string :=
  " AND extend(reg.end_time, year to second) <= '@filter@'" +:+ newline.
Definition REGISTRATION_END_TIME_AFTER_FILTER : string :=
  " AND extend(reg.end_time, year to second) >= '@filter@'" +:+ newline.
Definition CODING_START_TIME_BEFORE_FILTER : string :=
  " AND extend(coding.start_time, year to second) <= '@filter@'" +:+ newline.
Definition CODING_START_TIME_AFTER_FILTER : string :=
  " AND extend(coding.start_time, year to second) >= '@filter@'" +:+ newline.
Definition CODING_END_TIME_BEFORE_FILTER : string :=
  " AND extend(coding.end_time, year to second) <= '@filter@'" +:+ newline.
Definition CODING_END_TIME_AFTER_FILTER : string :=
  " AND extend(coding.end_time, year to second) >= '@filter@'" +:+ newline.
Definition INTERMISSION_START_TIME_BEFORE_FILTER : string :=
  " AND extend(intermission.start_time, year to second) <= '@filter@'" +:+ newline.
Definition INTERMISSION_START_TIME_AFTER_FILTER : string :=
  " AND extend(intermission.start_time, year to second) >= '@filter@'" +:+ newline.
Definition INTERMISSION_END_TIME_BEFORE_FILTER : string :=
  " AND extend(intermission.end_time, year to second) <= '@filter@'" +:+ newline.
Definition INTERMISSION_END_TIME_AFTER_FILTER : string :=
  " AND extend(intermission.end_time, year to second) >= '@filter@'" +:+ newline.
Definition CHALLENGE_START_TIME_BEFORE_FILTER : string :=
  " AND extend(challenge.start_time, year to second) <= '@filter@'" +:+ newline.
Definition CHALLENGE_START_TIME_AFTER_FILTER : string :=
  " AND extend(challenge.start_time, year to second) >= '@filter@'" +:+ newline.
Definition CHALLENGE_END_TIME_BEFORE_FILTER : string :=
  " AND extend(challenge.end_time, year to second) <= '@filter@'" +:+ newline.
Definition CHALLENGE_END_TIME_AFTER_FILTER : string :=
  " AND extend(challenge.end_time, year to second) >= '@filter@'" +:+ newline.
Definition SYSTEM_TEST_START_TIME_BEFORE_FILTER : string :=
  " AND extend(systest.start_time, year to second) <= '@filter@'" +:+ newline.
Definition SYSTEM_TEST_START_TIME_AFTER_FILTER : string :=
  " AND extend(systest.start_time, year to second) >= '@filter@'" +:+ newline.
Definition SYSTEM_TEST_END_TIME_BEFORE_FILTER : string :=
  " AND extend(systest.end_time, year to second) <= '@filter@'" +:+ newline.
Definition SYSTEM_TEST_END_TIME_AFTER_FILTER : string :=
  " AND extend(systest.end_time, year to second) >= '@filter@'" +:+ newline.

(** The body shared by the blocks of the filter functions:
    [if (!_.isUndefined(v)) { query = helper.editSql(query, filter, f(v)); }] *)
Definition addWhenDefined (helper : Helper) (v : option string)
    (filter : string) (f : string -> Value) (query : string) : string :=
  match v with
  | Some x => editSql helper query filter (f x)
  | None => query
  end.

(** [v.split(',').map(function (s) { return "'" + s.toLowerCase().trim() + "'"; }).join(',')] *)
Definition quotedList (v : string) : string :=
  join "," (map (fun s => "'" +:+ trim (toLowerCase s) +:+ "'")
              (split ","%char v)).

(** addScheduleFilter (query, parameters, helper); [zone] is the value of the
    variable SCHEDULE_TIMEZONE, which getSRMSchedule assigns from the
    configuration before it composes the queries. *)
Definition addScheduleFilter (moment : Moment) (zone : string)
    (query : string) (parameters : gmap string string) (helper : Helper)
  : string :=
  let timeFilter name filter query :=
    addWhenDefined helper (parameters !! name) filter
      (fun v => VStr (zoneFormat moment v zone SCHEDULE_DATE_FORMAT_DB)) query in
  let query :=
    addWhenDefined helper (parameters !! "statuses") SCHEDULE_STATUS_FILTER
      (fun v => VStr (quotedList v)) query in
  let query :=
    addWhenDefined helper (parameters !! "types") SCHEDULE_ROUND_TYPE_FILTER
      (fun v => VStr (join "," (map (fun s => ROUND_TYPES (trim (toLowerCase s)))
                                  (split ","%char v))))
      query in
  let query := timeFilter "registrationStartTimeBefore" REGISTRATION_START_TIME_BEFORE_FILTER query in
  let query := timeFilter "registrationStartTimeAfter" REGISTRATION_START_TIME_AFTER_FILTER query in
  let query := timeFilter "registrationEndTimeBefore" REGISTRATION_END_TIME_BEFORE_FILTER query in
  let query := timeFilter "registrationEndTimeAfter" REGISTRATION_END_TIME_AFTER_FILTER query in
  let query := timeFilter "codingStartTimeBefore" CODING_START_TIME_BEFORE_FILTER query in
  let query := timeFilter "codingStartTimeAfter" CODING_START_TIME_AFTER_FILTER query in
  let query := timeFilter "codingEndTimeBefore" CODING_END_TIME_BEFORE_FILTER query in
  let query := timeFilter "codingEndTimeAfter" CODING_END_TIME_AFTER_FILTER query in
  let query := timeFilter "intermissionStartTimeBefore" INTERMISSION_START_TIME_BEFORE_FILTER query in
  let query := timeFilter "intermissionStartTimeAfter" INTERMISSION_START_TIME_AFTER_FILTER query in
  let query := timeFilter "intermissionEndTimeBefore" INTERMISSION_END_TIME_BEFORE_FILTER query in
  let query := timeFilter "intermissionEndTimeAfter" INTERMISSION_END_TIME_AFTER_FILTER query in
  let query := timeFilter "challengeStartTimeBefore" CHALLENGE_START_TIME_BEFORE_FILTER query in
  let query := timeFilter "challengeStartTimeAfter" CHALLENGE_START_TIME_AFTER_FILTER query in
  let query := timeFilter "challengeEndTimeBefore" CHALLENGE_END_TIME_BEFORE_FILTER query in
  let query := timeFilter "challengeEndTimeAfter" CHALLENGE_END_TIME_AFTER_FILTER query in
  let query := timeFilter "systestStartTimeBefore" SYSTEM_TEST_START_TIME_BEFORE_FILTER query in
  let query := timeFilter "systestStartTimeAfter" SYSTEM_TEST_START_TIME_AFTER_FILTER query in
  let query := timeFilter "systestEndTimeBefore" SYSTEM_TEST_END_TIME_BEFORE_FILTER query in
  let query := timeFilter "systestEndTimeAfter" SYSTEM_TEST_END_TIME_AFTER_FILTER query in
  query.

(** validatePhaseTime (error, phaseTimeBefore, timeBeforeStr, phaseTimeAfter,
    timeEndStr, helper) *)
Definition validatePhaseTime (error : option Error)
    (phaseTimeBefore : option string) (timeBeforeStr : string)
    (phaseTimeAfter : option string) (timeEndStr : string)
    (helper : Helper) : option Error :=
  let error :=
    match phaseTimeBefore with
    | Some before =>
        error <||> validateDate helper before timeBeforeStr SCHEDULE_DATE_FORMAT
    | None => error
    end in
  let error :=
    match phaseTimeAfter with
    | Some after =>
        error <||> validateDate helper after timeEndStr SCHEDULE_DATE_FORMAT
    | None => error
    end in
  let error :=
    match phaseTimeAfter, phaseTimeBefore with
    | Some after, Some before =>
        error <||> checkDates helper after before
                     (timeEndStr +:+ " should be earlier than " +:+ timeBeforeStr)
    | _, _ => error
    end in
  error.

(** The phase times checkPhaseTimes goes through, in its order. *)
Definition PHASE_TIMES : list string :=
  ["registrationStartTime"; "registrationEndTime";
   "codingStartTime"; "codingEndTime";
   "intermissionStartTime"; "intermissionEndTime";
   "challengeStartTime"; "challengeEndTime";
   "systestStartTime"; "systestEndTime"].

(** checkPhaseTimes (error, params, helper): one call of validatePhaseTime per
    phase time, each fed with the error of the previous one. *)
Definition checkPhaseTimes (error : option Error)
    (params : gmap string string) (helper : Helper) : option Error :=
  fold_left
    (fun error phase =>
       validatePhaseTime error
         (params !! (phase +:+ "Before")) (phase +:+ "Before")
         (params !! (phase +:+ "After")) (phase +:+ "After") helper)
    PHASE_TIMES error.

(** The object built for each row by getSRMSchedule. *)
Definition scheduleOfRow (item : gmap string Value) : gmap string Value :=
  list_to_map
    [("roundId", prop item "round_id");
     ("name", prop item "name");
     ("shortName",
      if isUndefinedValue (prop item "short_name")
      then VStr "N/A" else prop item "short_name");
     ("contestName", prop item "contest_name");
     ("roundType", prop item "round_type");
     ("status", prop item "status");
     ("registrationStartTime", prop item "registration_start_time");
     ("registrationEndTime", prop item "registration_end_time");
     ("codingStartTime", prop item "coding_start_time");
     ("codingEndTime", prop item "coding_end_time");
     ("intermissionStartTime", prop item "intermission_start_time");
     ("intermissionEndTime", prop item "intermission_end_time");
     ("challengeStartTime", prop item "challenge_start_time");
     ("challengeEndTime", prop item "challenge_end_time");
     ("systestStartTime", prop item "systest_start_time");
     ("systestEndTime", prop item "systest_end_time")].

(** Lines 716-724 of getSRMSchedule.run: (sortOrder, sortColumn). *)
Definition scheduleSort (params : gmap string string) : string * string :=
  let sortOrder := toLowerCase (orElse (params !! "sortOrder") "asc") in
  let sortColumn :=
    toLowerCase (orElse (params !! "sortColumn") "registrationStartTime") in
  let sortOrder :=
    if negb (isDefined (params !! "sortOrder"))
       && strEq sortColumn "registrationstarttime"
    then "desc" else sortOrder in
  (sortOrder, sortColumn).

(** The first function of the waterfall of getSRMSchedule.run: the error it
    hands to the callback (if any) and connection.params as it leaves them
    (an absent statuses is set to 'f'). *)
Definition scheduleValidate (helper : Helper) (params : gmap string string)
    (pageIndex pageSize : number) (sortOrder sortColumn : string)
  : option Error * gmap string string :=
  let allowedSort := getLowerCaseList helper ALLOWABLE_SCHEDULE_SORT_COLUMN in
  let error :=
    if isDefined (params !! "pageIndex") && negb (strictEq pageIndex (Int (-1)))
    then checkDefined helper (params !! "pageSize") "pageSize"
    else None in
  let error :=
    error
    <||> checkMaxNumber helper pageIndex MAX_INT "pageIndex"
    <||> checkMaxNumber helper pageSize MAX_INT "pageSize"
    <||> checkPageIndex helper pageIndex "pageIndex"
    <||> checkPositiveInteger helper pageSize "pageSize"
    <||> checkContains helper ["asc"; "desc"] sortOrder "sortOrder"
    <||> checkContains helper allowedSort sortColumn "sortColumn" in
  (* validate the round status *)
  let '(error, params) :=
    match params !! "statuses" with
    | Some statuses =>
        (error <||> checkSubset helper (split ","%char statuses)
                      VALID_ROUND_STATUS "statuses",
         params)
    | None => (error, <["statuses" := "f"]> params)
    end in
  (* validate the round types *)
  let error :=
    match params !! "types" with
    | Some types =>
        error <||> checkSubset helper (split ","%char types)
                     VALID_ROUND_TYPES "types"
    | None => error
    end in
  (* check the phases time if presented *)
  let error := checkPhaseTimes error params helper in
  (error, params).

(** helper.readQuery as a step *)
Definition readQueryStep (helper : Helper) (name : string) : Async string :=
  match readQuery helper name with
  | inl e => fail e
  | inr text => ret text
  end.

(** The object sqlParams of getSRMSchedule.run (lines 773-778). *)
Definition scheduleSqlParams (helper : Helper) (pageIndex pageSize : number)
    (sortColumn sortOrder : string) : gmap string Value :=
  list_to_map
    [("firstRowIndex", VNum (firstRowIndex pageIndex pageSize));
     ("pageSize", VNum pageSize);
     ("sortColumn", VStr (getSortColumnDBName helper sortColumn));
     ("sortOrder", VStr sortOrder)].

(** exports.getSRMSchedule.run *)
Definition getSRMSchedule (api : Api) (connection : Connection)
  : list Statement * Outcome Envelope.t :=
  let helper := helper api in
  let params := params connection in
  if negb (dbConnectionMap connection) then ([], NoConnection)
  else
    let '(sortOrder, sortColumn) := scheduleSort params in
    let pageIndex := NumberOr (params !! "pageIndex") (Int 1) in
    let pageSize := NumberOr (params !! "pageSize") DEFAULT_PAGE_SIZE in
    finish (
      let validated :=
        scheduleValidate helper params pageIndex pageSize sortOrder sortColumn in
      let params := snd validated in
      let window := pageWindow pageIndex pageSize in
      let SCHEDULE_TIMEZONE := databaseTimezoneIdentifier api in
      _ <- check (fst validated) ;;
      q <- parallel (readQueryStep helper "get_srm_schedule")
                    (readQueryStep helper "get_srm_schedule_count") ;;
      let sqlParams :=
        scheduleSqlParams helper (fst window) (snd window) sortColumn sortOrder in
      let q_data :=
        addScheduleFilter (moment api) SCHEDULE_TIMEZONE (fst q) params helper in
      let q_count :=
        addScheduleFilter (moment api) SCHEDULE_TIMEZONE (snd q) params helper in
      results <-
        parallel (executeQuery (dataAccess api) q_data sqlParams)
                 (executeQuery (dataAccess api) q_count sqlParams) ;;
      pagedResult scheduleOfRow params (fst window) (snd window)
        (snd results) (fst results)).

(* ------------------------------------------------------------------------- *)
(** ** getPracticeProblems *)

Definition PROBLEM_ID_FILTER : string := " AND problem_id = @filter@" +:+ newline.
Definition PROBLEM_NAME_FILTER : string :=
  " AND LOWER(problem_name) LIKE LOWER('@filter@')" +:+ newline.
Definition PROBLEM_TYPE_FILTER : string :=
  " AND LOWER(problem_type) IN (@filter@)" +:+ newline.
Definition DIFFICULTY_FILTER : string :=
  " AND LOWER(difficulty) IN (@filter@)" +:+ newline.
Definition POINTS_LOWER_BOUND_FILTER : string := " AND points >= @filter@" +:+ newline.
Definition POINTS_UPPER_BOUND_FILTER : string := " AND points <= @filter@" +:+ newline.
Definition STATUS_FILTER : string := " AND LOWER(srp.status) IN (@filter@)" +:+ newline.
Definition MY_POINTS_UPPER_BOUND_FILTER : string :=
  "AND srp.my_points <= @filter@" +:+ newline.
Definition MY_POINTS_LOWER_BOUND_FILTER : string :=
  " AND srp.my_points >= @filter@" +:+ newline.

Definition VALID_PRACTICE_PROBLEMS_SORT_COLUMN : list string :=
  ["problemId"; "problemName"; "problemType"; "difficulty"; "points"; "status";
   "myPoints"].
Definition VALID_PRACTICE_PROBLEMS_STATUS : list string := ["new"; "viewed"; "solved"].
Definition VALID_PRACTICE_PROBLEMS_DIFFICULTY : list string := ["easy"; "medium"; "hard"].
Definition VALID_PRACTICE_PROBLEMS_TYPE : list string := ["single"; "team"; "long"].

(** addFilter (query, parameters, helper) *)
Definition addFilter (query : string) (parameters : gmap string string)
    (helper : Helper) : string :=
  let numeric name filter query :=
    addWhenDefined helper (parameters !! name) filter
      (fun v => VNum (Number v)) query in
  let listed name filter query :=
    addWhenDefined helper (parameters !! name) filter
      (fun v => VStr (quotedList v)) query in
  let query := numeric "problemId" PROBLEM_ID_FILTER query in
  let query :=
    addWhenDefined helper (parameters !! "problemName") PROBLEM_NAME_FILTER
      (fun v => VStr ("%" +:+ toLowerCase v +:+ "%")) query in
  let query := listed "problemTypes" PROBLEM_TYPE_FILTER query in
  let query := listed "difficulty" DIFFICULTY_FILTER query in
  let query := numeric "pointsLowerBound" POINTS_LOWER_BOUND_FILTER query in
  let query := numeric "pointsUpperBound" POINTS_UPPER_BOUND_FILTER query in
  let query := listed "statuses" STATUS_FILTER query in
  let query := numeric "myPointsLowerBound" MY_POINTS_LOWER_BOUND_FILTER query in
  let query := numeric "myPointsUpperBound" MY_POINTS_UPPER_BOUND_FILTER query in
  query.

(** The first function of the waterfall of getPracticeProblems: the error it
    hands to the callback. *)
Definition practiceValidate (helper : Helper) (connection : Connection)
    (pageIndex pageSize : number) (sortColumn sortOrder : string)
  : option Error :=
  let params := params connection in
  let error :=
    checkPageIndex helper pageIndex "pageIndex"
    <||> checkPositiveInteger helper pageSize "pageSize"
    <||> checkMaxInt helper pageSize "pageSize"
    <||> checkContains helper ["asc"; "desc"] (toLowerCase sortOrder) "sortOrder"
    <||> checkSortColumn helper VALID_PRACTICE_PROBLEMS_SORT_COLUMN
           (toLowerCase sortColumn)
    <||> checkMember helper (caller connection)
           "Only logged in user can access to this endpoint." in
  let error :=
    match params !! "statuses" with
    | Some statuses =>
        error <||> checkSubset helper (split ","%char statuses)
                     VALID_PRACTICE_PROBLEMS_STATUS "statuses"
    | None => error
    end in
  let error :=
    match params !! "problemName" with
    | Some problemName =>
        if 32 <? jsLength problemName
        then error <||> Some (mkError IllegalArgumentError
                                "The problemName should less than 32 characters.")
        else error
    | None => error
    end in
  let error :=
    match params !! "difficulty" with
    | Some difficulty =>
        error <||> checkSubset helper (split ","%char difficulty)
                     VALID_PRACTICE_PROBLEMS_DIFFICULTY "difficulty"
    | None => error
    end in
  let error :=
    match params !! "problemTypes" with
    | Some problemTypes =>
        error <||> checkSubset helper (split ","%char problemTypes)
                     VALID_PRACTICE_PROBLEMS_TYPE "problemTypes"
    | None => error
    end in
  let error :=
    if isDefined (params !! "pointsLowerBound")
       || isDefined (params !! "pointsUpperBound")
    then
      let pointsLowerBound := NumberOr (params !! "pointsLowerBound") (Int 0) in
      let pointsUpperBound :=
        NumberOr (params !! "pointsUpperBound") (helper_MAX_INT helper) in
      let error :=
        error
        <||> checkMaxInt helper pointsLowerBound "pointsLowerBound"
        <||> checkNonNegativeInteger helper pointsLowerBound "pointsLowerBound"
        <||> checkPositiveInteger helper pointsUpperBound "pointsUpperBound"
        <||> checkMaxInt helper pointsUpperBound "pointsUpperBound" in
      if gt pointsLowerBound pointsUpperBound
      then error <||> Some (mkError IllegalArgumentError
             "The pointsLowerBound should less than pointsUpperBound or max value of integer.")
      else error
    else error in
  let error :=
    if isDefined (params !! "myPointsLowerBound")
       || isDefined (params !! "myPointsUpperBound")
    then
      let myPointsLowerBound := NumberOr (params !! "myPointsLowerBound") (Int 0) in
      let myPointsUpperBound :=
        NumberOr (params !! "myPointsUpperBound") (helper_MAX_INT helper) in
      let error :=
        error
        <||> checkNonNegativeInteger helper myPointsLowerBound "myPointsLowerBound"
        <||> checkMaxInt helper myPointsLowerBound "myPointsLowerBound"
        <||> checkPositiveInteger helper myPointsUpperBound "myPointsUpperBound"
        <||> checkMaxInt helper myPointsUpperBound "myPointsUpperBound" in
      if gt myPointsLowerBound myPointsUpperBound
      then error <||> Some (mkError IllegalArgumentError
             "The myPointsLowerBound should less than myPointsUpperBound or max value of integer.")
      else error
    else error in
  error.

(** The object sqlParams of getPracticeProblems (lines 2468-2474). *)
Definition practiceSqlParams (helper : Helper) (pageIndex pageSize : number)
    (sortColumn sortOrder : string) (caller : Caller) : gmap string Value :=
  list_to_map
    [("firstRowIndex", VNum (firstRowIndex pageIndex pageSize));
     ("pageSize", VNum pageSize);
     ("sortColumn", VStr (getSortColumnDBName helper sortColumn));
     ("sortOrder", VStr (toLowerCase sortOrder));
     ("userId", userId caller)].

(** getPracticeProblems (api, connection, next), behind the connection test
    of exports.getPracticeProblems.run *)
Definition getPracticeProblems (api : Api) (connection : Connection)
  : list Statement * Outcome Envelope.t :=
  if negb (dbConnectionMap connection) then ([], NoConnection)
  else
    let helper := helper api in
    let params := params connection in
    let pageIndex := NumberOr (params !! "pageIndex") (Int 1) in
    let pageSize := NumberOr (params !! "pageSize") (Int 10) in
    let sortColumn := orElse (params !! "sortColumn") "problemId" in
    let sortOrder := orElse (params !! "sortOrder") (consts_ASCENDING helper) in
    finish (
      _ <- check (practiceValidate helper connection pageIndex pageSize
                    sortColumn sortOrder) ;;
      q <- parallel (readQueryStep helper "get_practice_problems")
                    (readQueryStep helper "get_practice_problems_count") ;;
      let sqlParams :=
        practiceSqlParams helper pageIndex pageSize sortColumn sortOrder
          (caller connection) in
      let q_data := addFilter (fst q) params helper in
      let q_count := addFilter (snd q) params helper in
      results <-
        parallel (executeQuery (dataAccess api) q_data sqlParams)
                 (executeQuery (dataAccess api) q_count sqlParams) ;;
      total <- total_count (snd results) ;;
      ret (Envelope.mk total pageIndex (VNum pageSize)
             (transferDBResults2Response helper (fst results)))).

(* ------------------------------------------------------------------------- *)
(** ** async.auto

    A task has a name, the names of the tasks it requires and a body that
    receives the results so far.  The body returns its result and the results
    object as it leaves it (a body may assign into an object it received).

    async.auto starts a task once every task it requires has a result.  A
    task that fails leaves no result, so what requires it never starts, while
    tasks that do not require it still run; the final callback receives the
    first error, or the results once every task has one (and is not called
    when neither happens).  The tasks of this file are written in an order
    in which every task follows the tasks it requires, so one pass in key
    order runs them all.  Which of several failing tasks reports first
    depends on the timing of the store; the embedding takes key order. *)

Record Task := mkTask {
  taskName : string;
  requires : list string;
  body : gmap string Value -> Async (Value * gmap string Value)
}.

(** A task whose body leaves the results object as it is. *)
Definition task (name : string) (deps : list string)
    (f : gmap string Value -> Async Value) : Task :=
  mkTask name deps (fun results => v <- f results ;; ret (v, results)).

Definition ready (results : gmap string Value) (t : Task) : bool :=
  forallb (fun d => bool_decide (is_Some (results !! d))) (requires t).

Definition autoStep (st : gmap string Value * option Error) (t : Task)
  : Async (gmap string Value * option Error) :=
  let '(results, error) := st in
  if ready results t
  then fun trace =>
         match body t results trace with
         | (trace', Ok (v, results')) =>
             (trace', Ok (<[taskName t := v]> results', error))
         | (trace', Err e) =>
             (trace', Ok (results, Some (default e error)))
         | (trace', Throw x) => (trace', Throw x)
         | (trace', Hang) => (trace', Hang)
         end
  else ret st.

Fixpoint autoLoop (tasks : list Task)
    (st : gmap string Value * option Error)
  : Async (gmap string Value * option Error) :=
  match tasks with
  | [] => ret st
  | t :: rest => st' <- autoStep st t ;; autoLoop rest st'
  end.

Definition auto (tasks : list Task) : Async (gmap string Value) :=
  st <- autoLoop tasks (∅, None) ;;
  match snd st with
  | Some e => fail e
  | None =>
      if forallb (fun t => bool_decide (is_Some (fst st !! taskName t))) tasks
      then ret (fst st)
      else fun trace => (trace, Hang)
  end.

(** The keys of an object filled by assigning [keys] in that order. *)
Fixpoint objectKeys (seen keys : list string) : list string :=
  match keys with
  | [] => []
  | k :: rest =>
      if bool_decide (k ∈ seen) then objectKeys seen rest
      else k :: objectKeys (k :: seen) rest
  end.

(* ------------------------------------------------------------------------- *)
(** ** Arguments of createSRMContest and updateSRMContest *)

(** The text of a value inside a string concatenation.  The values
    concatenated in this file are the strings of the request and the results
    of parseInt (an integer or NaN): the text of another number, of an array
    or of an object is not modelled, and no property below relies on it. *)
Definition toText (v : Value) : string :=
  match v with
  | VStr s => s
  | VNum (Int z) => pretty z
  | VNum NaN => "NaN"
  | VNull => "null"
  | VUndefined => "undefined"
  | VBool true => "true"
  | VBool false => "false"
  | _ => EmptyString
  end.

(** The reduction inside sqlParams (params, escape, date), lines 1649-1669;
    the last task of validateAndPrepareSRMContestApiArguments has the same
    body (lines 1376-1392).  [escape] and [date] list the keys that the two
    objects of the source map to true; the names of [params] in this file
    are none of the names an object inherits (constructor, toString and the
    like), for which [escape[item]] would be true in a condition as well. *)
Definition sqlParams (params escape date : list string)
    (results : gmap string Value) : gmap string Value :=
  fold_left
    (fun memo item =>
       let v := prop results item in
       if isNullish v then <[item := VStr "NULL"]> memo
       else if bool_decide (item ∈ escape)
            then (* normalize seconds in dates *)
              <[item := VStr (String quote EmptyString
                              +:+ toText v
                              +:+ (if bool_decide (item ∈ date) then ":00" else EmptyString)
                              +:+ String quote EmptyString)]> memo
            else <[item := v]> memo)
    params ∅.

Definition ESCAPE : list string :=
  ["name"; "status"; "adText"; "adTask"; "adCommand";
   "startDate"; "endDate"; "adStart"; "adEnd"].
Definition DATE : list string := ["startDate"; "endDate"; "adStart"; "adEnd"].

(** The validator of a nullable text field (adText, adTask, adCommand). *)
Definition textValidator (helper : Helper) (params : gmap string string)
    (name : string) (limit : Z) : Async Value :=
  match params !! name with
  | None => ret VNull
  | Some text =>
      _ <- check (checkString helper text name
                  <||> checkExceedsLength text limit name
                  <||> checkIllegalCharacters text name) ;;
      ret (VStr text)
  end.

(** The validator of a nullable date that opens a range (startDate, adStart). *)
Definition dateValidator (helper : Helper) (params : gmap string string)
    (name : string) : Async Value :=
  match params !! name with
  | None => ret VNull
  | Some date =>
      _ <- check (validateDate helper date name DATE_FORMAT) ;;
      ret (VStr date)
  end.

(** The validator of a nullable date that closes a range (endDate, adEnd);
    [start] is the result of the validator of the opening date. *)
Definition endDateValidator (api : Api) (params : gmap string string)
    (name startName : string) (start : Value) : Async Value :=
  match params !! name with
  | None => ret VNull
  | Some date =>
      _ <- check (validateDate (helper api) date name DATE_FORMAT) ;;
      if truthy start && negb (isBefore (moment api) (toText start) date)
      then fail (mkError IllegalArgumentError
                   (startName +:+ " does not precede " +:+ name +:+ "."))
      else ret (VStr date)
  end.

(** /^[AFPI]$/.test (status) *)
Definition isStatusCode (status : string) : bool :=
  strEq status "A" || strEq status "F" || strEq status "P" || strEq status "I".

(** The object [validators] of validateAndPrepareSRMContestApiArguments. *)
Definition validators (api : Api) (connection : Connection) : list Task :=
  let helper := helper api in
  let params := params connection in
  [ task "id" [] (fun _ =>
      let id := parseInt (params !! "id") in
      _ <- check (checkIdParameter helper id "id") ;;
      contestExists <-
        executeQuery (dataAccess api) "get_srm_contest"
          {[ "contestId" := VNum id ]} ;;
      if Nat.eqb (length contestExists) 0
      then fail (mkError IllegalArgumentError "id is unknown.")
      else ret (VNum id));
    task "contestId" [] (fun _ =>
      let contestId := parseInt (params !! "contestId") in
      _ <- check (checkIdParameter helper contestId "contestId") ;;
      ret (VNum contestId));
    task "name" [] (fun _ =>
      let name := params !! "name" in
      match checkStringPopulated helper name "name" with
      | Some e => fail e
      | None =>
          match name with
          | None => throw "TypeError: Cannot read property 'length' of undefined"
          | Some name =>
              _ <- check (checkExceedsLength name 50 "name"
                          <||> checkIllegalCharacters name "name") ;;
              ret (VStr name)
          end
      end);
    task "startDate" [] (fun _ => dateValidator helper params "startDate");
    task "endDate" ["startDate"] (fun results =>
      endDateValidator api params "endDate" "startDate"
        (prop results "startDate"));
    task "status" [] (fun _ =>
      match params !! "status" with
      | None => ret VNull
      | Some status =>
          _ <- check
                 (checkStringPopulated helper (Some status) "status"
                  <||> (if negb (jsLength status =? 1)
                        then Some (mkError IllegalArgumentError
                                     "status must be of length 1")
                        else None)
                  <||> (if isStatusCode status then None
                        else Some (mkError IllegalArgumentError
                                     "status unknown."))) ;;
          ret (VStr status)
      end);
    task "groupId" [] (fun _ =>
      match params !! "groupId" with
      | None => ret VNull
      | Some _ =>
          let groupId := parseInt (params !! "groupId") in
          _ <- check (checkInteger helper groupId "groupId") ;;
          rows <- executeQuery (dataAccess api) "get_group"
                    {[ "groupId" := VNum groupId ]} ;;
          if Nat.ltb 0 (length rows) then ret (VNum groupId)
          else fail (mkError IllegalArgumentError "groupId is unknown.")
      end);
    task "adText" [] (fun _ => textValidator helper params "adText" 250);
    task "adStart" [] (fun _ => dateValidator helper params "adStart");
    task "adEnd" ["adStart"] (fun results =>
      endDateValidator api params "adEnd" "adStart" (prop results "adStart"));
    task "adTask" [] (fun _ => textValidator helper params "adTask" 30);
    task "adCommand" [] (fun _ => textValidator helper params "adCommand" 30);
    task "activateMenu" [] (fun _ =>
      match params !! "activateMenu" with
      | None => ret VNull
      | Some _ =>
          let activateMenu := parseInt (params !! "activateMenu") in
          _ <- check (checkInteger helper activateMenu "activateMenu") ;;
          ret (VNum activateMenu)
      end);
    task "seasonId" [] (fun _ =>
      match params !! "seasonId" with
      | None => ret VNull
      | Some _ =>
          let seasonId := parseInt (params !! "seasonId") in
          _ <- check (checkIdParameter helper seasonId "seasonId") ;;
          rows <- executeQuery (dataAccess api) "get_season"
                    {[ "seasonId" := VNum seasonId ]} ;;
          if Nat.eqb (length rows) 0
          then fail (mkError IllegalArgumentError "seasonId is unknown.")
          else ret (VNum seasonId)
      end) ].

(** [validators[name]]; a name without a validator leaves async.auto with a
    task that is not a function. *)
Definition validatorOf (all : list Task) (name : string) : Task :=
  match find (fun t => strEq (taskName t) name) all with
  | Some t => t
  | None => mkTask name [] (fun _ => throw "TypeError: undefined is not a function")
  end.

(** validateAndPrepareSRMContestApiArguments (args, api, connection): the
    function it returns, as a step. *)
Definition validateAndPrepareSRMContestApiArguments (args : list string)
    (api : Api) (connection : Connection) : Async (gmap string Value) :=
  let validations :=
    (map (validatorOf (validators api connection)) (objectKeys [] args)
     ++ [ task "sqlParams" args (fun results =>
            ret (VObj (sqlParams args ESCAPE DATE results))) ])%list in
  auto validations.

(** The rows of a store answer as a value. *)
Definition rowsValue (rows : list (gmap string Value)) : Value :=
  VArr (map VObj rows).

(** The first task of the admin actions:
    [cb(helper.checkAdmin(connection, UNAUTHORIZED_MESSAGE, NON_ADMIN_MESSAGE))] *)
Definition adminTask (api : Api) (connection : Connection) : Task :=
  task "admin" [] (fun _ =>
    _ <- check (checkAdmin (helper api) (caller connection)
                  UNAUTHORIZED_MESSAGE NON_ADMIN_MESSAGE) ;;
    ret VUndefined).

(** [results.<validate>.sqlParams] *)
Definition preparedParams (results : gmap string Value) (validate : string)
  : gmap string Value :=
  fieldsOf (prop (fieldsOf (prop results validate)) "sqlParams").

(* ------------------------------------------------------------------------- *)
(** ** createSRMContest *)

Definition CREATE_ARGS : list string :=
  ["name"; "startDate"; "endDate"; "status"; "groupId"; "adText"; "adStart";
   "adEnd"; "adTask"; "adCommand"; "activateMenu"; "seasonId"].

(** exports.createSRMContest.run.  The variable genContestId is assigned
    together with [validate.sqlParams.contestId]; the response reads it from
    there. *)
Definition createSRMContest (api : Api) (connection : Connection)
  : list Statement * Outcome Value :=
  finish (
    results <- auto
      [ adminTask api connection;
        (* do common validations *)
        task "common" ["admin"] (fun _ =>
          r <- validateAndPrepareSRMContestApiArguments CREATE_ARGS api connection ;;
          ret (VObj r));
        (* generate the contestId from CONTEST_SEQ *)
        mkTask "generateContestId" ["common"] (fun results =>
          match getNextIDFromDb api "CONTEST_SEQ" with
          | inl e => fail e
          | inr contestId =>
              let validate := fieldsOf (prop results "common") in
              let validate :=
                <["sqlParams" :=
                    VObj (<["contestId" := contestId]>
                            (fieldsOf (prop validate "sqlParams")))]> validate in
              ret (VUndefined, <["common" := VObj validate]> results)
          end);
        task "insert" ["generateContestId"] (fun results =>
          rows <- executeQuery (dataAccess api) "insert_srm_contest"
                    (preparedParams results "common") ;;
          ret (rowsValue rows)) ] ;;
    ret (VObj {[ "contestId" := prop (preparedParams results "common") "contestId" ]})).

(* ------------------------------------------------------------------------- *)
(** ** C7: the statements of updateSRMContest *)

Definition UPDATE_ARGS : list string :=
  ["id"; "contestId"; "name"; "startDate"; "endDate"; "status"; "groupId";
   "adText"; "adStart"; "adEnd"; "adEnd"; "adEnd"; "adTask"; "adCommand";
   "activateMenu"; "seasonId"].

(** The task updateContestId of updateSRMContest. *)
Definition updateContestId (api : Api) (results : gmap string Value)
  : Async Value :=
  let validate := fieldsOf (prop results "validate") in
  let id := prop validate "id" in
  let contestId := prop validate "contestId" in
  if strictNe id contestId
  then
    (* async.series: the result is the array of the four answers *)
    r1 <- executeQuery (dataAccess api) "insert_srm_contest"
            (preparedParams results "validate") ;;
    r2 <- executeQuery (dataAccess api) "update_srm_contest"
            (preparedParams results "validate") ;;
    r3 <- executeQuery (dataAccess api) "update_srm_contest_id"
            (<["contestId" := contestId]> {[ "id" := id ]}) ;;
    r4 <- executeQuery (dataAccess api) "delete_srm_contest"
            {[ "id" := id ]} ;;
    ret (VArr [rowsValue r1; rowsValue r2; rowsValue r3; rowsValue r4])
  else ret VUndefined.

(** The task updateContest of updateSRMContest. *)
Definition updateContest (api : Api) (results : gmap string Value)
  : Async Value :=
  (* don't update the same contest twice with the same data *)
  if negb (truthy (prop results "updateContestId"))
  then
    rows <- executeQuery (dataAccess api) "update_srm_contest"
              (preparedParams results "validate") ;;
    ret (rowsValue rows)
  else ret VUndefined.

(** exports.updateSRMContest.run *)
Definition updateSRMContest (api : Api) (connection : Connection)
  : list Statement * Outcome Value :=
  finish (
    _ <- auto
      [ adminTask api connection;
        task "validate" ["admin"] (fun _ =>
          r <- validateAndPrepareSRMContestApiArguments UPDATE_ARGS api connection ;;
          ret (VObj r));
        task "updateContestId" ["validate"] (updateContestId api);
        task "updateContest" ["updateContestId"] (updateContest api) ] ;;
    ret (VObj {[ "success" := VBool true ]})).

(* ------------------------------------------------------------------------- *)
(** ** setRoundEvents *)

(** [results[0][0].round_exist === 0]; reading a property of [undefined]
    throws. *)
Definition round_exist_is_zero (rows : list (gmap string Value)) : Async bool :=
  match rows with
  | [] => throw "TypeError: Cannot read property 'round_exist' of undefined"
  | row :: _ =>
      ret (match prop row "round_exist" with
           | VNum n => strictEq n (Int 0)
           | _ => false
           end)
  end.

(** The tasks eventName and registrationUrl of setRoundEvents. *)
Definition eventTextTask (helper : Helper) (params : gmap string string)
    (name : string) (limit : number) : Task :=
  task name ["admin"] (fun _ =>
    match params !! name with
    | None => ret VNull
    | Some text =>
        _ <- check (checkStringPopulated helper (Some text) name
                    <||> checkMaxNumber helper (ofZ (jsLength text)) limit
                           ("Length of " +:+ name)
                    <||> checkIllegalCharacters text name) ;;
        ret (VStr text)
    end).

(** The tasks roundId and eventId of setRoundEvents. *)
Definition idTask (helper : Helper) (params : gmap string string)
    (name : string) : Task :=
  task name ["admin"] (fun _ =>
    let id := parseInt (params !! name) in
    _ <- check (checkIdParameter helper id name
                <||> checkMaxNumber helper id MAX_ID name) ;;
    ret (VNum id)).

(** exports.setRoundEvents.run *)
Definition setRoundEvents (api : Api) (connection : Connection)
  : list Statement * Outcome Value :=
  let helper := helper api in
  let sqlparams := ["roundId"; "eventId"; "eventName"; "registrationUrl"] in
  let params := params connection in
  finish (
    _ <- auto
      [ adminTask api connection;
        idTask helper params "roundId";
        task "exists" ["roundId"] (fun results =>
          rows <- executeQuery (dataAccess api) "check_round_exist"
                    {[ "roundId" := prop results "roundId" ]} ;;
          zero <- round_exist_is_zero rows ;;
          if (zero : bool)
          then fail (mkError IllegalArgumentError "roundId unknown.")
          else ret VNull);
        idTask helper params "eventId";
        eventTextTask helper params "eventName" (Int 50);
        eventTextTask helper params "registrationUrl" (Int 255);
        task "sqlParams" sqlparams (fun results =>
          ret (VObj (sqlParams sqlparams ["eventName"; "registrationUrl"] []
                       results)));
        task "clean" ["roundId"; "exists"] (fun results =>
          rows <- executeQuery (dataAccess api) "srm_clear_round_events"
                    {[ "roundId" := prop results "roundId" ]} ;;
          ret (rowsValue rows));
        task "insert" ["clean"; "sqlParams"] (fun results =>
          rows <- executeQuery (dataAccess api) "srm_insert_round_event"
                    (fieldsOf (prop results "sqlParams")) ;;
          ret (rowsValue rows)) ] ;;
    ret (VObj {[ "success" := VBool true ]})).

(* ------------------------------------------------------------------------- *)
(** ** getSRMChallenge *)

Definition LEADER_COUNT : number := Int 5.

(** [v * 100] and the like convert [v] to a number first.  An array converts
    through its text: the empty array is 0, an array of one element is what
    the text of that element (empty for null and undefined) converts to, and
    the text of a longer array holds a comma, which is not a number. *)
Fixpoint toNumber (v : Value) : number :=
  match v with
  | VUndefined => NaN
  | VNull => Int 0
  | VNum n => n
  | VStr s => Number s
  | VBool b => if b then Int 1 else Int 0
  | VObj _ => NaN
  | VArr [] => Int 0
  | VArr [x] =>
      match x with
      | VUndefined | VNull => Int 0
      | VBool _ => NaN
      | _ => toNumber x
      end
  | VArr _ => NaN
  end.

(** [String(v) === name] for a division name (a text without comma that is
    not the text of a number, of a boolean, of null or of an object): the
    key under which _.groupBy files a row is the text of the property. *)
Fixpoint isDivision (name : string) (v : Value) : bool :=
  match v with
  | VStr s => strEq s name
  | VArr [x] => isDivision name x
  | _ => false
  end.

(** [groupedRows[name]] for [groupedRows = _.groupBy(rows, "division")], as
    _.map reads it (an absent group maps to the empty array). *)
Definition division (name : string) (rows : list (gmap string Value))
  : list (gmap string Value) :=
  filter (fun a => isDivision name (prop a "division") = true) rows.

(** mapLeader *)
Definition mapLeader (a : gmap string Value) : gmap string Value :=
  delete "division" a.

(** mapProblem *)
Definition mapProblem (a : gmap string Value) : gmap string Value :=
  list_to_map
    [("level", prop a "level");
     ("problemName", prop a "problem_name");
     ("submissions", prop a "submissions");
     ("correct%", VNum (mul (toNumber (prop a "correct_percent")) (Int 100)));
     ("averagePoints", prop a "average_points")].

(** [results.basic[0].name]; reading a property of [undefined] does not
    occur here: the function returns before when basic is empty. *)
Definition detailOfRows (id : number)
    (basic leaders problems : list (gmap string Value)) : Async Value :=
  match basic with
  | [] => fail (mkError NotFoundError "SRM challenge not found")
  | first :: _ =>
      ret (VObj (list_to_map
        [("roundId", VNum id);
         ("name", prop first "name");
         ("leaders",
          VObj (list_to_map
            [("divisionI",
              rowsValue (map mapLeader (division "Division-I" leaders)));
             ("divisionII",
              rowsValue (map mapLeader (division "Division-II" leaders)))]));
         ("problems",
          VObj (list_to_map
            [("divisionI",
              rowsValue (map mapProblem (division "Division-I" problems)));
             ("divisionII",
              rowsValue (map mapProblem (division "Division-II" problems)))]))]))
  end.

(** exports.getSRMChallenge.run *)
Definition getSRMChallenge (api : Api) (connection : Connection)
  : list Statement * Outcome Value :=
  let id := NumberOf (params connection !! "id") in
  let er := NumberOr (params connection !! "er") LEADER_COUNT in
  let helper := helper api in
  let sqlParams : gmap string Value :=
    list_to_map [("roundId", VNum id); ("er", VNum er)] in
  if negb (dbConnectionMap connection) then ([], NoConnection)
  else
    finish (
      _ <- check (checkPositiveInteger helper id "id"
                  <||> checkMaxNumber helper id MAX_INT "id"
                  <||> checkPositiveInteger helper er "er"
                  <||> checkMaxNumber helper er MAX_INT "er") ;;
      results <-
        parallel (executeQuery (dataAccess api) "get_srm_detail_basic" sqlParams)
          (parallel
             (executeQuery (dataAccess api) "get_srm_detail_leader" sqlParams)
             (executeQuery (dataAccess api) "get_srm_detail_problem" sqlParams)) ;;
      detailOfRows id (fst results) (fst (snd results)) (snd (snd results))).

(* ------------------------------------------------------------------------- *)
(** ** listSRMContests and loadRoundAccess *)

(** formatDate (date) of the two actions; [format] is
    [moment(date).format(DATE_FORMAT)]. *)
Definition formatDate (format : string -> string -> string) (date : Value)
  : Value :=
  match date with
  | VStr s => VStr (format s DATE_FORMAT)
  | _ => VNull
  end.

(** [v || null] *)
Definition orNull (v : Value) : Value := if truthy v then v else VNull.

(** [(_.isNull(v) || _.isUndefined(v)) ? null : v] *)
Definition nullWhenAbsent (v : Value) : Value :=
  if isNullish v then VNull else v.

Definition isNull (v : Value) : bool :=
  match v with VNull => true | _ => false end.

(** The reduction of the two actions over the object with the [fields]:
    [if (!_.isNull(value)) { memo[key] = value; }] *)
Definition withoutNulls (fields : list (string * Value)) : gmap string Value :=
  fold_left
    (fun memo kv => if isNull (snd kv) then memo else <[fst kv := snd kv]> memo)
    fields ∅.

(** The object listSRMContests builds for a row. *)
Definition contestOfRow (format : string -> string -> string)
    (contest : gmap string Value) : gmap string Value :=
  withoutNulls
    [("contestId", nullWhenAbsent (prop contest "contest_id"));
     ("name", orNull (prop contest "contest_name"));
     ("startDate", formatDate format (prop contest "start_date"));
     ("endDate", formatDate format (prop contest "end_date"));
     ("status", orNull (prop contest "status"));
     ("groupId", nullWhenAbsent (prop contest "group_id"));
     ("adText", orNull (prop contest "ad_text"));
     ("adStart", formatDate format (prop contest "ad_start"));
     ("adEnd", formatDate format (prop contest "ad_end"));
     ("adTask", orNull (prop contest "ad_task"));
     ("adCommand", orNull (prop contest "ad_command"));
     ("activateMenu", nullWhenAbsent (prop contest "activate_menu"));
     ("season",
      if isNullish (prop contest "season_id") then VNull
      else VObj (list_to_map [("seasonId", prop contest "season_id");
                              ("name", prop contest "season_name")]))].

(** exports.listSRMContests.run.  The action does not look at
    connection.dbConnectionMap before it sends its statement. *)
Definition listSRMContests (format : string -> string -> string)
    (api : Api) (connection : Connection) : list Statement * Outcome Value :=
  finish (
    _ <- check (checkAdmin (helper api) (caller connection)
                  UNAUTHORIZED_MESSAGE NON_ADMIN_MESSAGE) ;;
    rows <- executeQuery (dataAccess api) "get_all_srm_contests" ∅ ;;
    ret (if Nat.ltb 0 (length rows)
         then rowsValue (map (contestOfRow format) rows)
         else VArr [])).

(** CONTEST_CONSTANTS: the round types only. *)
Definition CONTEST_CONSTANTS : list (string * Z) :=
  [("SRM_ROUND_TYPE_ID", 1); ("TOURNAMENT_ROUND_TYPE_ID", 2);
   ("PRACTICE_ROUND_TYPE_ID", 3); ("LOBBY_ROUND_TYPE_ID", 4);
   ("MODERATED_CHAT_ROUND_TYPE_ID", 5); ("TEAM_SRM_ROUND_TYPE_ID", 7);
   ("TEAM_TOURNAMENT_ROUND_TYPE_ID", 8); ("TEAM_PRACTICE_ROUND_TYPE_ID", 9);
   ("LONG_ROUND_TYPE_ID", 10); ("WEAKEST_LINK_ROUND_TYPE_ID", 11);
   ("PRIVATE_LABEL_TOURNAMENT_ROUND_TYPE_ID", 12);
   ("LONG_PROBLEM_ROUND_TYPE_ID", 13);
   ("LONG_PROBLEM_PRACTICE_ROUND_TYPE_ID", 14);
   ("INTEL_LONG_PROBLEM_ROUND_TYPE_ID", 15);
   ("INTEL_LONG_PROBLEM_PRACTICE_ROUND_TYPE_ID", 16);
   ("HS_SRM_ROUND_TYPE_ID", 17); ("HS_TOURNAMENT_ROUND_TYPE_ID", 18);
   ("LONG_PROBLEM_TOURNAMENT_ROUND_TYPE_ID", 19);
   ("INTRO_EVENT_ROUND_TYPE_ID", 20); ("EDUCATION_ALGO_ROUND_TYPE_ID", 21);
   ("AMD_LONG_PROBLEM_ROUND_TYPE_ID", 22);
   ("AMD_LONG_PROBLEM_PRACTICE_ROUND_TYPE_ID", 23);
   ("CUDA_LONG_PROBLEM_ROUND_TYPE_ID", 25);
   ("CUDA_LONG_PROBLEM_PRACTICE_ROUND_TYPE_ID", 26);
   ("LONG_PROBLEM_QA_ROUND_TYPE_ID", 27); ("SRM_QA_ROUND_TYPE_ID", 28);
   ("FORWARDER_ROUND_TYPE_ID", -1); ("FORWARDER_LONG_ROUND_TYPE_ID", -2)].

(** [_.values(_.pick(table, keys))]: the values of the keys that the table
    has, in the order of [keys]. *)
Definition pickValues (table : list (string * Z)) (keys : list string)
  : list Z :=
  omap (fun k => snd <$> find (fun kv => strEq (fst kv) k) table) keys.

(** The round types loadRoundAccess asks for. *)
Definition ACCESSIBLE_ROUND_TYPES : list string :=
  ["SRM_ROUND_TYPE_ID"; "TOURNAMENT_ROUND_TYPE_ID"; "SRM_QA_ROUND_TYPE_ID";
   "PRIVATE_LABEL_TOURNAMENT_ROUND_TYPE_ID"; "LONG_ROUND_TYPE_ID";
   "TEAM_SRM_ROUND_TYPE_ID"; "TEAM_TOURNAMENT_ROUND_TYPE_ID";
   "WEAKEST_LINK_ROUND_TYPE_ID"; "HS_SRM_ROUND_TYPE_ID";
   "HS_TOURNAMENT_ROUND_TYPE_ID"; "MODERATED_CHAT_ROUND_TYPE_ID";
   "LONG_PROBLEM_ROUND_TYPE_ID"; "LONG_PROBLEM_QA_ROUND_TYPE_ID";
   "INTRO_EVENT_ROUND_TYPE_ID"; "LONG_PROBLEM_TOURNAMENT_ROUND_TYPE_ID";
   "EDUCATION_ALGO_ROUND_TYPE_ID"; "AMD_LONG_PROBLEM_ROUND_TYPE_ID"].

(** The object loadRoundAccess builds for a row. *)
Definition roundOfRow (format : string -> string -> string)
    (round : gmap string Value) : gmap string Value :=
  withoutNulls
    [("roundId", nullWhenAbsent (prop round "round_id"));
     ("name", prop round "name");
     ("startDate", formatDate format (prop round "start_time"))].

(** exports.loadRoundAccess.run *)
Definition loadRoundAccess (format : string -> string -> string)
    (api : Api) (connection : Connection) : list Statement * Outcome Value :=
  finish (
    _ <- check (checkAdmin (helper api) (caller connection)
                  UNAUTHORIZED_MESSAGE NON_ADMIN_MESSAGE) ;;
    let roundTypes :=
      join "," (map pretty (pickValues CONTEST_CONSTANTS ACCESSIBLE_ROUND_TYPES)) in
    rows <- executeQuery (dataAccess api) "srm_get_accessible_rounds"
              {[ "roundTypes" := VStr roundTypes ]} ;;
    ret (if Nat.ltb 0 (length rows)
         then VObj {[ "accessibleRounds" :=
                        rowsValue (map (roundOfRow format) rows) ]}
         else VArr [])).

(* ------------------------------------------------------------------------- *)
(** ** getSrmRoundsForProblem *)

(** [results[checkProblem][0].is_there] as a condition; reading a property
    of [undefined] throws. *)
Definition is_there (rows : list (gmap string Value)) : Async bool :=
  match rows with
  | [] => throw "TypeError: Cannot read property 'is_there' of undefined"
  | row :: _ => ret (truthy (prop row "is_there"))
  end.

(** getSrmRoundsForProblem (api, connection, next), behind the connection
    test of exports.getSrmRoundsForProblem.run *)
Definition getSrmRoundsForProblem (api : Api) (connection : Connection)
  : list Statement * Outcome Value :=
  if negb (dbConnectionMap connection) then ([], NoConnection)
  else
    let helper := helper api in
    finish (
      let id := parseInt (params connection !! "problemId") in
      _ <- check (checkIdParameter helper id "problemId") ;;
      result <- executeQuery (dataAccess api) "check_problem_exists"
                  {[ "problem_id" := VNum id ]} ;;
      there <- is_there result ;;
      if (there : bool)
      then
        result <- executeQuery (dataAccess api) "get_rounds_for_problem"
                    {[ "problem_id" := VNum id ]} ;;
        ret (VObj {[ "rounds" :=
                       rowsValue (transferDBResults2Response helper result) ]})
      else fail (mkError NotFoundError "The problem doesn't exist.")).

(* ------------------------------------------------------------------------- *)
(** ** Dates on the wire

    The instant a date text denotes under a moment format made of the tokens
    YYYY MM DD HH mm ss SSS Z and literal characters, read strictly (every
    field has its full width).  Used to say which of two bounds is later. *)

Module Dates.

Inductive Token :=
| TYear | TMonth | TDay | THour | TMinute | TSecond | TMilli | TZone
| TLit (c : ascii).

Fixpoint tokens (format : string) : list Token :=
  match format with
  | String "Y" (String "Y" (String "Y" (String "Y" r))) => TYear :: tokens r
  | String "S" (String "S" (String "S" r)) => TMilli :: tokens r
  | String "M" (String "M" r) => TMonth :: tokens r
  | String "D" (String "D" r) => TDay :: tokens r
  | String "H" (String "H" r) => THour :: tokens r
  | String "m" (String "m" r) => TMinute :: tokens r
  | String "s" (String "s" r) => TSecond :: tokens r
  | String "Z" r => TZone :: tokens r
  | String c r => TLit c :: tokens r
  | EmptyString => []
  end.

Record Fields := mkFields {
  year : Z; month : Z; day : Z;
  hour : Z; minute : Z; second : Z; milli : Z;
  offset : Z  (* minutes east of UTC *)
}.

(** Exactly [width] digits. *)
Fixpoint digits (width : nat) (acc : Z) (s : string) : option (Z * string) :=
  match width with
  | O => Some (acc, s)
  | S w =>
      match s with
      | String c r =>
          match digitOf c with
          | Some d => digits w (acc * 10 + d) r
          | None => None
          end
      | EmptyString => None
      end
  end.

(** [+hh:mm], [+hhmm], [-hh:mm] or [-hhmm] *)
Definition zone (s : string) : option (Z * string) :=
  match s with
  | String sign r =>
      if (Ascii.eqb sign "+" || Ascii.eqb sign "-")%bool
      then match digits 2 0 r with
           | Some (h, r1) =>
               let r2 := match r1 with String ":" r' => r' | _ => r1 end in
               match digits 2 0 r2 with
               | Some (m, r3) =>
                   let v := h * 60 + m in
                   Some (if Ascii.eqb sign "-" then - v else v, r3)
               | None => None
               end
           | None => None
           end
      else None
  | EmptyString => None
  end.

Fixpoint read (ts : list Token) (s : string) (f : Fields) : option Fields :=
  match ts with
  | [] => match s with EmptyString => Some f | _ => None end
  | TLit c :: ts' =>
      match s with
      | String c' r => if Ascii.eqb c c' then read ts' r f else None
      | EmptyString => None
      end
  | TZone :: ts' =>
      match zone s with
      | Some (z, r) =>
          read ts' r (mkFields (year f) (month f) (day f) (hour f) (minute f)
                        (second f) (milli f) z)
      | None => None
      end
  | t :: ts' =>
      let width := match t with TYear => 4 | TMilli => 3 | _ => 2 end%nat in
      match digits width 0 s with
      | Some (v, r) =>
          read ts' r
            match t with
            | TYear => mkFields v (month f) (day f) (hour f) (minute f) (second f) (milli f) (offset f)
            | TMonth => mkFields (year f) v (day f) (hour f) (minute f) (second f) (milli f) (offset f)
            | TDay => mkFields (year f) (month f) v (hour f) (minute f) (second f) (milli f) (offset f)
            | THour => mkFields (year f) (month f) (day f) v (minute f) (second f) (milli f) (offset f)
            | TMinute => mkFields (year f) (month f) (day f) (hour f) v (second f) (milli f) (offset f)
            | TSecond => mkFields (year f) (month f) (day f) (hour f) (minute f) v (milli f) (offset f)
            | _ => mkFields (year f) (month f) (day f) (hour f) (minute f) (second f) v (offset f)
            end
      | None => None
      end
  end.

Definition leap (y : Z) : bool :=
  ((y mod 4 =? 0) && negb (y mod 100 =? 0)) || (y mod 400 =? 0).

Definition daysInMonth (y m : Z) : Z :=
  if m =? 2 then (if leap y then 29 else 28)
  else if (m =? 4) || (m =? 6) || (m =? 9) || (m =? 11) then 30 else 31.

Definition valid (f : Fields) : bool :=
  (1 <=? month f) && (month f <=? 12)
  && (1 <=? day f) && (day f <=? daysInMonth (year f) (month f))
  && (hour f <? 24) && (minute f <? 60) && (second f <? 60).

(** Days from 1970-01-01 to the civil date. *)
Definition daysFromCivil (y m d : Z) : Z :=
  let y' := if m <=? 2 then y - 1 else y in
  let era := y' / 400 in
  let yoe := y' - era * 400 in
  let doy := (153 * (if 2 <? m then m - 3 else m + 9) + 2) / 5 + d - 1 in
  let doe := yoe * 365 + yoe / 4 - yoe / 100 + doy in
  era * 146097 + doe - 719468.

(** Milliseconds since the epoch. *)
Definition instant (format value : string) : option Z :=
  match read (tokens format) value (mkFields 1970 1 1 0 0 0 0 0) with
  | Some f =>
      if valid f
      then Some ((((daysFromCivil (year f) (month f) (day f) * 24 + hour f) * 60
                   + minute f - offset f) * 60 + second f) * 1000 + milli f)
      else None
  | None => None
  end.

End Dates.

(** [a] denotes a later instant than [b] (both in the schedule format). *)
Definition laterThan (a b : string) : Prop :=
  exists x y, Dates.instant SCHEDULE_DATE_FORMAT a = Some x
              /\ Dates.instant SCHEDULE_DATE_FORMAT b = Some y
              /\ y < x.

(* ------------------------------------------------------------------------- *)
(** ** A helper that follows the specification

    initializers/helper.js is not among the sources.  The embedded actions
    take the helper as an argument; the definitions below give one helper that
    does what section 4.1 of the specification says of each validator.  It
    is the helper of the closed examples. *)

Module SpecHelper.

Definition illegal (message : string) : option Error :=
  Some (mkError IllegalArgumentError message).

(** Modelled from the spec: helper.checkDefined is missing; a value that is
    not present fails, the error names the field. *)
Definition checkDefined (obj : option string) (name : string) : option Error :=
  match obj with
  | None => illegal (name +:+ " should not be null or undefined")
  | Some _ => None
  end.

(** Modelled from the spec: helper.checkMaxNumber is missing; "integer must
    be <= a configured maximum". *)
Definition checkMaxNumber (n max : number) (name : string) : option Error :=
  if gt n max
  then illegal (name +:+ " should be less or equal to " +:+ toText (VNum max) +:+ ".")
  else None.

(** Modelled from the spec: helper.checkInteger is missing; the value must be
    an integer. *)
Definition checkInteger (n : number) (name : string) : option Error :=
  match n with
  | Int _ => None
  | NaN => illegal (name +:+ " should be number.")
  | _ => illegal (name +:+ " should be Integer.")
  end.

(** Modelled from the spec: helper.checkPositiveInteger is missing;
    "positivity". *)
Definition checkPositiveInteger (n : number) (name : string) : option Error :=
  checkInteger n name
  <||> (if gt n (Int 0) then None else illegal (name +:+ " should be positive.")).

(** Modelled from the spec: helper.checkNonNegativeInteger is missing;
    "non-negativity". *)
Definition checkNonNegativeInteger (n : number) (name : string) : option Error :=
  checkInteger n name
  <||> (if gt (Int 0) n then illegal (name +:+ " should be non-negative.") else None).

(** Modelled from the spec: helper.checkMaxInt is missing; the bound is the
    maximum of a 32-bit integer. *)
Definition checkMaxInt (n : number) (name : string) : option Error :=
  checkMaxNumber n MAX_INT name.

(** Modelled from the spec: helper.checkIdParameter is missing; an identifier
    is a positive integer within the integer bound. *)
Definition checkIdParameter (n : number) (name : string) : option Error :=
  checkPositiveInteger n name <||> checkMaxInt n name.

(** Modelled from the spec: helper.checkPageIndex is missing; "pageIndex
    (1-based, or -1 meaning all rows, one page)". *)
Definition checkPageIndex (n : number) (name : string) : option Error :=
  checkInteger n name
  <||> (if strictEq n (Int (-1)) || gt n (Int 0) then None
        else illegal (name +:+ " should be equal to -1 or greater than 0")).

(** Modelled from the spec: helper.checkContains is missing; "value must be
    one of an enumerated allow-list (case-sensitive exact match)". *)
Definition checkContains (allowed : list string) (obj name : string)
  : option Error :=
  if bool_decide (obj ∈ allowed) then None
  else illegal (name +:+ " should be an element of " +:+ join "," allowed +:+ ".").

(** Modelled from the spec: helper.checkSortColumn is missing; "a sort column
    not in the allow-list is rejected" (case-insensitive), "naming
    sortColumn". *)
Definition checkSortColumn (allowed : list string) (column : string)
  : option Error :=
  if bool_decide (column ∈ map toLowerCase allowed) then None
  else illegal ("sortColumn '" +:+ column +:+ "' is invalid.").

(** Modelled from the spec: helper.checkSubset is missing; "a comma-delimited
    input must have every element present in an allow-list; unknown elements
    fail with the first offending element named in the error", the error
    "naming the first offending element's owning field". *)
Definition checkSubset (subset allowed : list string) (name : string)
  : option Error :=
  match find (fun x => negb (bool_decide (x ∈ allowed))) subset with
  | Some x => illegal (name +:+ " contains the unknown element " +:+ x +:+ ".")
  | None => None
  end.

(** Modelled from the spec: _.checkArgument is missing; a condition that does
    not hold fails with the given message. *)
Definition checkArgument (condition : bool) (message : string) : option Error :=
  if condition then None else illegal message.

(** Modelled from the spec: helper.checkString is missing; the value must be
    a string (every parameter of this embedding is one). *)
Definition checkString (obj name : string) : option Error := None.

(** Modelled from the spec: helper.checkStringPopulated is missing; "string
    population / non-empty". *)
Definition checkStringPopulated (obj : option string) (name : string)
  : option Error :=
  match obj with
  | None => illegal (name +:+ " should be defined.")
  | Some s =>
      if strEq (trim s) EmptyString then illegal (name +:+ " should be non-null and non-empty string.")
      else None
  end.

(** Modelled from the spec: helper.validateDate is missing; "value must parse
    under one fixed format string; on failure, error names the field and
    expected format". *)
Definition validateDate (value name format : string) : option Error :=
  match Dates.instant format value with
  | Some _ => None
  | None => illegal (name +:+ " is not a valid date. Expected format is " +:+ format)
  end.

(** Modelled from the spec: helper.checkDates is missing.  The caller passes
    (after, before, "<after> should be earlier than <before>"), and section 8
    requires that message when the After bound is later than the Before bound:
    the check fails, with the message it is given, when its first date is
    later than its second. *)
Definition checkDates (first second message : string) : option Error :=
  match Dates.instant SCHEDULE_DATE_FORMAT first,
        Dates.instant SCHEDULE_DATE_FORMAT second with
  | Some x, Some y => if y <? x then illegal message else None
  | _, _ => None
  end.

(** Modelled from the spec: helper.checkAdmin is missing; "forbidden (caller
    lacks required role)", "unauthenticated (no identifiable caller)". *)
Definition checkAdmin (caller : Caller)
    (unauthorizedMessage forbiddenMessage : string) : option Error :=
  if strEq (accessLevel caller) "admin" then None
  else if strEq (accessLevel caller) "anon"
       then Some (mkError UnauthorizedError unauthorizedMessage)
       else Some (mkError ForbiddenError forbiddenMessage).

(** Modelled from the spec: helper.checkMember is missing; "unauthenticated
    for endpoints requiring a logged-in principal". *)
Definition checkMember (caller : Caller) (message : string)
  : option Error :=
  if strEq (accessLevel caller) "anon"
  then Some (mkError UnauthorizedError message)
  else None.

(** The first occurrence of [marker] in [s] replaced by [by]. *)
Fixpoint replaceFirst (marker by_ s : string) : string :=
  match s with
  | EmptyString => EmptyString
  | String c r =>
      if String.prefix marker s
      then by_ +:+ String.substring (String.length marker)
                     (String.length s - String.length marker) s
      else String c (replaceFirst marker by_ r)
  end.

(** Modelled from the spec: helper.editSql is missing; the value is spliced
    into the marker of the clause and the clause is added to the query. *)
Definition editSql (query filter : string) (content : Value) : string :=
  query +:+ replaceFirst "@filter@" (toText content) filter.

(** Modelled from the spec: helper.getSortColumnDBName and the column name
    map are missing; the storage column is taken to be the case-folded public
    name. *)
Definition getSortColumnDBName (column : string) : string := toLowerCase column.

(** Modelled from the spec: the helper object (api.helper) is missing; its
    members are the definitions above, the query texts are the query names,
    rows are handed to the response as they are. *)
Definition specHelper : Helper :=
  mkHelper
    checkDefined checkMaxNumber checkMaxInt checkPageIndex
    checkPositiveInteger checkNonNegativeInteger checkInteger checkIdParameter
    checkContains checkSortColumn checkSubset checkArgument checkString
    checkStringPopulated validateDate checkDates checkAdmin checkMember
    (* getLowerCaseList *) (map toLowerCase)
    getSortColumnDBName editSql
    (* readQuery *) (fun name => inr name)
    (* transferDBResults2Response *) (fun rows => rows)
    (* ListType.ACTIVE, ListType.UPCOMING *) "ACTIVE" "UPCOMING"
    (* consts.ASCENDING *) "asc"
    (* MAX_INT *) MAX_INT.

End SpecHelper.

(* ------------------------------------------------------------------------- *)
(** ** The environment of the closed examples *)

Module Examples.

(** A stand-in for the moment library: the wall-clock part of the value in
    the store's format (no time zone shift), and the order of two dates of
    the same fixed-width format. *)
Definition moment : Moment :=
  mkMoment
    (fun value zone format =>
       String.substring 0 10 value +:+ " " +:+ String.substring 11 8 value)
    (fun a b => String.ltb a b).

Definition isCountQuery (q : string) : bool :=
  String.prefix "get_srm_challenges_count" q
  || String.prefix "get_srm_schedule_count" q
  || String.prefix "get_practice_problems_count" q.

(** A store that answers every count query with [count] and every other
    statement with [data]. *)
Definition store (count data : list (gmap string Value)) : Store :=
  fun _ q => inr (if isCountQuery (query q) then count else data).

Definition api (count data : list (gmap string Value)) : Api :=
  mkApi SpecHelper.specHelper moment (store count data)
    (fun _ => inr (VNum (Int 4711))) "America/New_York".

Definition totalRow (n : Z) : gmap string Value :=
  {[ "total_count" := VNum (Int n) ]}.

Definition row (id : Z) : gmap string Value :=
  {[ "round_id" := VNum (Int id) ]}.

Definition anonymous : Caller := mkCaller "anon" VUndefined.
Definition member : Caller := mkCaller "member" (VNum (Int 132456)).
Definition admin : Caller := mkCaller "admin" (VNum (Int 132456)).

Definition request (ps : list (string * string)) (who : Caller) : Connection :=
  mkConnection (list_to_map ps) true who.

(** A challenge search sorted by submissionEndDate, without a sort order. *)
Definition sortedBySubmissionEnd : Connection :=
  request [("sortColumn", "submissionEndDate"); ("challengeName", "srm")] member.


(** A challenge search for the first page of two rows. *)
Definition firstPageOfTwo : Connection :=
  request [("pageIndex", "1"); ("pageSize", "2"); ("challengeName", "srm")]
    member.

(** The schedule request of section 8: the After bound of the registration
    start is one month later than its Before bound. *)
Definition misordered : Connection :=
  request [("registrationStartTimeBefore", "2020-01-01T00:00:00.000+0000");
           ("registrationStartTimeAfter", "2020-02-01T00:00:00.000+0000")]
    member.

(** The same request with a page size of 0. *)
Definition misorderedPageOfNone : Connection :=
  request [("registrationStartTimeBefore", "2020-01-01T00:00:00.000+0000");
           ("registrationStartTimeAfter", "2020-02-01T00:00:00.000+0000");
           ("pageSize", "0")]
    member.

(** The same bounds the other way round: After is earlier than Before. *)
Definition ordered : Connection :=
  request [("registrationStartTimeBefore", "2020-02-01T00:00:00.000+0000");
           ("registrationStartTimeAfter", "2020-01-01T00:00:00.000+0000")]
    member.

(** A schedule request with a status outside the allow-list. *)
Definition unknownStatus : Connection := request [("statuses", "f,x")] member.

(** The same request with a page size of 0. *)
Definition unknownStatusPageOfNone : Connection :=
  request [("statuses", "f,x"); ("pageSize", "0")] member.

(** A request for the practice problems with a status outside the allow-list,
    by a caller who is not logged in. *)
Definition unknownStatusAnonymous : Connection :=
  request [("statuses", "new,x")] anonymous.

(** A request for the third page of the practice problems. *)
Definition thirdPage : Connection := request [("pageIndex", "3")] member.


(** A challenge search that gives a page index and nothing else. *)
Definition pageIndexOnly : Connection := request [("pageIndex", "2")] member.

(** The value of the injection scenario of the specification: Bob, a double
    quote, then OR 1=1. *)
Definition injection : string := "Bob" +:+ String quote " OR 1=1".

End Examples.

(* ------------------------------------------------------------------------- *)
(** ** The notions the specification uses *)

(** "Every double quote is part of an adjacent doubled pair": the string is
    made of characters other than the double quote and of pairs of double
    quotes. *)
Inductive allQuotesDoubled : string -> Prop :=
| doubled_end : allQuotesDoubled EmptyString
| doubled_char c s :
    c <> quote -> allQuotesDoubled s -> allQuotesDoubled (String c s)
| doubled_pair s :
    allQuotesDoubled s -> allQuotesDoubled (String quote (String quote s)).

(** "A double quote that is not immediately followed by a second double quote
    acting as an escape": after a prefix whose quotes are all doubled comes a
    double quote that ends the string or is followed by another character. *)
Definition hasUnescapedQuote (s : string) : Prop :=
  exists p t,
    s = p +:+ String quote t
    /\ allQuotesDoubled p
    /\ (t = EmptyString \/ exists c r, t = String c r /\ c <> quote).

(** The error of the embedded-quote check for the field [name]. *)
Definition unescapedQuotes (name : string) : Error :=
  mkError IllegalArgumentError (name +:+ " contains unescaped quotes.").

(** The computation [m] sends only statements that satisfy [P]. *)
Definition emits {A} (P : Statement -> Prop) (m : Async A) : Prop :=
  forall trace, exists new,
    fst (m trace) = (trace ++ new)%list /\ Forall P new.

(** The existence look-ups of the contest validators. *)
Definition isLookup (q : Statement) : Prop :=
  query q ∈ ["get_srm_contest"; "get_group"; "get_season"].

(** [text] occurs in [message]. *)
Definition mentions (text message : string) : Prop :=
  exists before after, message = before +:+ text +:+ after.

(** What the properties below rely on from the helper.  The validators of
    the helper are not among the sources; each property names the behaviour
    it needs as a hypothesis. *)

(** helper.checkSubset rejects a list with an element outside the allow-list
    with an invalid-argument error that names the field. *)
Definition subsetContract (h : Helper) : Prop :=
  forall xs allowed name,
    (exists x, x ∈ xs /\ x ∉ allowed) ->
    exists e,
      checkSubset h xs allowed name = Some e
      /\ kind e = IllegalArgumentError /\ mentions name (message e).

(** helper.checkDates fails, with the message it is given, when its first
    date is a later instant than its second. *)
Definition laterContract (h : Helper) : Prop :=
  forall first second message,
    laterThan first second ->
    checkDates h first second message
    = Some (mkError IllegalArgumentError message).

(** helper.checkDates on two dates of the schedule format: it fails, with the
    message it is given, when the first is a later instant than the second,
    and passes otherwise.  Nothing is asked of it on other texts. *)
Definition orderContract (h : Helper) : Prop :=
  forall first second message x y,
    Dates.instant SCHEDULE_DATE_FORMAT first = Some x ->
    Dates.instant SCHEDULE_DATE_FORMAT second = Some y ->
    checkDates h first second message
    = if y <? x then Some (mkError IllegalArgumentError message) else None.

(** The helper [h] with [check] in the place of its checkDates. *)
Definition withCheckDates (check : string -> string -> string -> option Error)
    (h : Helper) : Helper :=
  mkHelper (checkDefined h) (checkMaxNumber h) (checkMaxInt h)
    (checkPageIndex h) (checkPositiveInteger h) (checkNonNegativeInteger h)
    (checkInteger h) (checkIdParameter h) (checkContains h) (checkSortColumn h)
    (checkSubset h) (checkArgument h) (checkString h) (checkStringPopulated h)
    (validateDate h) check (checkAdmin h) (checkMember h) (getLowerCaseList h)
    (getSortColumnDBName h) (editSql h) (readQuery h)
    (transferDBResults2Response h) (ListType_ACTIVE h) (ListType_UPCOMING h)
    (consts_ASCENDING h) (helper_MAX_INT h).

(** The api [api] with [h] as its helper. *)
Definition withHelper (h : Helper) (api : Api) : Api :=
  mkApi h (moment api) (dataAccess api) (getNextIDFromDb api)
    (databaseTimezoneIdentifier api).

(** The validation of getSRMSchedule finds no error in the request. *)
Definition scheduleAccepts (api : Api) (connection : Connection) : Prop :=
  let ps := params connection in
  fst (scheduleValidate (helper api) ps
         (NumberOr (ps !! "pageIndex") (Int 1))
         (NumberOr (ps !! "pageSize") DEFAULT_PAGE_SIZE)
         (fst (scheduleSort ps)) (snd (scheduleSort ps)))
  = None.

(** The error of the schedule validation before the phase times are
    checked: pagination and sort, then statuses, then types. *)
Definition scheduleHead (helper : Helper) (params : gmap string string)
    (pageIndex pageSize : number) (sortOrder sortColumn : string)
  : option Error :=
  let error :=
    if isDefined (params !! "pageIndex") && negb (strictEq pageIndex (Int (-1)))
    then checkDefined helper (params !! "pageSize") "pageSize"
    else None in
  let error :=
    error
    <||> checkMaxNumber helper pageIndex MAX_INT "pageIndex"
    <||> checkMaxNumber helper pageSize MAX_INT "pageSize"
    <||> checkPageIndex helper pageIndex "pageIndex"
    <||> checkPositiveInteger helper pageSize "pageSize"
    <||> checkContains helper ["asc"; "desc"] sortOrder "sortOrder"
    <||> checkContains helper
           (getLowerCaseList helper ALLOWABLE_SCHEDULE_SORT_COLUMN)
           sortColumn "sortColumn" in
  let error :=
    match params !! "statuses" with
    | Some statuses =>
        error <||> checkSubset helper (split ","%char statuses)
                     VALID_ROUND_STATUS "statuses"
    | None => error
    end in
  match params !! "types" with
  | Some types =>
      error <||> checkSubset helper (split ","%char types)
                   VALID_ROUND_TYPES "types"
  | None => error
  end.

(** One step of checkPhaseTimes. *)
Definition phaseStep (helper : Helper) (params : gmap string string)
    (error : option Error) (phase : string) : option Error :=
  validatePhaseTime error
    (params !! (phase +:+ "Before")) (phase +:+ "Before")
    (params !! (phase +:+ "After")) (phase +:+ "After") helper.

(** One subset check of a validation: the comma-delimited parameter
    [field], when it is present, against [allowed]. *)
Definition subsetStep (helper : Helper) (params : gmap string string)
    (field : string) (allowed : list string) (error : option Error)
  : option Error :=
  match params !! field with
  | Some v => error <||> checkSubset helper (split ","%char v) allowed field
  | None => error
  end.

(** The paging and sort checks at the head of the schedule validation. *)
Definition schedulePaging (helper : Helper) (params : gmap string string)
    (pageIndex pageSize : number) (sortOrder sortColumn : string)
  : option Error :=
  (if isDefined (params !! "pageIndex") && negb (strictEq pageIndex (Int (-1)))
   then checkDefined helper (params !! "pageSize") "pageSize"
   else None)
  <||> checkMaxNumber helper pageIndex MAX_INT "pageIndex"
  <||> checkMaxNumber helper pageSize MAX_INT "pageSize"
  <||> checkPageIndex helper pageIndex "pageIndex"
  <||> checkPositiveInteger helper pageSize "pageSize"
  <||> checkContains helper ["asc"; "desc"] sortOrder "sortOrder"
  <||> checkContains helper
         (getLowerCaseList helper ALLOWABLE_SCHEDULE_SORT_COLUMN)
         sortColumn "sortColumn".

(** The checks of getPracticeProblems other than its subset checks: those
    before them, that of problemName, and those of the two pairs of point
    bounds. *)
Definition practiceHead (helper : Helper) (connection : Connection)
    (pageIndex pageSize : number) (sortColumn sortOrder : string)
  : option Error :=
  checkPageIndex helper pageIndex "pageIndex"
  <||> checkPositiveInteger helper pageSize "pageSize"
  <||> checkMaxInt helper pageSize "pageSize"
  <||> checkContains helper ["asc"; "desc"] (toLowerCase sortOrder) "sortOrder"
  <||> checkSortColumn helper VALID_PRACTICE_PROBLEMS_SORT_COLUMN
         (toLowerCase sortColumn)
  <||> checkMember helper (caller connection)
         "Only logged in user can access to this endpoint.".

Definition practiceName (params : gmap string string) (error : option Error)
  : option Error :=
  match params !! "problemName" with
  | Some problemName =>
      if 32 <? jsLength problemName
      then error <||> Some (mkError IllegalArgumentError
                              "The problemName should less than 32 characters.")
      else error
  | None => error
  end.

Definition practicePoints (helper : Helper) (params : gmap string string)
    (error : option Error) : option Error :=
  if isDefined (params !! "pointsLowerBound")
     || isDefined (params !! "pointsUpperBound")
  then
    let pointsLowerBound := NumberOr (params !! "pointsLowerBound") (Int 0) in
    let pointsUpperBound :=
      NumberOr (params !! "pointsUpperBound") (helper_MAX_INT helper) in
    let error :=
      error
      <||> checkMaxInt helper pointsLowerBound "pointsLowerBound"
      <||> checkNonNegativeInteger helper pointsLowerBound "pointsLowerBound"
      <||> checkPositiveInteger helper pointsUpperBound "pointsUpperBound"
      <||> checkMaxInt helper pointsUpperBound "pointsUpperBound" in
    if gt pointsLowerBound pointsUpperBound
    then error <||> Some (mkError IllegalArgumentError
           "The pointsLowerBound should less than pointsUpperBound or max value of integer.")
    else error
  else error.

Definition practiceMyPoints (helper : Helper) (params : gmap string string)
    (error : option Error) : option Error :=
  if isDefined (params !! "myPointsLowerBound")
     || isDefined (params !! "myPointsUpperBound")
  then
    let myPointsLowerBound := NumberOr (params !! "myPointsLowerBound") (Int 0) in
    let myPointsUpperBound :=
      NumberOr (params !! "myPointsUpperBound") (helper_MAX_INT helper) in
    let error :=
      error
      <||> checkNonNegativeInteger helper myPointsLowerBound "myPointsLowerBound"
      <||> checkMaxInt helper myPointsLowerBound "myPointsLowerBound"
      <||> checkPositiveInteger helper myPointsUpperBound "myPointsUpperBound"
      <||> checkMaxInt helper myPointsUpperBound "myPointsUpperBound" in
    if gt myPointsLowerBound myPointsUpperBound
    then error <||> Some (mkError IllegalArgumentError
           "The myPointsLowerBound should less than myPointsUpperBound or max value of integer.")
    else error
  else error.

(** One task keeps the invariant [I] of the results and of the first error,
    and sends only statements that satisfy [P]. *)
Definition stepOk (P : Statement -> Prop)
    (I : gmap string Value -> option Error -> Prop) (t : Task) : Prop :=
  forall results error trace,
    I results error -> ready results t = true ->
    exists new,
      fst (body t results trace) = (trace ++ new)%list
      /\ Forall P new
      /\ match snd (body t results trace) with
         | Ok (v, results') => I (<[taskName t := v]> results') error
         | Err e => I results (Some (default e error))
         | _ => True
         end.

(** The body of [t] sends only statements that satisfy [P] and leaves the
    results object as it is. *)
Definition keeps (P : Statement -> Prop) (t : Task) : Prop :=
  forall results trace,
    exists new,
      fst (body t results trace) = (trace ++ new)%list
      /\ Forall P new
      /\ match snd (body t results trace) with
         | Ok (v, results') => results' = results
         | _ => True
         end.

(** The text fields that go through the embedded-quote check in the contest
    actions, and in setRoundEvents. *)
Definition CONTEST_TEXT_FIELDS : list string :=
  ["name"; "adText"; "adTask"; "adCommand"].
Definition EVENT_TEXT_FIELDS : list string := ["eventName"; "registrationUrl"].

(** None of the keys [ks] has a result. *)
Definition missing (ks : list string) (results : gmap string Value) : Prop :=
  Forall (fun k => results !! k = None) ks.

(** The statements setRoundEvents sends before its insert. *)
Definition isEventCleanup (q : Statement) : Prop :=
  query q ∈ ["check_round_exist"; "srm_clear_round_events"].

(* ========================================================================= *)
(** * Properties *)

(* ------------------------------------------------------------------------- *)
(** ** Arithmetic on doubles: integers up to 2^53 are exact *)

Section Exactness.

Lemma roundHalfEven_one n : roundHalfEven n 1 = n.
Proof.
  unfold roundHalfEven. rewrite Z.div_1_r, Z.mod_1_r. reflexivity.
Qed.

Lemma norm_pow2 m k : norm (m * 2 ^ Z.of_nat k) k = Int m.
Proof.
  induction k as [|k IH]; simpl norm.
  - rewrite Z.mul_1_r. reflexivity.
  - rewrite Nat2Z.inj_succ, Z.pow_succ_r by lia.
    replace (m * (2 * 2 ^ Z.of_nat k)) with (2 * (m * 2 ^ Z.of_nat k)) by ring.
    rewrite Z.even_mul. simpl.
    replace (2 * (m * 2 ^ Z.of_nat k) / 2) with (m * 2 ^ Z.of_nat k).
    + exact IH.
    + symmetry. rewrite Z.mul_comm. apply Z.div_mul. lia.
Qed.

Lemma floorLog2_one a : 0 < a -> floorLog2 a 1 = Z.log2 a.
Proof.
  intros Ha. unfold floorLog2.
  change (Z.log2 1) with 0. rewrite Z.sub_0_r.
  pose proof (Z.log2_nonneg a) as Hnn.
  destruct (Z.leb_spec 0 (Z.log2 a)) as [_|]; [|lia].
  pose proof (Z.log2_spec a Ha) as [Hlo _].
  destruct (Z.ltb_spec a (1 * 2 ^ Z.log2 a)) as [Hlt|]; [lia|reflexivity].
Qed.

Lemma roundDouble_exact z : Z.abs z <= 2 ^ 53 -> roundDouble z 1 = Int z.
Proof.
  intros Hz. unfold roundDouble.
  destruct (Z.eqb_spec z 0) as [->|Hne]; [reflexivity|].
  assert (Ha : 0 < Z.abs z) by lia.
  rewrite (floorLog2_one _ Ha).
  pose proof (Z.log2_nonneg (Z.abs z)) as Hnn.
  assert (He : Z.log2 (Z.abs z) <= 53).
  { change 53 with (Z.log2 (2 ^ 53)). apply Z.log2_le_mono. exact Hz. }
  rewrite Z.max_l by lia.
  set (e := Z.log2 (Z.abs z)) in *.
  assert (Hs : (if z <? 0 then -1 else 1) * Z.abs z = z).
  { destruct (Z.ltb_spec z 0); lia. }
  destruct (Z.leb_spec 0 (e - 52)) as [Hu|Hu].
  - assert (Hcase : e = 52 \/ e = 53) by lia.
    destruct Hcase as [E|E]; rewrite E.
    + change (52 - 52) with 0. change (1 * 2 ^ 0) with 1.
      rewrite roundHalfEven_one.
      destruct (Z.leb_spec (2 ^ 1024) (Z.abs z * 2 ^ 0)) as [Hbig|_].
      * exfalso. rewrite Z.pow_0_r, Z.mul_1_r in Hbig.
        assert (2 ^ 53 < 2 ^ 1024) by (apply Z.pow_lt_mono_r; lia). lia.
      * f_equal. rewrite Z.pow_0_r, Z.mul_1_r. exact Hs.
    + assert (Hz2 : Z.abs z = 2 ^ 53).
      { pose proof (Z.log2_spec _ Ha) as [Hlo _]. fold e in Hlo.
        rewrite E in Hlo. lia. }
      rewrite Hz2. change (53 - 52) with 1.
      change (roundHalfEven (2 ^ 53) (1 * 2 ^ 1)) with (2 ^ 52).
      change (2 ^ 1024 <=? 2 ^ 52 * 2 ^ 1) with false. cbv iota.
      f_equal. rewrite <- Hs, Hz2.
      destruct (z <? 0); reflexivity.
  - rewrite roundHalfEven_one.
    replace ((if z <? 0 then -1 else 1) * (Z.abs z * 2 ^ (- (e - 52))))
      with (z * 2 ^ Z.of_nat (Z.to_nat (- (e - 52)))).
    + apply norm_pow2.
    + rewrite Z2Nat.id by lia. rewrite <- Hs at 1. ring.
Qed.

Lemma ofZ_exact z : Z.abs z <= 2 ^ 53 -> ofZ z = Int z.
Proof. apply roundDouble_exact. Qed.




End Exactness.

(* ------------------------------------------------------------------------- *)
(** ** The embedded-quote check *)

Section Quotes.

Lemma doubled_quote_inv r :
  allQuotesDoubled (String quote r) ->
  exists r', r = String quote r' /\ allQuotesDoubled r'.
Proof.
  intros H. inversion H as [| c s Hc Hs | s Hs]; subst.
  - congruence.
  - eauto.
Qed.

Lemma eqb_quote c : Ascii.eqb c quote = true <-> c = quote.
Proof. apply Ascii.eqb_eq. Qed.

(** What the loop computes, for both values of [pre]. *)
Lemma scanQuotes_spec s :
  (scanQuotes false s = false <-> allQuotesDoubled s)
  /\ (scanQuotes true s = false <->
      exists r, s = String quote r /\ allQuotesDoubled r).
Proof.
  induction s as [|c s [IHf IHt]]; simpl.
  - split; split; intros H.
    + constructor.
    + reflexivity.
    + discriminate.
    + destruct H as (r & Hr & _). discriminate.
  - destruct (Ascii.eqb c quote) eqn:E.
    + apply eqb_quote in E. subst c. split.
      * rewrite IHt. split.
        -- intros (r & -> & Hr). now constructor.
        -- intros H. now apply doubled_quote_inv in H.
      * rewrite IHf. split.
        -- intros H. eauto.
        -- intros (r & Hr & Hd). now inversion Hr; subst.
    + assert (Hc : c <> quote).
      { intros ->. rewrite Ascii.eqb_refl in E. discriminate. }
      split.
      * rewrite IHf. split.
        -- intros H. now constructor.
        -- intros H. inversion H; subst; [assumption | congruence].
      * split; [discriminate|].
        intros (r & Hr & _). inversion Hr. congruence.
Qed.

Lemma unescaped_not_doubled s : hasUnescapedQuote s -> ~ allQuotesDoubled s.
Proof.
  intros (p & t & -> & Hp & Ht).
  induction Hp as [| c p' Hc Hp' IH | p' Hp' IH]; simpl; intros Hd.
  - apply doubled_quote_inv in Hd as (r' & -> & _).
    destruct Ht as [Ht | (c & r & Ht & Hc)]; [discriminate|].
    inversion Ht. congruence.
  - inversion Hd; subst; [auto | congruence].
  - apply doubled_quote_inv in Hd as (r' & Hr & Hd').
    inversion Hr; subst. auto.
Qed.

Lemma scanQuotes_unescaped s :
  (scanQuotes false s = true -> hasUnescapedQuote s)
  /\ (scanQuotes true s = true ->
      s = EmptyString
      \/ (exists c r, s = String c r /\ c <> quote)
      \/ (exists r, s = String quote r /\ hasUnescapedQuote r)).
Proof.
  induction s as [|c s [IHf IHt]]; simpl.
  - split; [discriminate | auto].
  - destruct (Ascii.eqb c quote) eqn:E.
    + apply eqb_quote in E. subst c. split.
      * intros H. destruct (IHt H) as [-> | [(c & r & -> & Hc) | (r & -> & Hr)]].
        -- exists EmptyString, EmptyString. repeat split; [constructor | auto].
        -- exists EmptyString, (String c r).
           repeat split; [constructor | eauto].
        -- destruct Hr as (p & t & -> & Hp & Ht).
           exists (String quote (String quote p)), t.
           repeat split; [now constructor | assumption].
      * intros H. right. right. exists s. split; [reflexivity | auto].
    + assert (Hc : c <> quote).
      { intros ->. rewrite Ascii.eqb_refl in E. discriminate. }
      split.
      * intros H. destruct (IHf H) as (p & t & -> & Hp & Ht).
        exists (String c p), t. repeat split; [now constructor | assumption].
      * intros _. right. left. eauto.
Qed.

(** The loop returns an error exactly on the strings with an unescaped
    quote. *)
Lemma scanQuotes_iff s : scanQuotes false s = true <-> hasUnescapedQuote s.
Proof.
  split.
  - apply scanQuotes_unescaped.
  - intros H. apply unescaped_not_doubled in H.
    destruct (scanQuotes false s) eqn:E; [reflexivity|].
    exfalso. apply H. now apply scanQuotes_spec.
Qed.

Lemma lone_quote_scanned : scanQuotes false (String quote EmptyString) = true.
Proof. reflexivity. Qed.

Lemma checkIllegalCharacters_rejects obj name :
  hasUnescapedQuote obj ->
  checkIllegalCharacters obj name = Some (unescapedQuotes name).
Proof.
  intros H. apply scanQuotes_iff in H. unfold checkIllegalCharacters.
  rewrite H. now destruct (strEq obj (String quote EmptyString)).
Qed.

Lemma checkIllegalCharacters_accepts obj name :
  ~ hasUnescapedQuote obj -> checkIllegalCharacters obj name = None.
Proof.
  intros H. unfold checkIllegalCharacters.
  destruct (scanQuotes false obj) eqn:E.
  - exfalso. now apply H, scanQuotes_iff.
  - destruct (strEq obj (String quote EmptyString)) eqn:Eq; [|reflexivity].
    apply String.eqb_eq in Eq. subst obj. discriminate.
Qed.

Lemma checkIllegalCharacters_error obj name :
  checkIllegalCharacters obj name <> None -> hasUnescapedQuote obj.
Proof.
  intros H. apply scanQuotes_iff. unfold checkIllegalCharacters in H.
  destruct (strEq obj (String quote EmptyString)) eqn:Eq.
  - apply String.eqb_eq in Eq. now subst obj.
  - destruct (scanQuotes false obj); congruence.
Qed.

End Quotes.

(* ------------------------------------------------------------------------- *)
(** ** Asynchronous steps and async.auto *)

Section AsyncFacts.

Context (P : Statement -> Prop).

Lemma emits_ret {A} (a : A) : emits P (ret a).
Proof. intros trace. exists []. simpl. now rewrite app_nil_r. Qed.

Lemma emits_fail {A} e : emits P (@fail A e).
Proof. intros trace. exists []. simpl. now rewrite app_nil_r. Qed.

Lemma emits_throw {A} x : emits P (@throw A x).
Proof. intros trace. exists []. simpl. now rewrite app_nil_r. Qed.

Lemma emits_check e : emits P (check e).
Proof. destruct e; [apply emits_fail | apply emits_ret]. Qed.

Lemma emits_bind {A B} (m : Async A) (k : A -> Async B) :
  emits P m -> (forall a, emits P (k a)) -> emits P (bind m k).
Proof.
  intros Hm Hk trace. unfold bind.
  destruct (Hm trace) as (n1 & E1 & F1).
  destruct (m trace) as [t1 [a|e|x|]] eqn:Em; simpl in E1; subst t1;
    try (exists n1; now split).
  destruct (Hk a (trace ++ n1)%list) as (n2 & E2 & F2).
  exists (n1 ++ n2)%list. rewrite E2, app_assoc. split; [reflexivity|].
  now apply Forall_app.
Qed.

Lemma emits_executeQuery store name args :
  P (mkStatement name args) -> emits P (executeQuery store name args).
Proof.
  intros H trace. exists [mkStatement name args]. split; [reflexivity|].
  now constructor.
Qed.

Lemma emits_parallel {A B} (a : Async A) (b : Async B) :
  emits P a -> emits P b -> emits P (parallel a b).
Proof.
  intros Ha Hb trace. unfold parallel.
  destruct (Ha trace) as (n1 & E1 & F1).
  destruct (a trace) as [t1 ra]. simpl in E1. subst t1.
  destruct (Hb (trace ++ n1)%list) as (n2 & E2 & F2).
  destruct (b (trace ++ n1)%list) as [t2 rb]. simpl in E2. subst t2.
  exists (n1 ++ n2)%list. simpl. rewrite app_assoc. split; [reflexivity|].
  now apply Forall_app.
Qed.

Context (I : gmap string Value -> option Error -> Prop).

(** A task made with [task] leaves the results as they are. *)
Lemma stepOk_task name deps (f : gmap string Value -> Async Value) :
  (forall results error,
      I results error -> ready results (task name deps f) = true ->
      emits P (f results)
      /\ forall trace,
           match snd (f results trace) with
           | Ok v => I (<[name := v]> results) error
           | Err e => I results (Some (default e error))
           | _ => True
           end) ->
  stepOk P I (task name deps f).
Proof.
  intros H results error trace HI Hready.
  destruct (H results error HI Hready) as [Hemit Hres].
  destruct (Hemit trace) as (new & E & F). specialize (Hres trace).
  exists new. simpl. unfold bind.
  destruct (f results trace) as [t' [v|e|x|]]; simpl in *; auto.
Qed.

(** A task that is never ready keeps every invariant. *)
Lemma stepOk_blocked t :
  (forall results error, I results error -> ready results t = false) ->
  stepOk P I t.
Proof.
  intros H results error trace HI Hready.
  rewrite (H results error HI) in Hready. discriminate.
Qed.

Lemma autoLoop_inv tasks :
  Forall (stepOk P I) tasks ->
  forall results error trace,
    I results error ->
    exists new,
      fst (autoLoop tasks (results, error) trace) = (trace ++ new)%list
      /\ Forall P new
      /\ match snd (autoLoop tasks (results, error) trace) with
         | Ok st => I (fst st) (snd st)
         | Err _ => False
         | _ => True
         end.
Proof.
  induction 1 as [|t tasks Ht _ IH]; intros results error trace HI.
  - exists []. simpl. rewrite app_nil_r. auto.
  - cbn [autoLoop]. unfold bind, autoStep.
    destruct (ready results t) eqn:Hready.
    + destruct (Ht results error trace HI Hready) as (n1 & E1 & F1 & H1).
      destruct (body t results trace) as [t1 [[v results']|e|x|]];
        simpl in E1, H1; subst t1;
        try (exists n1; simpl; now auto).
      * destruct (IH _ _ (trace ++ n1)%list H1) as (n2 & E2 & F2 & H2).
        exists (n1 ++ n2)%list. rewrite app_assoc.
        split; [exact E2|]. split; [now apply Forall_app | exact H2].
      * destruct (IH _ _ (trace ++ n1)%list H1) as (n2 & E2 & F2 & H2).
        exists (n1 ++ n2)%list. rewrite app_assoc.
        split; [exact E2|]. split; [now apply Forall_app | exact H2].
    + simpl. apply IH, HI.
Qed.

(** async.auto: the invariant holds of the results handed on, and every task
    has a result then. *)
Lemma auto_inv tasks :
  Forall (stepOk P I) tasks ->
  I ∅ None ->
  forall trace,
    exists new,
      fst (auto tasks trace) = (trace ++ new)%list
      /\ Forall P new
      /\ match snd (auto tasks trace) with
         | Ok results =>
             I results None
             /\ Forall (fun t => is_Some (results !! taskName t)) tasks
         | _ => True
         end.
Proof.
  intros Hsteps H0 trace. unfold auto, bind.
  destruct (autoLoop_inv tasks Hsteps ∅ None trace H0) as (new & E & F & H).
  destruct (autoLoop tasks (∅, None) trace) as [t' [[results error]|e|x|]];
    simpl in E, H; subst t'; try (exists new; simpl; now auto).
  exists new. simpl. destruct error as [e|]; simpl; [auto|].
  destruct (forallb _ tasks) eqn:Hall; simpl; [|auto].
  split; [reflexivity|]. split; [assumption|]. split; [assumption|].
  apply Forall_forall. intros t Ht.
  rewrite forallb_forall in Hall.
  apply list_elem_of_In in Ht.
  specialize (Hall t Ht). now apply bool_decide_eq_true in Hall.
Qed.

End AsyncFacts.

(* ------------------------------------------------------------------------- *)
(** ** The validators of the contest arguments *)

Ltac in_list := apply (bool_decide_unpack _); vm_compute; exact I.

Ltac emits_step :=
  first
    [ apply emits_ret | apply emits_fail | apply emits_throw | apply emits_check
    | apply emits_bind; [| intros ?]
    | apply emits_executeQuery; unfold isLookup, isEventCleanup; cbn [query];
      in_list
    | match goal with
      | |- emits _ (match ?x with _ => _ end) => destruct x
      | |- emits _ (if ?b then _ else _) => destruct b
      end ].

Section Validators.

Context (api : Api) (connection : Connection).

Lemma keeps_task P name deps (f : gmap string Value -> Async Value) :
  (forall results, emits P (f results)) -> keeps P (task name deps f).
Proof.
  intros H results trace. destruct (H results trace) as (new & E & F).
  exists new. simpl. unfold bind.
  destruct (f results trace) as [t' [v|e|x|]]; simpl in *; auto.
Qed.

Lemma orErr_some_r a b : b <> None -> a <||> b <> None.
Proof. destruct a; simpl; congruence. Qed.

Lemma orErr_none a b : a <||> b = None -> a = None /\ b = None.
Proof. destruct a; simpl; [discriminate | auto]. Qed.

Lemma validators_keep : Forall (keeps isLookup) (validators api connection).
Proof.
  unfold validators.
  repeat (apply List.Forall_cons;
          [ apply keeps_task; intros results;
            unfold textValidator, dateValidator, endDateValidator;
            cbv zeta; repeat emits_step | ]).
  apply List.Forall_nil.
Qed.

Lemma validatorOf_name all name : taskName (validatorOf all name) = name.
Proof.
  unfold validatorOf. destruct (find _ all) as [t|] eqn:E; [|reflexivity].
  apply find_some in E as [_ E]. now apply String.eqb_eq in E.
Qed.

Lemma validatorOf_keeps name :
  keeps isLookup (validatorOf (validators api connection) name).
Proof.
  unfold validatorOf.
  destruct (find _ (validators api connection)) as [t|] eqn:E.
  - apply find_some in E as [E _].
    pose proof validators_keep as H. rewrite Forall_forall in H.
    apply H. now apply list_elem_of_In.
  - intros results trace. exists []. simpl. rewrite app_nil_r. auto.
Qed.

(** A text field with an unescaped quote never gets a result. *)
Lemma text_validator_rejects field v results trace :
  field ∈ CONTEST_TEXT_FIELDS ->
  params connection !! field = Some v ->
  hasUnescapedQuote v ->
  forall r,
    snd (body (validatorOf (validators api connection) field) results trace)
    <> Ok r.
Proof.
  intros Hf Hv Hq r.
  pose proof (checkIllegalCharacters_rejects v field Hq) as Hc.
  unfold CONTEST_TEXT_FIELDS in Hf.
  repeat (apply elem_of_cons in Hf as [->|Hf]); [| | | |now apply elem_of_nil in Hf];
    cbn; unfold textValidator, bind; rewrite Hv.
  - destruct (checkStringPopulated _ _ _); [discriminate|].
    rewrite Hc. destruct (checkExceedsLength v 50 "name"); discriminate.
  - rewrite Hc.
    destruct (checkString _ _ _); [discriminate|].
    destruct (checkExceedsLength v 250 "adText"); discriminate.
  - rewrite Hc.
    destruct (checkString _ _ _); [discriminate|].
    destruct (checkExceedsLength v 30 "adTask"); discriminate.
  - rewrite Hc.
    destruct (checkString _ _ _); [discriminate|].
    destruct (checkExceedsLength v 30 "adCommand"); discriminate.
Qed.

Lemma objectKeys_elem keys : forall seen k,
  k ∈ keys -> k ∉ seen -> k ∈ objectKeys seen keys.
Proof.
  induction keys as [|x keys IH]; intros seen k Hk Hs.
  - now apply elem_of_nil in Hk.
  - simpl. destruct (decide (k = x)) as [->|Hne].
    + rewrite bool_decide_eq_false_2 by assumption. apply list_elem_of_here.
    + apply elem_of_cons in Hk as [?|Hk]; [contradiction|].
      destruct (bool_decide (x ∈ seen)).
      * now apply IH.
      * apply list_elem_of_further. apply IH; [assumption|].
        intros H. apply elem_of_cons in H as [?|?]; contradiction.
Qed.

Lemma ready_false results t d :
  d ∈ requires t -> results !! d = None -> ready results t = false.
Proof.
  intros Hd Hr. unfold ready.
  destruct (forallb _ (requires t)) eqn:E; [|reflexivity].
  rewrite forallb_forall in E. apply list_elem_of_In in Hd.
  specialize (E d Hd). apply bool_decide_eq_true in E.
  rewrite Hr in E. now destruct E.
Qed.

(** The step of validateAndPrepareSRMContestApiArguments sends look-ups only,
    and hands nothing on when a text field has an unescaped quote. *)
Lemma prepare_rejects args field v :
  field ∈ CONTEST_TEXT_FIELDS ->
  field ∈ args ->
  params connection !! field = Some v ->
  hasUnescapedQuote v ->
  forall trace,
    exists new,
      fst (validateAndPrepareSRMContestApiArguments args api connection trace)
      = (trace ++ new)%list
      /\ Forall isLookup new
      /\ forall r,
           snd (validateAndPrepareSRMContestApiArguments args api connection trace)
           <> Ok r.
Proof.
  intros Hf Ha Hv Hq trace. unfold validateAndPrepareSRMContestApiArguments.
  set (all := validators api connection).
  set (tasks := (map (validatorOf all) (objectKeys [] args) ++ _)%list).
  assert (Hsteps : Forall (stepOk isLookup (fun results _ => results !! field = None)) tasks).
  { apply Forall_app. split.
    - apply Forall_forall. intros t Ht.
      apply list_elem_of_fmap in Ht as (name & -> & _).
      intros results error tr HI _.
      destruct (validatorOf_keeps name results tr) as (new & E & F & K).
      exists new. split; [exact E|]. split; [exact F|].
      pose proof (text_validator_rejects field v results tr Hf Hv Hq) as Hrej.
      fold all in Hrej, K |- *.
      destruct (snd (body (validatorOf all name) results tr))
        as [[w results']|e|x|] eqn:Es; auto.
      subst results'. rewrite validatorOf_name.
      destruct (decide (name = field)) as [->|Hne].
      + exfalso. now apply (Hrej (w, results)).
      + now rewrite lookup_insert_ne.
    - apply List.Forall_cons; [|apply List.Forall_nil].
      apply stepOk_blocked. intros results error HI.
      now apply (ready_false results _ field). }
  destruct (auto_inv isLookup _ tasks Hsteps (lookup_empty field) trace)
    as (new & E & F & H).
  exists new. split; [exact E|]. split; [exact F|].
  intros r Hr. rewrite Hr in H. destruct H as [HI Hall].
  rewrite Forall_forall in Hall.
  assert (Hin : validatorOf all field ∈ tasks).
  { apply elem_of_app. left. apply list_elem_of_fmap. exists field.
    split; [reflexivity|]. apply objectKeys_elem; [assumption|].
    apply not_elem_of_nil. }
  specialize (Hall _ Hin). rewrite validatorOf_name, HI in Hall.
  now destruct Hall.
Qed.

End Validators.

(* ------------------------------------------------------------------------- *)
(** ** Tasks that never get a result block what requires them *)

Section Blocked.

Context (P : Statement -> Prop) (ks : list string).

Let I : gmap string Value -> option Error -> Prop :=
  fun results _ => missing ks results.

Lemma missing_insert k v results :
  k ∉ ks -> missing ks results -> missing ks (<[k := v]> results).
Proof.
  unfold missing. intros Hk H. rewrite Forall_forall in *.
  intros x Hx. rewrite lookup_insert_ne; [now apply H|].
  intros ->. contradiction.
Qed.

Lemma stepOk_other name deps (f : gmap string Value -> Async Value) :
  name ∉ ks -> (forall results, emits P (f results)) ->
  stepOk P I (task name deps f).
Proof.
  intros Hk Hf. apply stepOk_task. intros results error HI _.
  split; [apply Hf|]. intros trace.
  destruct (snd (f results trace)); auto. now apply missing_insert.
Qed.

Lemma stepOk_fails name deps (f : gmap string Value -> Async Value) :
  (forall results, emits P (f results)) ->
  (forall results trace v, snd (f results trace) <> Ok v) ->
  stepOk P I (task name deps f).
Proof.
  intros Hf Hno. apply stepOk_task. intros results error HI _.
  split; [apply Hf|]. intros trace.
  destruct (snd (f results trace)) eqn:E; auto. now apply Hno in E.
Qed.

Lemma stepOk_requires t d :
  d ∈ requires t -> d ∈ ks -> stepOk P I t.
Proof.
  intros Hd Hk. apply stepOk_blocked. intros results error HI.
  apply (ready_false results t d Hd).
  unfold I, missing in HI. rewrite Forall_forall in HI. now apply HI.
Qed.

(** async.auto hands nothing on when one of its tasks never gets a result. *)
Lemma auto_blocked tasks t :
  Forall (stepOk P I) tasks ->
  t ∈ tasks -> taskName t ∈ ks ->
  forall trace,
    exists new,
      fst (auto tasks trace) = (trace ++ new)%list
      /\ Forall P new
      /\ forall r, snd (auto tasks trace) <> Ok r.
Proof.
  intros Hsteps Ht Hk trace.
  assert (H0 : I ∅ None).
  { unfold I, missing. apply Forall_forall. intros k _. apply lookup_empty. }
  destruct (auto_inv P I tasks Hsteps H0 trace) as (new & E & F & H).
  exists new. split; [exact E|]. split; [exact F|].
  intros r Hr. rewrite Hr in H. destruct H as [HI Hall].
  rewrite Forall_forall in Hall. specialize (Hall t Ht).
  unfold I, missing in HI. rewrite Forall_forall in HI.
  rewrite (HI _ Hk) in Hall. now destruct Hall.
Qed.

(** An action whose tasks hand nothing on gives no response. *)
Lemma finish_blocked {A R} (m : Async A) (k : A -> Async R) trace o :
  (exists new,
      fst (m []) = ([] ++ new)%list /\ Forall P new
      /\ forall r, snd (m []) <> Ok r) ->
  finish (bind m k) = (trace, o) ->
  Forall P trace /\ forall r, o <> Response r.
Proof.
  intros (new & E & F & Hno) Hrun. unfold finish, bind in Hrun.
  destruct (m []) as [t' [a|e|x|]]; simpl in E, Hno; subst t';
    [now contradiction (Hno a) | | |];
    inversion Hrun; subst; (split; [assumption | discriminate]).
Qed.

End Blocked.

(* ------------------------------------------------------------------------- *)
(** ** A rejected text never reaches a composed statement *)

Section Gate.

Context (api : Api) (connection : Connection).

Lemma prepare_emits args field v :
  field ∈ CONTEST_TEXT_FIELDS -> field ∈ args ->
  params connection !! field = Some v -> hasUnescapedQuote v ->
  emits isLookup (validateAndPrepareSRMContestApiArguments args api connection).
Proof.
  intros Hf Ha Hv Hq trace.
  destruct (prepare_rejects api connection args field v Hf Ha Hv Hq trace)
    as (new & E & F & _).
  eauto.
Qed.

Lemma prepare_step_fails args field v trace w :
  field ∈ CONTEST_TEXT_FIELDS -> field ∈ args ->
  params connection !! field = Some v -> hasUnescapedQuote v ->
  snd ((r <- validateAndPrepareSRMContestApiArguments args api connection ;;
        ret (VObj r)) trace) <> Ok w.
Proof.
  intros Hf Ha Hv Hq.
  destruct (prepare_rejects api connection args field v Hf Ha Hv Hq trace)
    as (new & _ & _ & Hno).
  unfold bind.
  destruct (validateAndPrepareSRMContestApiArguments args api connection trace)
    as [t' [r|e|x|]]; simpl in *; try discriminate.
  now contradiction (Hno r).
Qed.

Lemma contest_field_in_create field :
  field ∈ CONTEST_TEXT_FIELDS -> field ∈ CREATE_ARGS.
Proof.
  intros H. unfold CONTEST_TEXT_FIELDS in H.
  repeat (apply elem_of_cons in H as [->|H]); try in_list.
  now apply elem_of_nil in H.
Qed.

Lemma contest_field_in_update field :
  field ∈ CONTEST_TEXT_FIELDS -> field ∈ UPDATE_ARGS.
Proof.
  intros H. unfold CONTEST_TEXT_FIELDS in H.
  repeat (apply elem_of_cons in H as [->|H]); try in_list.
  now apply elem_of_nil in H.
Qed.

(** createSRMContest: only look-ups are sent, and there is no response. *)
Lemma create_gate field v trace o :
  field ∈ CONTEST_TEXT_FIELDS ->
  params connection !! field = Some v -> hasUnescapedQuote v ->
  createSRMContest api connection = (trace, o) ->
  Forall isLookup trace /\ forall r, o <> Response r.
Proof.
  intros Hf Hv Hq. unfold createSRMContest.
  pose proof (contest_field_in_create field Hf) as Ha.
  apply finish_blocked.
  eapply (auto_blocked isLookup ["common"; "generateContestId"]).
  - repeat apply List.Forall_cons; [| | | | apply List.Forall_nil].
    + unfold adminTask. apply stepOk_other; [in_list|].
      intros results. repeat emits_step.
    + apply stepOk_fails.
      * intros results. apply emits_bind; [|intros ?; apply emits_ret].
        now apply (prepare_emits CREATE_ARGS field v).
      * intros results tr w. now apply (prepare_step_fails CREATE_ARGS field v).
    + apply (stepOk_requires _ _ _ "common"); in_list.
    + apply (stepOk_requires _ _ _ "generateContestId"); in_list.
  - apply list_elem_of_further, list_elem_of_here.
  - cbn. in_list.
Qed.

(** updateSRMContest: only look-ups are sent, and there is no response. *)
Lemma update_gate field v trace o :
  field ∈ CONTEST_TEXT_FIELDS ->
  params connection !! field = Some v -> hasUnescapedQuote v ->
  updateSRMContest api connection = (trace, o) ->
  Forall isLookup trace /\ forall r, o <> Response r.
Proof.
  intros Hf Hv Hq. unfold updateSRMContest.
  pose proof (contest_field_in_update field Hf) as Ha.
  apply finish_blocked.
  eapply (auto_blocked isLookup ["validate"; "updateContestId"]).
  - repeat apply List.Forall_cons; [| | | | apply List.Forall_nil].
    + unfold adminTask. apply stepOk_other; [in_list|].
      intros results. repeat emits_step.
    + apply stepOk_fails.
      * intros results. apply emits_bind; [|intros ?; apply emits_ret].
        now apply (prepare_emits UPDATE_ARGS field v).
      * intros results tr w. now apply (prepare_step_fails UPDATE_ARGS field v).
    + apply (stepOk_requires _ _ _ "validate"); in_list.
    + apply (stepOk_requires _ _ _ "updateContestId"); in_list.
  - apply list_elem_of_further, list_elem_of_here.
  - cbn. in_list.
Qed.

Lemma event_text_rejects field limit v trace w :
  params connection !! field = Some v -> hasUnescapedQuote v ->
  snd (match params connection !! field with
       | None => ret VNull
       | Some text =>
           _ <- check (checkStringPopulated (helper api) (Some text) field
                       <||> checkMaxNumber (helper api) (ofZ (jsLength text))
                              limit ("Length of " +:+ field)
                       <||> checkIllegalCharacters text field) ;;
           ret (VStr text)
       end trace) <> Ok w.
Proof.
  intros Hv Hq. rewrite Hv.
  rewrite (checkIllegalCharacters_rejects v field Hq). unfold bind.
  destruct (checkStringPopulated _ _ _); [discriminate|].
  destruct (checkMaxNumber _ _ _ _); discriminate.
Qed.

(** setRoundEvents: the insert is never sent, and there is no response. *)
Lemma events_gate field v trace o :
  field ∈ EVENT_TEXT_FIELDS ->
  params connection !! field = Some v -> hasUnescapedQuote v ->
  setRoundEvents api connection = (trace, o) ->
  Forall isEventCleanup trace /\ forall r, o <> Response r.
Proof.
  intros Hf Hv Hq. unfold setRoundEvents.
  apply finish_blocked.
  unfold EVENT_TEXT_FIELDS in Hf.
  repeat (apply elem_of_cons in Hf as [->|Hf]); [| |now apply elem_of_nil in Hf].
  - eapply (auto_blocked isEventCleanup ["eventName"; "sqlParams"]).
    + unfold adminTask, idTask, eventTextTask.
      repeat apply List.Forall_cons; [| | | | | | | | | apply List.Forall_nil];
        try solve [apply stepOk_other;
                   [in_list | intros results; cbv zeta;
                              unfold round_exist_is_zero; repeat emits_step]].
      * apply stepOk_fails; [intros results; repeat emits_step|].
        intros results tr w. now apply (event_text_rejects "eventName" _ v).
      * apply (stepOk_requires _ _ _ "eventName"); in_list.
      * apply (stepOk_requires _ _ _ "sqlParams"); in_list.
    + do 4 apply list_elem_of_further. apply list_elem_of_here.
    + cbn. in_list.
  - eapply (auto_blocked isEventCleanup ["registrationUrl"; "sqlParams"]).
    + unfold adminTask, idTask, eventTextTask.
      repeat apply List.Forall_cons; [| | | | | | | | | apply List.Forall_nil];
        try solve [apply stepOk_other;
                   [in_list | intros results; cbv zeta;
                              unfold round_exist_is_zero; repeat emits_step]].
      * apply stepOk_fails; [intros results; repeat emits_step|].
        intros results tr w. now apply (event_text_rejects "registrationUrl" _ v).
      * apply (stepOk_requires _ _ _ "registrationUrl"); in_list.
      * apply (stepOk_requires _ _ _ "sqlParams"); in_list.
    + do 5 apply list_elem_of_further. apply list_elem_of_here.
    + cbn. in_list.
Qed.

End Gate.

(* ------------------------------------------------------------------------- *)
(** ** C1: the embedded-quote check and what it guards *)

(** C1.  checkIllegalCharacters returns its error exactly on the strings that
    contain a double quote not followed by a second, escaping, double quote
    (a trailing lone quote and the string made of one double quote included),
    and returns null on every string whose double quotes all belong to
    doubled pairs.  A value of name, adText, adTask, adCommand, eventName or
    registrationUrl on which it returns an error never reaches a composed
    statement: createSRMContest and updateSRMContest then send nothing but
    their existence look-ups, setRoundEvents never sends its insert, and none
    of them answers with a response. *)
Theorem embedded_quote_check (obj name : string) :
  (checkIllegalCharacters obj name = Some (unescapedQuotes name)
   <-> hasUnescapedQuote obj)
  /\ (checkIllegalCharacters obj name = None <-> ~ hasUnescapedQuote obj)
  /\ (allQuotesDoubled obj -> checkIllegalCharacters obj name = None)
  /\ (forall p, obj = p +:+ String quote EmptyString -> allQuotesDoubled p ->
      checkIllegalCharacters obj name = Some (unescapedQuotes name))
  /\ (obj = String quote EmptyString ->
      checkIllegalCharacters obj name = Some (unescapedQuotes name))
  /\ (forall api connection,
        params connection !! name = Some obj ->
        checkIllegalCharacters obj name <> None ->
        (name ∈ CONTEST_TEXT_FIELDS ->
         forall trace o,
           createSRMContest api connection = (trace, o)
           \/ updateSRMContest api connection = (trace, o) ->
           Forall isLookup trace /\ forall r, o <> Response r)
        /\ (name ∈ EVENT_TEXT_FIELDS ->
            forall trace o,
              setRoundEvents api connection = (trace, o) ->
              Forall isEventCleanup trace /\ forall r, o <> Response r)).
Proof.
  assert (Hiff : checkIllegalCharacters obj name = Some (unescapedQuotes name)
                 <-> hasUnescapedQuote obj).
  { split.
    - intros H. apply (checkIllegalCharacters_error obj name). congruence.
    - apply checkIllegalCharacters_rejects. }
  split; [exact Hiff|]. split; [|split; [|split; [|split]]].
  - split.
    + intros H Hq. apply Hiff in Hq. congruence.
    + apply checkIllegalCharacters_accepts.
  - intros Hd. apply checkIllegalCharacters_accepts.
    intros Hq. now apply unescaped_not_doubled in Hq.
  - intros p -> Hp. apply checkIllegalCharacters_rejects.
    exists p, EmptyString. auto.
  - intros ->. reflexivity.
  - intros api connection Hv Herr.
    apply checkIllegalCharacters_error in Herr. split.
    + intros Hf trace o [Hrun|Hrun].
      * exact (create_gate api connection name obj trace o Hf Hv Herr Hrun).
      * exact (update_gate api connection name obj trace o Hf Hv Herr Hrun).
    + intros Hf trace o Hrun.
      exact (events_gate api connection name obj trace o Hf Hv Herr Hrun).
Qed.

Lemma embedded_quote_check_witness :
  checkIllegalCharacters Examples.injection "name" = Some (unescapedQuotes "name")
  /\ hasUnescapedQuote Examples.injection
  /\ forall r,
       snd (updateSRMContest (Examples.api [] [Examples.row 1])
              (Examples.request
                 [("id", "5"); ("contestId", "5"); ("name", Examples.injection)]
                 Examples.admin))
       <> Response r.
Proof.
  pose proof (embedded_quote_check Examples.injection "name")
    as (Hiff & _ & _ & _ & _ & Hgate).
  split; [reflexivity|]. split; [apply Hiff; reflexivity|].
  specialize (Hgate (Examples.api [] [Examples.row 1])
                (Examples.request
                   [("id", "5"); ("contestId", "5"); ("name", Examples.injection)]
                   Examples.admin)).
  destruct Hgate as [Hcontest _]; [reflexivity | discriminate |].
  intros r.
  destruct (updateSRMContest _ _) as [trace o] eqn:Hrun.
  apply (Hcontest ltac:(in_list) trace o). now right.
Defined.

(* ------------------------------------------------------------------------- *)
(** ** What an accepted list request has done *)

Section Accepted.

Context (api : Api) (connection : Connection).

(** The envelope, by cases on the rows of the data statement. *)
Lemma pagedResult_ok rowOf ps pageIndex pageSize count data trace trace' env :
  pagedResult rowOf ps pageIndex pageSize count data trace = (trace', Ok env) ->
  trace' = trace
  /\ ((data = []
       /\ env = Envelope.mk (VNum (Int 0)) pageIndex
                  (if strictEq (NumberOf (ps !! "pageIndex")) (Int (-1))
                   then VNum (Int 0) else VNum pageSize) [])
      \/ (data <> []
          /\ exists row rest,
               count = row :: rest
               /\ env = Envelope.mk (prop row "total_count") pageIndex
                          (if strictEq (NumberOf (ps !! "pageIndex")) (Int (-1))
                           then prop row "total_count" else VNum pageSize)
                          (map rowOf data))).
Proof.
  unfold pagedResult. destruct data as [|d data]; simpl.
  - intros H. inversion H. auto.
  - destruct count as [|row rest]; simpl; [discriminate|].
    unfold bind. simpl. intros H. inversion H. split; [reflexivity|].
    right. split; [discriminate|]. eauto.
Qed.

Lemma search_accepted trace env :
  searchSRMChallenges api connection = (trace, Response env) ->
  let ps := params connection in
  let pageIndex := NumberOr (ps !! "pageIndex") (Int 1) in
  let pageSize := NumberOr (ps !! "pageSize") DEFAULT_PAGE_SIZE in
  let window := pageWindow pageIndex pageSize in
  exists challengeName status count data,
    let sp :=
      searchSqlParams (helper api) (fst window) (snd window)
        (snd (searchSort ps)) (fst (searchSort ps)) challengeName status in
    let qc := mkStatement "get_srm_challenges_count" sp in
    let qd := mkStatement "get_srm_challenges" sp in
    trace = [qc; qd]
    /\ dataAccess api [] qc = inr count
    /\ dataAccess api [qc] qd = inr data
    /\ pagedResult challengeOfRow ps (fst window) (snd window) count data trace
       = (trace, Ok env).
Proof.
  unfold searchSRMChallenges.
  destruct (dbConnectionMap connection); simpl; [|discriminate].
  destruct (searchSort (params connection)) as [sortOrder sortColumn].
  destruct (params connection !! "challengeName") as [name|]; [|discriminate].
  cbv zeta. unfold finish, bind.
  destruct (searchValidate _ _ _ _ _ _ _ _); simpl; [discriminate|].
  unfold parallel, executeQuery. simpl.
  match goal with
  | |- context [dataAccess api [] ?q] =>
      destruct (dataAccess api [] q) as [e|count] eqn:Ec
  end; simpl;
    [match goal with
     | |- context [dataAccess api [?a] ?q] => destruct (dataAccess api [a] q)
     | _ => idtac
     end; discriminate|].
  match goal with
  | |- context [dataAccess api [?a] ?q] =>
      destruct (dataAccess api [a] q) as [e|data] eqn:Ed
  end; simpl; [discriminate|].
  match goal with
  | |- context [pagedResult ?f ?p ?i ?s ?c ?d ?t] =>
      destruct (pagedResult f p i s c d t) as [t' [r|e|x|]] eqn:Ep
  end; try discriminate.
  intros H. inversion H; subst.
  pose proof (pagedResult_ok _ _ _ _ _ _ _ _ _ Ep) as [-> _].
  eexists _, _, count, data. simpl. repeat split; eassumption.
Qed.

Lemma schedule_accepted trace env :
  getSRMSchedule api connection = (trace, Response env) ->
  let ps := params connection in
  let pageIndex := NumberOr (ps !! "pageIndex") (Int 1) in
  let pageSize := NumberOr (ps !! "pageSize") DEFAULT_PAGE_SIZE in
  let window := pageWindow pageIndex pageSize in
  let sort := scheduleSort ps in
  let validated :=
    scheduleValidate (helper api) ps pageIndex pageSize (fst sort) (snd sort) in
  exists text_data text_count count data,
    let sp :=
      scheduleSqlParams (helper api) (fst window) (snd window)
        (snd sort) (fst sort) in
    let qd := mkStatement text_data sp in
    let qc := mkStatement text_count sp in
    fst validated = None
    /\ trace = [qd; qc]
    /\ dataAccess api [] qd = inr data
    /\ dataAccess api [qd] qc = inr count
    /\ pagedResult scheduleOfRow (snd validated) (fst window) (snd window)
         count data trace
       = (trace, Ok env).
Proof.
  unfold getSRMSchedule.
  destruct (dbConnectionMap connection); simpl; [|discriminate].
  destruct (scheduleSort (params connection)) as [sortOrder sortColumn].
  cbv zeta. unfold finish, bind. simpl.
  destruct (fst (scheduleValidate _ _ _ _ _ _)) eqn:Ev; simpl; [discriminate|].
  unfold parallel, readQueryStep.
  destruct (readQuery (helper api) "get_srm_schedule") as [e|td]; simpl;
    [destruct (readQuery (helper api) "get_srm_schedule_count"); discriminate|].
  destruct (readQuery (helper api) "get_srm_schedule_count") as [e|tc]; simpl;
    [discriminate|].
  unfold executeQuery. simpl.
  match goal with
  | |- context [dataAccess api [] ?q] =>
      destruct (dataAccess api [] q) as [e|data] eqn:Ed
  end; simpl;
    [match goal with
     | |- context [dataAccess api [?a] ?q] => destruct (dataAccess api [a] q)
     | _ => idtac
     end; discriminate|].
  match goal with
  | |- context [dataAccess api [?a] ?q] =>
      destruct (dataAccess api [a] q) as [e|count] eqn:Ec
  end; simpl; [discriminate|].
  match goal with
  | |- context [pagedResult ?f ?p ?i ?s ?c ?d ?t] =>
      destruct (pagedResult f p i s c d t) as [t' [r|e|x|]] eqn:Ep
  end; try discriminate.
  intros H. inversion H; subst.
  pose proof (pagedResult_ok _ _ _ _ _ _ _ _ _ Ep) as [-> _].
  eexists _, _, count, data. simpl. repeat split; eassumption.
Qed.

Lemma practice_accepted trace env :
  getPracticeProblems api connection = (trace, Response env) ->
  let ps := params connection in
  let pageIndex := NumberOr (ps !! "pageIndex") (Int 1) in
  let pageSize := NumberOr (ps !! "pageSize") (Int 10) in
  exists qd qc row rest data,
    trace = [qd; qc]
    /\ dataAccess api [] qd = inr data
    /\ dataAccess api [qd] qc = inr (row :: rest)
    /\ env = Envelope.mk (prop row "total_count") pageIndex (VNum pageSize)
               (transferDBResults2Response (helper api) data).
Proof.
  unfold getPracticeProblems.
  destruct (dbConnectionMap connection); simpl; [|discriminate].
  unfold finish, bind. simpl.
  destruct (practiceValidate _ _ _ _ _ _); simpl; [discriminate|].
  unfold parallel, readQueryStep.
  destruct (readQuery (helper api) "get_practice_problems") as [e|td]; simpl;
    [destruct (readQuery (helper api) "get_practice_problems_count");
     discriminate|].
  destruct (readQuery (helper api) "get_practice_problems_count") as [e|tc];
    simpl; [discriminate|].
  unfold executeQuery. simpl.
  match goal with
  | |- context [dataAccess api [] ?q] =>
      destruct (dataAccess api [] q) as [e|data] eqn:Ed
  end; simpl;
    [match goal with
     | |- context [dataAccess api [?a] ?q] => destruct (dataAccess api [a] q)
     | _ => idtac
     end; discriminate|].
  match goal with
  | |- context [dataAccess api [?a] ?q] =>
      destruct (dataAccess api [a] q) as [e|count] eqn:Ec
  end; simpl; [discriminate|].
  destruct count as [|row rest]; simpl; [discriminate|].
  intros H. inversion H; subst.
  eexists _, _, row, rest, data. repeat split; eassumption.
Qed.

End Accepted.

(* ------------------------------------------------------------------------- *)
(** ** C9: an omitted challengeName *)

(** C9.  When the store is connected and challengeName is absent,
    searchSRMChallenges throws on the call of toLowerCase on
    params.challengeName: no statement is sent and there is no response.  The
    fallback after the concatenation is never taken: its left operand is
    never the empty string. *)
Theorem omitted_challengeName_throws (api : Api) (connection : Connection) :
  dbConnectionMap connection = true ->
  params connection !! "challengeName" = None ->
  (exists exn, searchSRMChallenges api connection = ([], Uncaught exn))
  /\ forall name : string,
       orElse (Some ("%" +:+ toLowerCase name +:+ "%")) "%"
       = "%" +:+ toLowerCase name +:+ "%"
       /\ "%" +:+ toLowerCase name +:+ "%" <> "%".
Proof.
  intros Hdb Hname. split.
  - unfold searchSRMChallenges. rewrite Hdb, Hname. simpl. eauto.
  - intros name. split; [reflexivity|].
    simpl. destruct (toLowerCase name); discriminate.
Qed.

Lemma omitted_challengeName_throws_witness :
  exists exn,
    searchSRMChallenges (Examples.api [] []) Examples.pageIndexOnly
    = ([], Uncaught exn).
Proof.
  apply (omitted_challengeName_throws (Examples.api [] []) Examples.pageIndexOnly);
    reflexivity.
Defined.

(* ------------------------------------------------------------------------- *)
(** ** C8: the sort order *)

Lemma searchSqlParams_lookup h pageIndex pageSize sortColumn sortOrder name status :
  let sp := searchSqlParams h pageIndex pageSize sortColumn sortOrder name status in
  sp !! "firstRowIndex" = Some (VNum (firstRowIndex pageIndex pageSize))
  /\ sp !! "pageSize" = Some (VNum pageSize)
  /\ sp !! "sortOrder" = Some (VStr sortOrder).
Proof. repeat split; reflexivity. Qed.

Lemma scheduleSqlParams_lookup h pageIndex pageSize sortColumn sortOrder :
  let sp := scheduleSqlParams h pageIndex pageSize sortColumn sortOrder in
  sp !! "firstRowIndex" = Some (VNum (firstRowIndex pageIndex pageSize))
  /\ sp !! "pageSize" = Some (VNum pageSize)
  /\ sp !! "sortOrder" = Some (VStr sortOrder).
Proof. repeat split; reflexivity. Qed.

(** A challenge search that names the column submissionEndDate, which is not
    the default column, and gives no sort order, is sorted descending: the
    claim that such a caller gets ascending fails. *)
Lemma sort_alias_descends :
  params Examples.sortedBySubmissionEnd !! "sortOrder" = None
  /\ toLowerCase (orElse (params Examples.sortedBySubmissionEnd !! "sortColumn")
                    "roundId")
     <> toLowerCase "roundId"
  /\ exists sp env,
       searchSRMChallenges (Examples.api [Examples.totalRow 1] [Examples.row 1])
         Examples.sortedBySubmissionEnd
       = ([mkStatement "get_srm_challenges_count" sp;
           mkStatement "get_srm_challenges" sp], Response env)
       /\ sp !! "sortOrder" = Some (VStr "desc")
       /\ sp !! "sortOrder" <> Some (VStr "asc").
Proof.
  split; [reflexivity|]. split; [vm_compute; discriminate|].
  eexists _, _. split; [vm_compute; reflexivity|].
  split; [reflexivity | discriminate].
Qed.

(** C8 (amended).  A supplied sortOrder is used lower-cased (ascending when
    it is supplied empty).  When sortOrder is omitted, the order is
    descending if the case-folded sortColumn is the default of the endpoint
    (roundId for the challenge search, which also treats submissionEndDate as
    roundId; registrationStartTime for the schedule) and ascending otherwise.
    Every statement of an accepted request carries that order. *)
Theorem sort_order_resolution (api : Api) (connection : Connection) :
  let ps := params connection in
  (forall s, ps !! "sortOrder" = Some s ->
             fst (searchSort ps) = toLowerCase (orElse (Some s) "asc")
             /\ fst (scheduleSort ps) = toLowerCase (orElse (Some s) "asc"))
  /\ (ps !! "sortOrder" = None ->
      (let column := toLowerCase (orElse (ps !! "sortColumn") "roundId") in
       fst (searchSort ps)
       = if strEq column "roundid" || strEq column "submissionenddate"
         then "desc" else "asc")
      /\ (let column :=
            toLowerCase (orElse (ps !! "sortColumn") "registrationStartTime") in
          fst (scheduleSort ps)
          = if strEq column "registrationstarttime" then "desc" else "asc"))
  /\ (forall trace env,
         searchSRMChallenges api connection = (trace, Response env) ->
         length trace = 2%nat
         /\ Forall (fun q => sqlArgs q !! "sortOrder"
                             = Some (VStr (fst (searchSort ps)))) trace)
  /\ (forall trace env,
         getSRMSchedule api connection = (trace, Response env) ->
         length trace = 2%nat
         /\ Forall (fun q => sqlArgs q !! "sortOrder"
                             = Some (VStr (fst (scheduleSort ps)))) trace).
Proof.
  intros ps. split; [|split; [|split]].
  - intros s Hs. unfold searchSort, scheduleSort. rewrite Hs.
    split; reflexivity.
  - intros Hs. unfold searchSort, scheduleSort. rewrite Hs. simpl. split.
    + destruct (strEq (toLowerCase (orElse (ps !! "sortColumn") "roundId"))
                  "submissionenddate") eqn:E1; simpl.
      * now rewrite orb_true_r.
      * rewrite orb_false_r.
        now destruct (strEq (toLowerCase (orElse (ps !! "sortColumn") "roundId"))
                        "roundid").
    + now destruct (strEq _ "registrationstarttime").
  - intros trace env Hrun.
    destruct (search_accepted api connection trace env Hrun)
      as (cn & st & count & data & -> & _).
    split; [reflexivity|]. repeat constructor.
  - intros trace env Hrun.
    destruct (schedule_accepted api connection trace env Hrun)
      as (td & tc & count & data & _ & -> & _).
    split; [reflexivity|]. repeat constructor.
Qed.

Lemma sort_order_resolution_witness :
  length (fst (searchSRMChallenges
                 (Examples.api [Examples.totalRow 1] [Examples.row 1])
                 Examples.sortedBySubmissionEnd)) = 2%nat.
Proof.
  pose proof (sort_order_resolution
                (Examples.api [Examples.totalRow 1] [Examples.row 1])
                Examples.sortedBySubmissionEnd) as (_ & _ & Hrun & _).
  destruct (searchSRMChallenges _ _) as [trace [env| | | |]] eqn:E;
    try (vm_compute in E; discriminate).
  exact (proj1 (Hrun trace env eq_refl)).
Defined.

(* ------------------------------------------------------------------------- *)
(** ** C2: the window of rows *)

Section Window.

Lemma sentinel_agree v :
  strictEq (NumberOf v) (Int (-1)) = strictEq (NumberOr v (Int 1)) (Int (-1)).
Proof. destruct v as [[|c s]|]; reflexivity. Qed.

Lemma strictEq_sentinel x : strictEq x (Int (-1)) = true <-> x = Int (-1).
Proof.
  unfold strictEq. destruct x; try (split; discriminate);
    (split; [intros H; now apply bool_decide_eq_true in H|];
     intros H; now apply bool_decide_eq_true).
Qed.

Lemma scheduleValidate_params h ps pageIndex pageSize sortOrder sortColumn :
  snd (scheduleValidate h ps pageIndex pageSize sortOrder sortColumn)
  = match ps !! "statuses" with
    | Some _ => ps
    | None => <["statuses" := "f"]> ps
    end.
Proof. unfold scheduleValidate. now destruct (ps !! "statuses"). Qed.

Lemma scheduleValidate_pageIndex h ps pageIndex pageSize sortOrder sortColumn :
  snd (scheduleValidate h ps pageIndex pageSize sortOrder sortColumn)
    !! "pageIndex"
  = ps !! "pageIndex".
Proof.
  rewrite scheduleValidate_params. destruct (ps !! "statuses"); [reflexivity|].
  now rewrite lookup_insert_ne.
Qed.

End Window.







(* ------------------------------------------------------------------------- *)
(** ** C3: the envelope of an empty page *)

(** The third page of the practice problems when five problems match: the
    data statement returns no row and the total of the envelope is 5, not
    0. *)
Lemma practice_total_is_count :
  exists qd qc env,
    getPracticeProblems (Examples.api [Examples.totalRow 5] []) Examples.thirdPage
    = ([qd; qc], Response env)
    /\ dataAccess (Examples.api [Examples.totalRow 5] []) [] qd = inr []
    /\ Envelope.total env = VNum (Int 5)
    /\ Envelope.total env <> VNum (Int 0)
    /\ Envelope.data env = [].
Proof.
  eexists _, _, _. split; [vm_compute; reflexivity|].
  split; [reflexivity|]. split; [reflexivity|]. split; [discriminate|reflexivity].
Qed.

(** C3 (amended).  When the data statement of an accepted searchSRMChallenges
    or getSRMSchedule request returns no row, the envelope has total 0,
    whatever the count statement returned, no data, page index 1 and page size
    0 if the page index of the request is -1, and the page index and page
    size of the request otherwise.  getPracticeProblems has no such case: its
    total is always the scalar of the count statement, and its page index and
    page size are those of the request. *)
Theorem empty_page_envelope (api : Api) (connection : Connection)
    (qa qb : Statement) (env : Envelope.t) :
  let ps := params connection in
  let pageIndex := NumberOr (ps !! "pageIndex") (Int 1) in
  let pageSize := NumberOr (ps !! "pageSize") DEFAULT_PAGE_SIZE in
  let sentinel := strictEq pageIndex (Int (-1)) in
  let empty :=
    Envelope.mk (VNum (Int 0)) (if sentinel then Int 1 else pageIndex)
      (if sentinel then VNum (Int 0) else VNum pageSize) [] in
  (searchSRMChallenges api connection = ([qa; qb], Response env) ->
   dataAccess api [qa] qb = inr [] -> env = empty)
  /\ (getSRMSchedule api connection = ([qa; qb], Response env) ->
      dataAccess api [] qa = inr [] -> env = empty)
  /\ (getPracticeProblems api connection = ([qa; qb], Response env) ->
      exists data row rest,
        dataAccess api [] qa = inr data
        /\ dataAccess api [qa] qb = inr (row :: rest)
        /\ env = Envelope.mk (prop row "total_count")
                   (NumberOr (ps !! "pageIndex") (Int 1))
                   (VNum (NumberOr (ps !! "pageSize") (Int 10)))
                   (transferDBResults2Response (helper api) data)).
Proof.
  intros ps pageIndex pageSize sentinel empty. split; [|split].
  - intros Hrun Hdata.
    destruct (search_accepted api connection _ env Hrun)
      as (cn & st & count & data & Ht & Hc & Hd & Hp).
    assert (Hempty : @inr Error _ data = inr [])
      by (rewrite <- Hd, <- Hdata; inversion Ht; reflexivity).
    inversion Hempty; subst data.
    apply pagedResult_ok in Hp as [_ [[_ ->] | [Hne _]]]; [|now contradiction Hne].
    rewrite sentinel_agree. subst empty sentinel. fold ps pageIndex pageSize.
    unfold pageWindow. fold pageIndex.
    now destruct (strictEq pageIndex (Int (-1))).
  - intros Hrun Hdata.
    destruct (schedule_accepted api connection _ env Hrun)
      as (td & tc & count & data & Hv & Ht & Hd & Hc & Hp).
    assert (Hempty : @inr Error _ data = inr [])
      by (rewrite <- Hd, <- Hdata; inversion Ht; reflexivity).
    inversion Hempty; subst data.
    apply pagedResult_ok in Hp as [_ [[_ ->] | [Hne _]]]; [|now contradiction Hne].
    rewrite scheduleValidate_pageIndex, sentinel_agree.
    subst empty sentinel. fold ps pageIndex pageSize.
    unfold pageWindow. fold pageIndex.
    now destruct (strictEq pageIndex (Int (-1))).
  - intros Hrun.
    destruct (practice_accepted api connection _ env Hrun)
      as (qd & qc & row & rest & data & Ht & Hd & Hc & ->).
    inversion Ht; subst qa qb. exists data, row, rest. auto.
Qed.

(** The scenario of the specification: page 1 of size 2, no matching row. *)
Lemma empty_page_envelope_witness :
  snd (searchSRMChallenges (Examples.api [Examples.totalRow 0] [])
         Examples.firstPageOfTwo)
  = Response (Envelope.mk (VNum (Int 0)) (Int 1) (VNum (Int 2)) []).
Proof.
  destruct (searchSRMChallenges (Examples.api [Examples.totalRow 0] [])
              Examples.firstPageOfTwo) as [trace o] eqn:E.
  assert (Ht : exists qa qb env, trace = [qa; qb] /\ o = Response env).
  { vm_compute in E. inversion E. eauto. }
  destruct Ht as (qa & qb & env & -> & ->).
  pose proof (empty_page_envelope (Examples.api [Examples.totalRow 0] [])
                Examples.firstPageOfTwo qa qb env) as (Hsearch & _).
  simpl. f_equal. rewrite (Hsearch E); [reflexivity|].
  vm_compute in E. inversion E. reflexivity.
Defined.

(* ------------------------------------------------------------------------- *)
(** ** The validation of getSRMSchedule *)

Section ScheduleValidation.

Context (h : Helper).

Lemma scheduleValidate_fst ps pageIndex pageSize sortOrder sortColumn :
  fst (scheduleValidate h ps pageIndex pageSize sortOrder sortColumn)
  = fold_left
      (phaseStep h (snd (scheduleValidate h ps pageIndex pageSize sortOrder sortColumn)))
      PHASE_TIMES
      (scheduleHead h ps pageIndex pageSize sortOrder sortColumn).
Proof.
  unfold scheduleValidate, scheduleHead, checkPhaseTimes, phaseStep.
  destruct (ps !! "statuses") as [st|] eqn:Es; cbn [fst snd].
  - reflexivity.
  - rewrite lookup_insert_ne by discriminate. reflexivity.
Qed.

Lemma phaseStep_sticky m e p : phaseStep h m (Some e) p = Some e.
Proof.
  unfold phaseStep, validatePhaseTime.
  destruct (m !! (p +:+ "Before")), (m !! (p +:+ "After")); reflexivity.
Qed.

Lemma phases_sticky m l e : fold_left (phaseStep h m) l (Some e) = Some e.
Proof.
  induction l as [|p l IH]; simpl; [reflexivity|].
  now rewrite phaseStep_sticky.
Qed.

End ScheduleValidation.

(* ------------------------------------------------------------------------- *)
(** ** Rejected list requests send nothing *)

Section Rejected.

Context (api : Api) (connection : Connection).

Lemma schedule_rejected e :
  dbConnectionMap connection = true ->
  (let ps := params connection in
   fst (scheduleValidate (helper api) ps
          (NumberOr (ps !! "pageIndex") (Int 1))
          (NumberOr (ps !! "pageSize") DEFAULT_PAGE_SIZE)
          (fst (scheduleSort ps)) (snd (scheduleSort ps))) = Some e) ->
  getSRMSchedule api connection = ([], Rejected e).
Proof.
  intros Hdb Hv. unfold getSRMSchedule. rewrite Hdb. simpl.
  destruct (scheduleSort (params connection)) as [sortOrder sortColumn].
  simpl in Hv. cbv zeta. unfold finish, bind. rewrite Hv. reflexivity.
Qed.

Lemma search_rejected name e :
  dbConnectionMap connection = true ->
  params connection !! "challengeName" = Some name ->
  (let ps := params connection in
   searchValidate (helper api) ps
     (NumberOr (ps !! "pageIndex") (Int 1))
     (NumberOr (ps !! "pageSize") DEFAULT_PAGE_SIZE)
     (fst (searchSort ps)) (snd (searchSort ps))
     (toUpperCase (orElse (ps !! "listType") "ACTIVE"))
     ("%" +:+ toLowerCase name +:+ "%") = Some e) ->
  searchSRMChallenges api connection = ([], Rejected e).
Proof.
  intros Hdb Hname Hv. unfold searchSRMChallenges. rewrite Hdb, Hname. simpl.
  destruct (searchSort (params connection)) as [sortOrder sortColumn].
  simpl in Hv. unfold finish, bind. rewrite Hv. reflexivity.
Qed.

Lemma practice_rejected e :
  dbConnectionMap connection = true ->
  (let ps := params connection in
   practiceValidate (helper api) connection
     (NumberOr (ps !! "pageIndex") (Int 1))
     (NumberOr (ps !! "pageSize") (Int 10))
     (orElse (ps !! "sortColumn") "problemId")
     (orElse (ps !! "sortOrder") (consts_ASCENDING (helper api))) = Some e) ->
  getPracticeProblems api connection = ([], Rejected e).
Proof.
  intros Hdb Hv. unfold getPracticeProblems. rewrite Hdb. simpl.
  simpl in Hv. unfold finish, bind. rewrite Hv. reflexivity.
Qed.

End Rejected.

(* ------------------------------------------------------------------------- *)
(** ** C4: a misordered pair of phase times *)

Lemma validated_lookup h m pi psz so sc k :
  k <> "statuses" ->
  snd (scheduleValidate h m pi psz so sc) !! k = m !! k.
Proof.
  intros Hk. rewrite scheduleValidate_params.
  destruct (m !! "statuses"); [reflexivity|].
  now rewrite lookup_insert_ne.
Qed.

Lemma phase_key_statuses p :
  p ∈ PHASE_TIMES ->
  p +:+ "Before" <> "statuses" /\ p +:+ "After" <> "statuses".
Proof.
  intros Hp. unfold PHASE_TIMES in *.
  repeat (apply elem_of_cons in Hp as [->|Hp]);
    try (now apply elem_of_nil in Hp); split; discriminate.
Qed.

(** The steps of checkPhaseTimes read the parameters of the request: the
    statuses the validation may have added play no part. *)
Lemma phaseStep_validated h ps pi psz so sc error p :
  p ∈ PHASE_TIMES ->
  phaseStep h (snd (scheduleValidate h ps pi psz so sc)) error p
  = phaseStep h ps error p.
Proof.
  intros Hp. destruct (phase_key_statuses p Hp) as [HB HA].
  unfold phaseStep. now rewrite !validated_lookup.
Qed.

Lemma fold_left_agree {A B} (f g : A -> B -> A) (l : list B) :
  (forall x, x ∈ l -> forall a, f a x = g a x) ->
  forall a, fold_left f l a = fold_left g l a.
Proof.
  induction l as [|x l IH]; intros H a; [reflexivity|].
  cbn [fold_left]. rewrite (H x (list_elem_of_here _ _)). apply IH.
  intros y Hy. apply H. now apply list_elem_of_further.
Qed.

Lemma orErr_some a e : a <||> Some e = Some (default e a).
Proof. now destruct a. Qed.

Lemma orErr_none_r a : a <||> None = a.
Proof. now destruct a. Qed.

(** The validation of getSRMSchedule around the pair of [phase], both bounds
    given: the checks before the pair, the format checks of its two bounds,
    its order check, then the pairs after it. *)
Lemma schedule_phase_split h ps pi psz so sc phase before after earlier later :
  PHASE_TIMES = (earlier ++ phase :: later)%list ->
  ps !! (phase +:+ "Before") = Some before ->
  ps !! (phase +:+ "After") = Some after ->
  fst (scheduleValidate h ps pi psz so sc)
  = fold_left (phaseStep h ps) later
      (fold_left (phaseStep h ps) earlier (scheduleHead h ps pi psz so sc)
       <||> validateDate h before (phase +:+ "Before") SCHEDULE_DATE_FORMAT
       <||> validateDate h after (phase +:+ "After") SCHEDULE_DATE_FORMAT
       <||> checkDates h after before
              ((phase +:+ "After") +:+ " should be earlier than "
               +:+ (phase +:+ "Before"))).
Proof.
  intros Hsplit Hb Ha. rewrite scheduleValidate_fst.
  rewrite (fold_left_agree _ (phaseStep h ps))
    by (intros p Hp a; now apply phaseStep_validated).
  rewrite Hsplit, fold_left_app. cbn [fold_left]. f_equal.
  unfold phaseStep at 1, validatePhaseTime. now rewrite Hb, Ha.
Qed.

(** The paging error of a request that also gives a misordered pair of phase
    times: the page size 0 is reported, not the order of the pair. *)
Lemma paging_error_before_order :
  params Examples.misorderedPageOfNone !! "registrationStartTimeBefore"
  = Some "2020-01-01T00:00:00.000+0000"
  /\ params Examples.misorderedPageOfNone !! "registrationStartTimeAfter"
     = Some "2020-02-01T00:00:00.000+0000"
  /\ laterThan "2020-02-01T00:00:00.000+0000" "2020-01-01T00:00:00.000+0000"
  /\ getSRMSchedule (Examples.api [] []) Examples.misorderedPageOfNone
     = ([], Rejected (mkError IllegalArgumentError "pageSize should be positive.")).
Proof.
  split; [reflexivity|]. split; [reflexivity|]. split.
  - exists 1580515200000, 1577836800000.
    split; [reflexivity|]. split; [reflexivity | lia].
  - vm_compute. reflexivity.
Qed.

(** C4 (amended).  A getSRMSchedule request that gives both bounds of one of
    the ten phase times, the After bound a later instant than the Before
    bound, is rejected before any statement is sent.  Its error is the first
    one of the validation: that of a check that comes before the order check
    of the pair when one of them fails (paging and sort, statuses, types, the
    pairs that come before it, the format of its two bounds, in this order),
    and otherwise the invalid-argument error reading
    [<phase>After should be earlier than <phase>Before]. *)
Theorem misordered_phase_times (api : Api) (connection : Connection)
    (phase before after : string) (earlier later : list string) :
  dbConnectionMap connection = true ->
  laterContract (helper api) ->
  ["registrationStartTime"; "registrationEndTime";
   "codingStartTime"; "codingEndTime";
   "intermissionStartTime"; "intermissionEndTime";
   "challengeStartTime"; "challengeEndTime";
   "systestStartTime"; "systestEndTime"]
  = (earlier ++ phase :: later)%list ->
  params connection !! (phase +:+ "Before") = Some before ->
  params connection !! (phase +:+ "After") = Some after ->
  laterThan after before ->
  let ps := params connection in
  let prior :=
    fold_left (phaseStep (helper api) ps) earlier
      (scheduleHead (helper api) ps
         (NumberOr (ps !! "pageIndex") (Int 1))
         (NumberOr (ps !! "pageSize") DEFAULT_PAGE_SIZE)
         (fst (scheduleSort ps)) (snd (scheduleSort ps)))
    <||> validateDate (helper api) before (phase +:+ "Before")
           SCHEDULE_DATE_FORMAT
    <||> validateDate (helper api) after (phase +:+ "After")
           SCHEDULE_DATE_FORMAT in
  getSRMSchedule api connection
  = ([], Rejected
           (default
              (mkError IllegalArgumentError
                 ((phase +:+ "After") +:+ " should be earlier than "
                  +:+ (phase +:+ "Before")))
              prior)).
Proof.
  intros Hdb Hlc Hsplit Hb Ha Hlater ps prior.
  apply schedule_rejected; [assumption|]. cbv zeta.
  rewrite (schedule_phase_split _ _ _ _ _ _ phase before after earlier later
             Hsplit Hb Ha).
  rewrite (Hlc after before _ Hlater), orErr_some. apply phases_sticky.
Qed.

(** The helper that follows the specification keeps the contracts. *)
Lemma specHelper_order : orderContract SpecHelper.specHelper.
Proof.
  intros first second message x y Hx Hy. cbn.
  unfold SpecHelper.checkDates. now rewrite Hx, Hy.
Qed.

Lemma specHelper_later : laterContract SpecHelper.specHelper.
Proof.
  intros first second message (x & y & Hx & Hy & Hlt).
  rewrite (specHelper_order first second message x y Hx Hy).
  destruct (Z.ltb_spec y x); [reflexivity | lia].
Qed.

(** The request of section 8 of the specification. *)
Lemma misordered_phase_times_witness :
  getSRMSchedule (Examples.api [] []) Examples.misordered
  = ([], Rejected
           (mkError IllegalArgumentError
              "registrationStartTimeAfter should be earlier than registrationStartTimeBefore")).
Proof.
  assert (Hlater : laterThan "2020-02-01T00:00:00.000+0000"
                     "2020-01-01T00:00:00.000+0000").
  { exists 1580515200000, 1577836800000.
    split; [reflexivity|]. split; [reflexivity | lia]. }
  exact (misordered_phase_times (Examples.api [] []) Examples.misordered
           "registrationStartTime"
           "2020-01-01T00:00:00.000+0000" "2020-02-01T00:00:00.000+0000"
           []
           ["registrationEndTime"; "codingStartTime"; "codingEndTime";
            "intermissionStartTime"; "intermissionEndTime";
            "challengeStartTime"; "challengeEndTime";
            "systestStartTime"; "systestEndTime"]
           eq_refl specHelper_later eq_refl eq_refl eq_refl Hlater).
Defined.

(* ------------------------------------------------------------------------- *)
(** ** C5: the direction of the order check *)

(** A schedule request whose After bound is one month earlier than its
    Before bound is accepted, and the same two dates the other way round are
    rejected: the order check does not reject a request because its After
    value is earlier than its Before value. *)
Lemma earlier_after_is_accepted :
  params Examples.ordered !! "registrationStartTimeAfter"
  = Some "2020-01-01T00:00:00.000+0000"
  /\ params Examples.ordered !! "registrationStartTimeBefore"
     = Some "2020-02-01T00:00:00.000+0000"
  /\ laterThan "2020-02-01T00:00:00.000+0000" "2020-01-01T00:00:00.000+0000"
  /\ (exists qd qc env,
        getSRMSchedule (Examples.api [Examples.totalRow 1] [Examples.row 1])
          Examples.ordered
        = ([qd; qc], Response env))
  /\ exists e,
       getSRMSchedule (Examples.api [Examples.totalRow 1] [Examples.row 1])
         Examples.misordered
       = ([], Rejected e).
Proof.
  split; [reflexivity|]. split; [reflexivity|]. split; [|split].
  - exists 1580515200000, 1577836800000.
    split; [reflexivity|]. split; [reflexivity | lia].
  - eexists _, _, _. vm_compute. reflexivity.
  - eexists. vm_compute. reflexivity.
Qed.

(** A pair with an absent bound does not reach checkDates. *)
Lemma phaseStep_one_bound h check ps error p :
  ps !! (p +:+ "Before") = None \/ ps !! (p +:+ "After") = None ->
  phaseStep (withCheckDates check h) ps error p = phaseStep h ps error p.
Proof.
  unfold phaseStep, validatePhaseTime. cbn [validateDate checkDates withCheckDates].
  intros [-> | ->]; [|destruct (ps !! (p +:+ "Before"))]; reflexivity.
Qed.

Lemma scheduleValidate_one_bound h check ps pi psz so sc :
  (forall p, p ∈ PHASE_TIMES ->
             ps !! (p +:+ "Before") = None \/ ps !! (p +:+ "After") = None) ->
  scheduleValidate (withCheckDates check h) ps pi psz so sc
  = scheduleValidate h ps pi psz so sc.
Proof.
  intros Hone.
  rewrite (surjective_pairing (scheduleValidate (withCheckDates check h) _ _ _ _ _)).
  rewrite (surjective_pairing (scheduleValidate h _ _ _ _ _)).
  f_equal; [|now rewrite !scheduleValidate_params].
  rewrite !scheduleValidate_fst.
  rewrite (fold_left_agree _ (phaseStep (withCheckDates check h) ps))
    by (intros p Hp a; now apply phaseStep_validated).
  rewrite (fold_left_agree (phaseStep h _) (phaseStep h ps))
    by (intros p Hp a; now apply phaseStep_validated).
  change (scheduleHead (withCheckDates check h) ps pi psz so sc)
    with (scheduleHead h ps pi psz so sc).
  apply fold_left_agree. intros p Hp a. now apply phaseStep_one_bound, Hone.
Qed.

Lemma bind_agree {A B} (m m' : Async A) (k k' : A -> Async B) t :
  m = m' -> (forall a t', k a t' = k' a t') -> bind m k t = bind m' k' t.
Proof.
  intros <- Hk. unfold bind. destruct (m t) as [t' [a|e|x|]]; auto.
Qed.

Lemma parallel_readQuery_withCheckDates h check a b :
  parallel (readQueryStep (withCheckDates check h) a)
    (readQueryStep (withCheckDates check h) b)
  = parallel (readQueryStep h a) (readQueryStep h b).
Proof. reflexivity. Qed.

Lemma scheduleSqlParams_withCheckDates h check a b c d :
  scheduleSqlParams (withCheckDates check h) a b c d
  = scheduleSqlParams h a b c d.
Proof. reflexivity. Qed.

Lemma addWhenDefined_withCheckDates h check v filter f q :
  addWhenDefined (withCheckDates check h) v filter f q
  = addWhenDefined h v filter f q.
Proof. reflexivity. Qed.

Lemma addScheduleFilter_withCheckDates m z q p h check :
  addScheduleFilter m z q p (withCheckDates check h)
  = addScheduleFilter m z q p h.
Proof.
  unfold addScheduleFilter. cbv zeta.
  now rewrite !addWhenDefined_withCheckDates.
Qed.

(** C5 (amended).  Take a getSRMSchedule request that gives both bounds of
    one of the ten phase times, both in the schedule date format.  When the
    After value is a later instant than the Before value the request is
    rejected before any statement: with the error of a check that comes
    before the order check of the pair when one of them fails, and otherwise
    with the error reading [<phase>After should be earlier than
    <phase>Before].  When the After value is earlier than the Before value,
    or the same instant, the order check adds no error: the validation goes
    on with the pairs that come after it.  And the order check is not
    consulted for a pair with an absent bound: a request in which every pair
    lacks a bound gets the same result from getSRMSchedule whatever
    helper.checkDates does. *)
Theorem phase_order_direction (api : Api) :
  orderContract (helper api) ->
  (forall (connection : Connection) (phase before after : string)
          (earlier later : list string) (x y : Z),
      dbConnectionMap connection = true ->
      ["registrationStartTime"; "registrationEndTime";
   "codingStartTime"; "codingEndTime";
   "intermissionStartTime"; "intermissionEndTime";
   "challengeStartTime"; "challengeEndTime";
   "systestStartTime"; "systestEndTime"]
      = (earlier ++ phase :: later)%list ->
      params connection !! (phase +:+ "Before") = Some before ->
      params connection !! (phase +:+ "After") = Some after ->
      Dates.instant SCHEDULE_DATE_FORMAT before = Some y ->
      Dates.instant SCHEDULE_DATE_FORMAT after = Some x ->
      let ps := params connection in
      let pageIndex := NumberOr (ps !! "pageIndex") (Int 1) in
      let pageSize := NumberOr (ps !! "pageSize") DEFAULT_PAGE_SIZE in
      let sort := scheduleSort ps in
      let prior :=
        fold_left (phaseStep (helper api) ps) earlier
          (scheduleHead (helper api) ps pageIndex pageSize (fst sort) (snd sort))
        <||> validateDate (helper api) before (phase +:+ "Before")
               SCHEDULE_DATE_FORMAT
        <||> validateDate (helper api) after (phase +:+ "After")
               SCHEDULE_DATE_FORMAT in
      (y < x ->
       getSRMSchedule api connection
       = ([], Rejected
                (default
                   (mkError IllegalArgumentError
                      ((phase +:+ "After") +:+ " should be earlier than "
                       +:+ (phase +:+ "Before")))
                   prior)))
      /\ (x <= y ->
          fst (scheduleValidate (helper api) ps pageIndex pageSize
                 (fst sort) (snd sort))
          = fold_left (phaseStep (helper api) ps) later prior))
  /\ (forall (connection : Connection)
             (check : string -> string -> string -> option Error),
        (forall phase,
            phase ∈ ["registrationStartTime"; "registrationEndTime";
   "codingStartTime"; "codingEndTime";
   "intermissionStartTime"; "intermissionEndTime";
   "challengeStartTime"; "challengeEndTime";
   "systestStartTime"; "systestEndTime"] ->
            params connection !! (phase +:+ "Before") = None
            \/ params connection !! (phase +:+ "After") = None) ->
        getSRMSchedule (withHelper (withCheckDates check (helper api)) api)
          connection
        = getSRMSchedule api connection).
Proof.
  intros Hoc. split.
  - intros connection phase before after earlier later x y Hdb Hsplit Hb Ha Hy Hx
      ps pageIndex pageSize sort prior.
    pose proof (schedule_phase_split (helper api) ps pageIndex pageSize
                  (fst sort) (snd sort) phase before after earlier later
                  Hsplit Hb Ha) as Hv.
    rewrite (Hoc after before _ x y Hx Hy) in Hv. split.
    + intros Hlt. apply schedule_rejected; [assumption|]. cbv zeta.
      fold ps pageIndex pageSize sort. rewrite Hv.
      destruct (Z.ltb_spec y x); [|lia].
      rewrite orErr_some. apply phases_sticky.
    + intros Hle. rewrite Hv.
      destruct (Z.ltb_spec y x); [lia|]. now rewrite orErr_none_r.
  - intros connection check Hone. unfold getSRMSchedule.
    cbn [helper withHelper moment dataAccess databaseTimezoneIdentifier].
    destruct (dbConnectionMap connection); cbn [negb]; [|reflexivity].
    destruct (scheduleSort (params connection)) as [sortOrder sortColumn].
    cbv zeta.
    rewrite (scheduleValidate_one_bound (helper api) check _ _ _ _ _ Hone).
    unfold finish. erewrite bind_agree; [reflexivity | reflexivity |].
    intros [] t.
    apply (bind_agree _ _ _ _ t (parallel_readQuery_withCheckDates _ _ _ _)).
    intros q t'. apply bind_agree; [|reflexivity].
    now rewrite !addScheduleFilter_withCheckDates,
      scheduleSqlParams_withCheckDates.
Qed.

(** The accepted request of the counterexample: the validation finds no
    error in it, its After bound being earlier than its Before bound. *)
Lemma phase_order_direction_witness :
  scheduleAccepts (Examples.api [] []) Examples.ordered.
Proof.
  unfold scheduleAccepts. cbv zeta.
  etransitivity.
  - apply (proj2 (proj1 (phase_order_direction (Examples.api [] [])
                           specHelper_order)
                    Examples.ordered "registrationStartTime"
                    "2020-02-01T00:00:00.000+0000"
                    "2020-01-01T00:00:00.000+0000"
                    []
                    ["registrationEndTime"; "codingStartTime"; "codingEndTime";
                     "intermissionStartTime"; "intermissionEndTime";
                     "challengeStartTime"; "challengeEndTime";
                     "systestStartTime"; "systestEndTime"]
                    1577836800000 1580515200000
                    eq_refl eq_refl eq_refl eq_refl eq_refl eq_refl)).
    lia.
  - vm_compute. reflexivity.
Defined.

(* ------------------------------------------------------------------------- *)
(** ** The validations as chains of steps *)

Section Subsets.

Context (h : Helper).

(** The two validations as chains of steps. *)
Lemma scheduleHead_steps ps pageIndex pageSize sortOrder sortColumn :
  scheduleHead h ps pageIndex pageSize sortOrder sortColumn
  = subsetStep h ps "types" VALID_ROUND_TYPES
      (subsetStep h ps "statuses" VALID_ROUND_STATUS
         (schedulePaging h ps pageIndex pageSize sortOrder sortColumn)).
Proof. reflexivity. Qed.

Lemma practiceValidate_steps connection pageIndex pageSize sortColumn sortOrder :
  let ps := params connection in
  practiceValidate h connection pageIndex pageSize sortColumn sortOrder
  = practiceMyPoints h ps
      (practicePoints h ps
         (subsetStep h ps "problemTypes" VALID_PRACTICE_PROBLEMS_TYPE
            (subsetStep h ps "difficulty" VALID_PRACTICE_PROBLEMS_DIFFICULTY
               (practiceName ps
                  (subsetStep h ps "statuses" VALID_PRACTICE_PROBLEMS_STATUS
                     (practiceHead h connection pageIndex pageSize
                        sortColumn sortOrder)))))).
Proof. reflexivity. Qed.

End Subsets.

(* ========================================================================= *)
(** * The other actions of the file *)

(* ------------------------------------------------------------------------- *)
(** ** getSrmRoundsForProblem *)

(** A response of getSrmRoundsForProblem comes after exactly two statements,
    the existence check and the look-up of the rounds, both for the problem
    id read from the request; the existence check answered a first row whose
    is_there is true in a condition, and the response holds the rows of the
    look-up as the helper transfers them. *)
Theorem rounds_for_problem_response (api : Api) (connection : Connection)
    (trace : list Statement) (r : Value) :
  getSrmRoundsForProblem api connection = (trace, Response r) ->
  let id := parseInt (params connection !! "problemId") in
  let exists_q :=
    mkStatement "check_problem_exists" {[ "problem_id" := VNum id ]} in
  let rounds_q :=
    mkStatement "get_rounds_for_problem" {[ "problem_id" := VNum id ]} in
  checkIdParameter (helper api) id "problemId" = None
  /\ trace = [exists_q; rounds_q]
  /\ (exists row rest,
        dataAccess api [] exists_q = inr (row :: rest)
        /\ truthy (prop row "is_there") = true)
  /\ exists rows,
       dataAccess api [exists_q] rounds_q = inr rows
       /\ r = VObj {[ "rounds" :=
                        rowsValue (transferDBResults2Response (helper api) rows) ]}.
Proof.
  unfold getSrmRoundsForProblem.
  destruct (dbConnectionMap connection); simpl; [|discriminate].
  unfold finish, bind, executeQuery. simpl.
  destruct (checkIdParameter _ _ _); simpl; [discriminate|].
  destruct (dataAccess api [] _) as [e|[|row rest]] eqn:E1; simpl;
    try discriminate.
  destruct (truthy (prop row "is_there")) eqn:Et; simpl; [|discriminate].
  destruct (dataAccess api [_] _) as [e|rows] eqn:E2; simpl; [discriminate|].
  intros H. inversion H; subst.
  split; [reflexivity|]. split; [reflexivity|]. split; eauto.
Qed.

Lemma rounds_for_problem_response_witness :
  exists r,
    getSrmRoundsForProblem
      (Examples.api [] [{[ "is_there" := VNum (Int 1) ]}])
      (Examples.request [("problemId", "10194")] Examples.member)
    = ([mkStatement "check_problem_exists" {[ "problem_id" := VNum (Int 10194) ]};
        mkStatement "get_rounds_for_problem" {[ "problem_id" := VNum (Int 10194) ]}],
       Response r).
Proof.
  destruct (getSrmRoundsForProblem _ _) as [trace [r| | | |]] eqn:E;
    try (vm_compute in E; discriminate).
  exists r.
  destruct (rounds_for_problem_response _ _ trace r E) as (_ & -> & _).
  reflexivity.
Defined.

(** When the problem id passes its check and the existence check answers a
    first row whose is_there is false in a condition (0, null, absent),
    getSrmRoundsForProblem fails with the not-found error after that one
    statement: the look-up of the rounds is not sent.  When the existence
    check answers no row at all, reading is_there throws: there is neither a
    response nor a handled error. *)
Theorem rounds_for_problem_absent (api : Api) (connection : Connection) :
  let id := parseInt (params connection !! "problemId") in
  let exists_q :=
    mkStatement "check_problem_exists" {[ "problem_id" := VNum id ]} in
  dbConnectionMap connection = true ->
  checkIdParameter (helper api) id "problemId" = None ->
  (forall row rest,
      dataAccess api [] exists_q = inr (row :: rest) ->
      truthy (prop row "is_there") = false ->
      getSrmRoundsForProblem api connection
      = ([exists_q],
         Rejected (mkError NotFoundError "The problem doesn't exist.")))
  /\ (dataAccess api [] exists_q = inr [] ->
      exists exn,
        getSrmRoundsForProblem api connection = ([exists_q], Uncaught exn)).
Proof.
  intros id exists_q Hdb Hid.
  unfold getSrmRoundsForProblem. rewrite Hdb. simpl.
  unfold finish, bind, executeQuery. simpl.
  fold id. rewrite Hid. simpl. fold exists_q. split.
  - intros row rest Hrows Hfalse. rewrite Hrows. simpl. rewrite Hfalse.
    reflexivity.
  - intros Hrows. rewrite Hrows. simpl. eauto.
Qed.

Lemma rounds_for_problem_absent_witness :
  getSrmRoundsForProblem
    (Examples.api [] [{[ "is_there" := VNum (Int 0) ]}])
    (Examples.request [("problemId", "10194")] Examples.member)
  = ([mkStatement "check_problem_exists" {[ "problem_id" := VNum (Int 10194) ]}],
     Rejected (mkError NotFoundError "The problem doesn't exist.")).
Proof.
  refine (proj1 (rounds_for_problem_absent
                   (Examples.api [] [{[ "is_there" := VNum (Int 0) ]}])
                   (Examples.request [("problemId", "10194")] Examples.member)
                   eq_refl _)
            {[ "is_there" := VNum (Int 0) ]} [] _ _).
  - vm_compute. reflexivity.
  - vm_compute. reflexivity.
  - vm_compute. reflexivity.
Defined.

(* ------------------------------------------------------------------------- *)
(** ** getSRMChallenge *)

(** A response of getSRMChallenge comes after exactly three statements, sent
    in the order basic, leader, problem with the same two parameters: the
    round id [Number(params.id)] and the leader count er, 5 when the request
    gives none.  The basic statement answered at least one row; the response
    carries the round id of the request and the name of the first basic
    row. *)
Theorem srm_challenge_response (api : Api) (connection : Connection)
    (trace : list Statement) (r : Value) :
  getSRMChallenge api connection = (trace, Response r) ->
  let id := NumberOf (params connection !! "id") in
  let er := NumberOr (params connection !! "er") (Int 5) in
  let args : gmap string Value :=
    list_to_map [("roundId", VNum id); ("er", VNum er)] in
  let basic_q := mkStatement "get_srm_detail_basic" args in
  let leader_q := mkStatement "get_srm_detail_leader" args in
  let problem_q := mkStatement "get_srm_detail_problem" args in
  trace = [basic_q; leader_q; problem_q]
  /\ exists first rest leaders problems,
       dataAccess api [] basic_q = inr (first :: rest)
       /\ dataAccess api [basic_q] leader_q = inr leaders
       /\ dataAccess api [basic_q; leader_q] problem_q = inr problems
       /\ fieldsOf r !! "roundId" = Some (VNum id)
       /\ fieldsOf r !! "name" = Some (prop first "name")
       /\ detailOfRows id (first :: rest) leaders problems trace
          = (trace, Ok r).
Proof.
  unfold getSRMChallenge.
  destruct (dbConnectionMap connection); simpl; [|discriminate].
  unfold finish, bind, parallel, executeQuery. simpl.
  destruct (_ <||> _); simpl; [discriminate|].
  destruct (dataAccess api [] _) as [e|basic] eqn:E1; simpl;
    [destruct (dataAccess api [_] _); destruct (dataAccess api [_; _] _);
     discriminate|].
  destruct (dataAccess api [_] _) as [e|leaders] eqn:E2; simpl;
    [destruct (dataAccess api [_; _] _); discriminate|].
  destruct (dataAccess api [_; _] _) as [e|problems] eqn:E3; simpl;
    [discriminate|].
  destruct basic as [|first rest]; simpl; [discriminate|].
  intros H. inversion H; subst. split; [reflexivity|].
  exists first, rest, leaders, problems. repeat split; assumption.
Qed.

Lemma srm_challenge_response_witness :
  exists trace r,
    getSRMChallenge
      (Examples.api [] [{[ "name" := VStr "SRM 600" ]}])
      (Examples.request [("id", "13798")] Examples.member)
    = (trace, Response r)
    /\ length trace = 3%nat
    /\ fieldsOf r !! "name" = Some (VStr "SRM 600").
Proof.
  destruct (getSRMChallenge _ _) as [trace [r| | | |]] eqn:E;
    try (vm_compute in E; discriminate).
  exists trace, r. split; [reflexivity|].
  destruct (srm_challenge_response _ _ trace r E)
    as (-> & first & rest & leaders & problems & Hb & _ & _ & _ & Hname & _).
  split; [reflexivity|]. rewrite Hname.
  vm_compute in Hb. inversion Hb. reflexivity.
Defined.

(** When the store is connected, the ids pass their checks, the basic
    statement answers no row and the leader and the problem statements
    answer without error, getSRMChallenge fails with the not-found error;
    the leader and the problem statements have been sent all the same. *)
Theorem srm_challenge_not_found (api : Api) (connection : Connection)
    (leaders problems : list (gmap string Value)) :
  let id := NumberOf (params connection !! "id") in
  let er := NumberOr (params connection !! "er") (Int 5) in
  let args : gmap string Value :=
    list_to_map [("roundId", VNum id); ("er", VNum er)] in
  let basic_q := mkStatement "get_srm_detail_basic" args in
  let leader_q := mkStatement "get_srm_detail_leader" args in
  let problem_q := mkStatement "get_srm_detail_problem" args in
  dbConnectionMap connection = true ->
  checkPositiveInteger (helper api) id "id"
  <||> checkMaxNumber (helper api) id MAX_INT "id"
  <||> checkPositiveInteger (helper api) er "er"
  <||> checkMaxNumber (helper api) er MAX_INT "er" = None ->
  dataAccess api [] basic_q = inr [] ->
  dataAccess api [basic_q] leader_q = inr leaders ->
  dataAccess api [basic_q; leader_q] problem_q = inr problems ->
  getSRMChallenge api connection
  = ([basic_q; leader_q; problem_q],
     Rejected (mkError NotFoundError "SRM challenge not found")).
Proof.
  intros id er args basic_q leader_q problem_q Hdb Hv Hb Hl Hp.
  unfold getSRMChallenge, LEADER_COUNT. rewrite Hdb. cbv zeta.
  fold id er. fold args. rewrite Hv.
  unfold finish, bind, parallel, executeQuery, check, ret.
  cbn [negb app fst snd]. fold basic_q leader_q problem_q.
  rewrite Hb, Hl, Hp. reflexivity.
Qed.

Lemma srm_challenge_not_found_witness :
  getSRMChallenge (Examples.api [] [])
    (Examples.request [("id", "13798")] Examples.member)
  = (map (fun name =>
            mkStatement name
              (list_to_map [("roundId", VNum (Int 13798)); ("er", VNum (Int 5))]))
       ["get_srm_detail_basic"; "get_srm_detail_leader"; "get_srm_detail_problem"],
     Rejected (mkError NotFoundError "SRM challenge not found")).
Proof.
  apply (srm_challenge_not_found (Examples.api [] [])
           (Examples.request [("id", "13798")] Examples.member) [] []);
    vm_compute; reflexivity.
Defined.

(** A value is filed under one division name at most. *)
Lemma isDivision_unique a b :
  forall v, isDivision a v = true -> isDivision b v = true -> a = b.
Proof.
  fix IH 1. intros [ | | n | s | c | o | items]; simpl; try discriminate.
  - intros Ha Hb. apply String.eqb_eq in Ha, Hb. congruence.
  - destruct items as [|x [|y r]]; try discriminate. apply IH.
Qed.

(** What getSRMChallenge has read when it answers. *)
Lemma srm_challenge_accepted (api : Api) (connection : Connection)
    (trace : list Statement) (r : Value) :
  getSRMChallenge api connection = (trace, Response r) ->
  let id := NumberOf (params connection !! "id") in
  let er := NumberOr (params connection !! "er") (Int 5) in
  let args : gmap string Value :=
    list_to_map [("roundId", VNum id); ("er", VNum er)] in
  let basic_q := mkStatement "get_srm_detail_basic" args in
  let leader_q := mkStatement "get_srm_detail_leader" args in
  let problem_q := mkStatement "get_srm_detail_problem" args in
  exists first rest leaders problems,
    dataAccess api [basic_q] leader_q = inr leaders
    /\ dataAccess api [basic_q; leader_q] problem_q = inr problems
    /\ detailOfRows id (first :: rest) leaders problems trace = (trace, Ok r).
Proof.
  unfold getSRMChallenge.
  destruct (dbConnectionMap connection); simpl; [|discriminate].
  unfold finish, bind, parallel, executeQuery. simpl.
  destruct (_ <||> _); simpl; [discriminate|].
  destruct (dataAccess api [] _) as [e|basic] eqn:E1; simpl;
    [destruct (dataAccess api [_] _); destruct (dataAccess api [_; _] _);
     discriminate|].
  destruct (dataAccess api [_] _) as [e|leaders] eqn:E2; simpl;
    [destruct (dataAccess api [_; _] _); discriminate|].
  destruct (dataAccess api [_; _] _) as [e|problems] eqn:E3; simpl;
    [discriminate|].
  destruct basic as [|first rest]; simpl; [discriminate|].
  intros H. inversion H; subst.
  exists first, rest, leaders, problems. repeat split; assumption.
Qed.

Lemma division_disjoint (rows : list (gmap string Value)) :
  (length (division "Division-I" rows) + length (division "Division-II" rows)
   <= length rows)%nat.
Proof.
  unfold division. induction rows as [|a rows IH]; [reflexivity|].
  rewrite !filter_cons.
  destruct (decide (isDivision "Division-I" (prop a "division") = true)) as [H1|H1];
    destruct (decide (isDivision "Division-II" (prop a "division") = true)) as [H2|H2];
    simpl; try lia.
  discriminate (isDivision_unique _ _ _ H1 H2).
Qed.

(** In a response of getSRMChallenge, leaders and problems each hold a
    divisionI and a divisionII array.  They list the rows that the leader
    statement, and the problem statement, answered with the division text
    Division-I, and Division-II, in the order of the answer: a leader as the
    row without its division field, a problem as the five fields level,
    problemName, submissions, correct% (100 times correct_percent) and
    averagePoints.  A row is listed under one division at most, and a row
    whose division is another text is listed under neither. *)
Theorem srm_challenge_divisions (api : Api) (connection : Connection)
    (trace : list Statement) (r : Value) :
  getSRMChallenge api connection = (trace, Response r) ->
  let id := NumberOf (params connection !! "id") in
  let er := NumberOr (params connection !! "er") (Int 5) in
  let args : gmap string Value :=
    list_to_map [("roundId", VNum id); ("er", VNum er)] in
  let basic_q := mkStatement "get_srm_detail_basic" args in
  let leader_q := mkStatement "get_srm_detail_leader" args in
  let problem_q := mkStatement "get_srm_detail_problem" args in
  let problemOf (a : gmap string Value) : gmap string Value :=
    list_to_map
      [("level", prop a "level");
       ("problemName", prop a "problem_name");
       ("submissions", prop a "submissions");
       ("correct%", VNum (mul (toNumber (prop a "correct_percent")) (Int 100)));
       ("averagePoints", prop a "average_points")] in
  exists leaders problems l1 l2 p1 p2,
    dataAccess api [basic_q] leader_q = inr leaders
    /\ dataAccess api [basic_q; leader_q] problem_q = inr problems
    /\ fieldsOf r !! "leaders"
       = Some (VObj (list_to_map
                       [("divisionI", VArr (map VObj (map (delete "division") l1)));
                        ("divisionII", VArr (map VObj (map (delete "division") l2)))]))
    /\ fieldsOf r !! "problems"
       = Some (VObj (list_to_map
                       [("divisionI", VArr (map VObj (map problemOf p1)));
                        ("divisionII", VArr (map VObj (map problemOf p2)))]))
    /\ sublist l1 leaders /\ sublist l2 leaders
    /\ sublist p1 problems /\ sublist p2 problems
    /\ (length l1 + length l2 <= length leaders)%nat
    /\ (length p1 + length p2 <= length problems)%nat
    /\ (forall a s,
          a ∈ leaders -> prop a "division" = VStr s ->
          (a ∈ l1 <-> s = "Division-I") /\ (a ∈ l2 <-> s = "Division-II"))
    /\ (forall a s,
          a ∈ problems -> prop a "division" = VStr s ->
          (a ∈ p1 <-> s = "Division-I") /\ (a ∈ p2 <-> s = "Division-II")).
Proof.
  intros Hrun id er args basic_q leader_q problem_q problemOf.
  destruct (srm_challenge_accepted api connection trace r Hrun)
    as (first & rest & leaders & problems & Hl & Hp & Hr).
  cbn [detailOfRows] in Hr. unfold ret in Hr. injection Hr as Hv. subst r.
  assert (Hin : forall rows (a : gmap string Value) s name,
             a ∈ rows -> prop a "division" = VStr s ->
             (a ∈ division name rows <-> s = name)).
  { intros rows a s name Ha Hs. unfold division.
    rewrite list_elem_of_filter, Hs. cbn [isDivision]. unfold strEq.
    rewrite String.eqb_eq. tauto. }
  exists leaders, problems,
    (division "Division-I" leaders), (division "Division-II" leaders),
    (division "Division-I" problems), (division "Division-II" problems).
  split; [exact Hl|]. split; [exact Hp|].
  split; [reflexivity|]. split; [reflexivity|].
  split; [apply sublist_filter|]. split; [apply sublist_filter|].
  split; [apply sublist_filter|]. split; [apply sublist_filter|].
  split; [apply division_disjoint|]. split; [apply division_disjoint|].
  split; intros a s Ha Hs; split; now apply Hin.
Qed.

(** A store that answers one row of the second division to every statement. *)
Lemma srm_challenge_divisions_witness :
  exists trace r l1 l2,
    getSRMChallenge
      (Examples.api [] [{[ "division" := VStr "Division-II" ]}])
      (Examples.request [("id", "13798")] Examples.member)
    = (trace, Response r)
    /\ fieldsOf r !! "leaders"
       = Some (VObj (list_to_map
                       [("divisionI", VArr (map VObj (map (delete "division") l1)));
                        ("divisionII", VArr (map VObj (map (delete "division") l2)))]))
    /\ (length l1 + length l2 <= 1)%nat.
Proof.
  assert (H : exists trace r,
             getSRMChallenge
               (Examples.api [] [{[ "division" := VStr "Division-II" ]}])
               (Examples.request [("id", "13798")] Examples.member)
             = (trace, Response r))
    by (eexists _, _; vm_compute; reflexivity).
  destruct H as (trace & r & H).
  destruct (srm_challenge_divisions _ _ trace r H)
    as (leaders & problems & l1 & l2 & p1 & p2 & Hl & _ & Hrl & _
        & _ & _ & _ & _ & Hnl & _).
  exists trace, r, l1, l2. split; [exact H|]. split; [exact Hrl|].
  injection Hl as <-. exact Hnl.
Defined.

(* ------------------------------------------------------------------------- *)
(** ** listSRMContests and loadRoundAccess *)

Section WithoutNulls.

Let step (memo : gmap string Value) (kv : string * Value) : gmap string Value :=
  if isNull (snd kv) then memo else <[fst kv := snd kv]> memo.

Lemma withoutNulls_key (fields : list (string * Value)) k w :
  (k, w) ∈ fields -> k ∈ fields.*1.
Proof.
  intros H. apply list_elem_of_fmap. now exists (k, w).
Qed.

Lemma withoutNulls_fold fields : forall memo k v,
  NoDup (fields.*1) ->
  (forall w, (k, w) ∈ fields -> memo !! k = None) ->
  (fold_left step fields memo !! k = Some v
   <-> memo !! k = Some v \/ ((k, v) ∈ fields /\ isNull v = false)).
Proof.
  induction fields as [|[k0 v0] fields IH]; intros memo k v Hnd Hfresh.
  - simpl. split; [auto | intros [H|[H _]]; [exact H | now apply elem_of_nil in H]].
  - rewrite fmap_cons in Hnd. apply NoDup_cons in Hnd as [Hk0 Hnd].
    cbn [fst] in Hk0.
    assert (Hnot : forall w, (k0, w) ∉ fields)
      by (intros w Hw; apply Hk0; now apply (withoutNulls_key fields k0 w)).
    cbn [fold_left]. rewrite IH; [|assumption|].
    + unfold step at 1. cbn [fst snd].
      destruct (decide (k = k0)) as [->|Hne].
      * destruct (isNull v0) eqn:En.
        -- rewrite (Hfresh v0 (list_elem_of_here _ _)). split.
           ++ intros [H|[H _]]; [discriminate | now apply Hnot in H].
           ++ intros [H|[H E]]; [discriminate|].
              apply elem_of_cons in H as [H|H]; [|now apply Hnot in H].
              inversion H; subst. congruence.
        -- rewrite (Hfresh v0 (list_elem_of_here _ _)), lookup_insert_eq. split.
           ++ intros [H|[H _]]; [|now apply Hnot in H].
              inversion H; subst. right. split; [apply list_elem_of_here | exact En].
           ++ intros [H|[H E]]; [discriminate|].
              apply elem_of_cons in H as [H|H]; [|now apply Hnot in H].
              inversion H; subst. now left.
      * assert (Hm : (if isNull v0 then memo else <[k0 := v0]> memo) !! k
                     = memo !! k).
        { destruct (isNull v0); [reflexivity | now rewrite lookup_insert_ne]. }
        rewrite Hm. split.
        -- intros [H|[H E]]; [now left|]. right. split; [|exact E].
           now apply list_elem_of_further.
        -- intros [H|[H E]]; [now left|]. right. split; [|exact E].
           apply elem_of_cons in H as [H|H]; [|exact H].
           inversion H; subst. contradiction.
    + intros w Hw. unfold step. cbn [fst snd].
      destruct (decide (k = k0)) as [->|Hne]; [now apply Hnot in Hw|].
      destruct (isNull v0); [|rewrite lookup_insert_ne by congruence];
        apply (Hfresh w); now apply list_elem_of_further.
Qed.

(** The reduction keeps exactly the fields that are not null. *)
Lemma withoutNulls_lookup fields k v :
  NoDup (fields.*1) ->
  (withoutNulls fields !! k = Some v <-> (k, v) ∈ fields /\ isNull v = false).
Proof.
  intros Hnd. unfold withoutNulls.
  etransitivity;
    [exact (withoutNulls_fold fields ∅ k v Hnd (fun _ _ => lookup_empty k))|].
  rewrite lookup_empty. split; [intros [H|H]; [discriminate | exact H] | auto].
Qed.

End WithoutNulls.

Lemma formatDate_not_undefined format v : formatDate format v <> VUndefined.
Proof. destruct v; discriminate. Qed.

Lemma orNull_not_undefined v : orNull v <> VUndefined.
Proof. unfold orNull. destruct v; simpl; try discriminate;
  match goal with |- (if ?b then _ else _) <> _ => destruct b end; discriminate.
Qed.

Lemma nullWhenAbsent_not_undefined v : nullWhenAbsent v <> VUndefined.
Proof. destruct v; discriminate. Qed.

Lemma not_nullish v : v <> VUndefined -> isNull v = false -> isNullish v = false.
Proof. destruct v; intros; try reflexivity; [contradiction | discriminate]. Qed.

(** No field of the object listSRMContests builds for a row is null or
    undefined.  An identifier is kept whatever its value (0 included) unless
    its column is null or absent, a text column is kept when it is true in a
    condition (the empty text is dropped like null), and a date is kept when
    the row holds it as a string.  The season is kept exactly when season_id
    is neither null nor absent, and is then the object of the season_id and
    the season_name of the row as they are: inside it a name that is null or
    absent stays. *)
Theorem contest_row_fields (format : string -> string -> string)
    (contest : gmap string Value) :
  let o := contestOfRow format contest in
  (forall k v, o !! k = Some v -> isNullish v = false)
  /\ (forall v, o !! "contestId" = Some v
                <-> prop contest "contest_id" = v /\ isNullish v = false)
  /\ (forall v, o !! "name" = Some v
                <-> prop contest "contest_name" = v /\ truthy v = true)
  /\ (forall v, o !! "startDate" = Some v
                <-> exists s, prop contest "start_date" = VStr s
                              /\ v = VStr (format s DATE_FORMAT))
  /\ (forall v, o !! "season" = Some v
                <-> isNullish (prop contest "season_id") = false
                    /\ v = VObj (list_to_map
                                   [("seasonId", prop contest "season_id");
                                    ("name", prop contest "season_name")])).
Proof.
  intros o. subst o. unfold contestOfRow.
  set (fields := [("contestId", _); _; _; _; _; _; _; _; _; _; _; _; _]).
  assert (Hnd : NoDup (fields.*1)) by (cbn; in_list).
  assert (L : forall k v,
             withoutNulls fields !! k = Some v
             <-> (k, v) ∈ fields /\ isNull v = false)
    by (intros k v; now apply withoutNulls_lookup).
  split; [|split; [|split; [|split]]].
  - intros k v H. apply L in H as [Hin Hn].
    apply not_nullish; [|exact Hn].
    unfold fields in Hin.
    repeat (apply elem_of_cons in Hin as [Hin|Hin];
            [inversion Hin; subst;
             first [ apply formatDate_not_undefined | apply orNull_not_undefined
                   | apply nullWhenAbsent_not_undefined
                   | destruct (isNullish (prop contest "season_id")); discriminate ]
            |]).
    now apply elem_of_nil in Hin.
  - intros v. rewrite L. unfold fields. split.
    + intros [Hin Hn].
      repeat (apply elem_of_cons in Hin as [Hin|Hin];
              [inversion Hin; subst; clear Hin|]);
        [|now apply elem_of_nil in Hin].
      unfold nullWhenAbsent in *.
      destruct (isNullish (prop contest "contest_id")) eqn:E; [discriminate|].
      auto.
    + intros [<- Hn]. split.
      * apply elem_of_cons. left. unfold nullWhenAbsent. now rewrite Hn.
      * now destruct (prop contest "contest_id").
  - intros v. rewrite L. unfold fields. split.
    + intros [Hin Hn].
      repeat (apply elem_of_cons in Hin as [Hin|Hin];
              [inversion Hin; subst; clear Hin|]);
        [|now apply elem_of_nil in Hin].
      unfold orNull in *.
      destruct (truthy (prop contest "contest_name")) eqn:E; [auto | discriminate].
    + intros [<- Ht]. split.
      * apply list_elem_of_further, elem_of_cons. left.
        unfold orNull. now rewrite Ht.
      * now destruct (prop contest "contest_name").
  - intros v. rewrite L. unfold fields. split.
    + intros [Hin Hn].
      repeat (apply elem_of_cons in Hin as [Hin|Hin];
              [inversion Hin; subst; clear Hin|]);
        [|now apply elem_of_nil in Hin].
      destruct (prop contest "start_date"); try discriminate. eauto.
    + intros (s & Hs & ->). split; [|reflexivity].
      do 2 apply list_elem_of_further. apply elem_of_cons. left.
      now rewrite Hs.
  - intros v. rewrite L. unfold fields. split.
    + intros [Hin Hn].
      repeat (apply elem_of_cons in Hin as [Hin|Hin];
              [inversion Hin; subst; clear Hin|]);
        [|now apply elem_of_nil in Hin].
      destruct (isNullish (prop contest "season_id")); [discriminate|].
      split; reflexivity.
    + intros [Hs ->]. split; [|reflexivity].
      do 12 apply list_elem_of_further. rewrite Hs. apply list_elem_of_here.
Qed.

(** A response of listSRMContests comes after one statement, sent once the
    caller has passed the admin check, and lists one object per row of the
    answer, in the order of the answer; no answer row is dropped and the
    answer of an empty store is the empty array. *)
Theorem list_contests_response (format : string -> string -> string)
    (api : Api) (connection : Connection) (trace : list Statement) (r : Value) :
  listSRMContests format api connection = (trace, Response r) ->
  let q := mkStatement "get_all_srm_contests" ∅ in
  checkAdmin (helper api) (caller connection)
    UNAUTHORIZED_MESSAGE NON_ADMIN_MESSAGE = None
  /\ trace = [q]
  /\ exists rows,
       dataAccess api [] q = inr rows
       /\ r = VArr (map (fun row => VObj (contestOfRow format row)) rows).
Proof.
  unfold listSRMContests, finish, bind, executeQuery.
  destruct (checkAdmin _ _ _ _); simpl; [discriminate|].
  destruct (dataAccess api [] _) as [e|rows] eqn:E; simpl; [discriminate|].
  intros H. inversion H; subst. split; [reflexivity|]. split; [reflexivity|].
  exists rows. split; [reflexivity|].
  destruct rows; [reflexivity|]. unfold rowsValue. now rewrite map_map.
Qed.

Lemma list_contests_response_witness :
  exists trace,
    listSRMContests (fun date _ => date)
      (Examples.api [] [{[ "contest_id" := VNum (Int 0) ]}])
      (Examples.request [] Examples.admin)
    = (trace, Response (VArr [VObj {[ "contestId" := VNum (Int 0) ]}])).
Proof.
  destruct (listSRMContests _ _ _) as [trace [r| | | |]] eqn:E;
    try (vm_compute in E; discriminate).
  exists trace. f_equal. f_equal.
  destruct (list_contests_response _ _ _ trace r E) as (_ & _ & rows & Hr & ->).
  vm_compute in Hr. inversion Hr. reflexivity.
Defined.

(** A response of loadRoundAccess comes after one statement, sent once the
    caller has passed the admin check, that asks for the seventeen round
    types of the action.  It has two shapes: an object whose
    accessibleRounds lists one object per row when the answer has rows, and
    the empty array, not an object, when it has none. *)
Theorem round_access_response (format : string -> string -> string)
    (api : Api) (connection : Connection) (trace : list Statement) (r : Value) :
  loadRoundAccess format api connection = (trace, Response r) ->
  let q :=
    mkStatement "srm_get_accessible_rounds"
      {[ "roundTypes" := VStr "1,2,28,12,10,7,8,11,17,18,5,13,27,20,19,21,22" ]} in
  checkAdmin (helper api) (caller connection)
    UNAUTHORIZED_MESSAGE NON_ADMIN_MESSAGE = None
  /\ trace = [q]
  /\ exists rows,
       dataAccess api [] q = inr rows
       /\ (rows = [] -> r = VArr [])
       /\ (rows <> [] ->
           r = VObj {[ "accessibleRounds" :=
                         VArr (map (fun row => VObj (roundOfRow format row)) rows) ]}).
Proof.
  unfold loadRoundAccess, finish, bind, executeQuery.
  destruct (checkAdmin _ _ _ _); simpl; [discriminate|].
  change (join "," (map pretty (pickValues CONTEST_CONSTANTS ACCESSIBLE_ROUND_TYPES)))
    with "1,2,28,12,10,7,8,11,17,18,5,13,27,20,19,21,22".
  destruct (dataAccess api [] _) as [e|rows] eqn:E; simpl; [discriminate|].
  intros H. inversion H; subst. split; [reflexivity|]. split; [reflexivity|].
  exists rows. split; [reflexivity|].
  destruct rows; (split; [intros Hr | intros Hr]);
    try discriminate; try reflexivity; try (now contradiction Hr).
  unfold rowsValue. now rewrite map_map.
Qed.

Lemma round_access_response_witness :
  fst (loadRoundAccess (fun date _ => date) (Examples.api [] [])
         (Examples.request [] Examples.admin))
  = [mkStatement "srm_get_accessible_rounds"
       {[ "roundTypes" := VStr "1,2,28,12,10,7,8,11,17,18,5,13,27,20,19,21,22" ]}]
  /\ snd (loadRoundAccess (fun date _ => date) (Examples.api [] [])
            (Examples.request [] Examples.admin))
     = Response (VArr []).
Proof.
  destruct (loadRoundAccess _ _ _) as [trace [r| | | |]] eqn:E;
    try (vm_compute in E; discriminate).
  destruct (round_access_response _ _ _ trace r E)
    as (_ & -> & rows & Hr & Hempty & _).
  split; [reflexivity|]. simpl. f_equal. apply Hempty.
  vm_compute in Hr. now inversion Hr.
Defined.

(* ------------------------------------------------------------------------- *)
(** ** The admin check comes first *)

Section AdminFirst.

(** Tasks that all require a task without a result do not start. *)
Lemma autoLoop_all_blocked ks rest results error trace :
  missing ks results ->
  Forall (fun t => exists d, d ∈ requires t /\ d ∈ ks) rest ->
  autoLoop rest (results, error) trace = (trace, Ok (results, error)).
Proof.
  intros Hmiss. induction 1 as [|t rest (d & Hd & Hk) _ IH]; [reflexivity|].
  cbn [autoLoop]. unfold bind, autoStep.
  rewrite (ready_false results t d Hd); [exact IH|].
  unfold missing in Hmiss. rewrite Forall_forall in Hmiss. now apply Hmiss.
Qed.

(** async.auto whose first task fails at once, every other task requiring a
    task that has no result then: the error is handed on and nothing is
    sent. *)
Lemma auto_first_fails (ks : list string) name f rest e :
  (forall results trace, f results trace = (trace, Err e)) ->
  name ∈ ks ->
  Forall (fun t => exists d, d ∈ requires t /\ d ∈ ks) rest ->
  auto (task name [] f :: rest) [] = ([], Err e).
Proof.
  intros Hf Hname Hrest. unfold auto, bind. cbn [autoLoop]. unfold bind, autoStep.
  cbn [ready requires task forallb body]. unfold bind. rewrite Hf.
  rewrite (autoLoop_all_blocked ks rest ∅ _ []); [reflexivity | | assumption].
  apply Forall_forall. intros k _. apply lookup_empty.
Qed.

End AdminFirst.

Ltac requires_one d := exists d; cbn [requires task]; split; in_list.

(** A caller who fails the admin check gets the error of that check from
    createSRMContest, updateSRMContest, setRoundEvents, listSRMContests and
    loadRoundAccess, and none of them sends a statement: no parameter is
    looked up, and nothing is written. *)
Theorem admin_check_first (format : string -> string -> string)
    (api : Api) (connection : Connection) (e : Error) :
  checkAdmin (helper api) (caller connection)
    UNAUTHORIZED_MESSAGE NON_ADMIN_MESSAGE = Some e ->
  createSRMContest api connection = ([], Rejected e)
  /\ updateSRMContest api connection = ([], Rejected e)
  /\ setRoundEvents api connection = ([], Rejected e)
  /\ listSRMContests format api connection = ([], Rejected e)
  /\ loadRoundAccess format api connection = ([], Rejected e).
Proof.
  intros Hadmin.
  assert (Hf : forall (results : gmap string Value) trace,
             (_ <- check (checkAdmin (helper api) (caller connection)
                            UNAUTHORIZED_MESSAGE NON_ADMIN_MESSAGE) ;;
              ret VUndefined) trace = (trace, Err e))
    by (intros results trace; unfold bind; now rewrite Hadmin).
  split; [|split; [|split; [|split]]].
  - unfold createSRMContest, finish, bind, adminTask.
    rewrite (auto_first_fails ["admin"; "common"; "generateContestId"]
               "admin" _ _ e Hf); [reflexivity | in_list |].
    repeat apply List.Forall_cons; [| | | apply List.Forall_nil].
    + requires_one "admin".
    + requires_one "common".
    + requires_one "generateContestId".
  - unfold updateSRMContest, finish, bind, adminTask.
    rewrite (auto_first_fails ["admin"; "validate"; "updateContestId"]
               "admin" _ _ e Hf); [reflexivity | in_list |].
    repeat apply List.Forall_cons; [| | | apply List.Forall_nil].
    + requires_one "admin".
    + requires_one "validate".
    + requires_one "updateContestId".
  - unfold setRoundEvents, finish, bind, adminTask, idTask, eventTextTask.
    rewrite (auto_first_fails ["admin"; "roundId"; "clean"]
               "admin" _ _ e Hf); [reflexivity | in_list |].
    repeat apply List.Forall_cons;
      [| | | | | | | | apply List.Forall_nil];
      first [requires_one "admin" | requires_one "roundId"
            | requires_one "clean"].
  - unfold listSRMContests, finish, bind. now rewrite Hadmin.
  - unfold loadRoundAccess, finish, bind. now rewrite Hadmin.
Qed.

(** A member who is not an admin asks for a new contest. *)
Lemma admin_check_first_witness :
  createSRMContest (Examples.api [] [])
    (Examples.request [("name", "SRM 600")] Examples.member)
  = ([], Rejected (mkError ForbiddenError "Admin access only.")).
Proof.
  apply (admin_check_first (fun date _ => date) (Examples.api [] [])
           (Examples.request [("name", "SRM 600")] Examples.member)).
  reflexivity.
Defined.

(* ------------------------------------------------------------------------- *)
(** ** sqlParams *)

(** The parameter sqlParams composes for one name of its list. *)
Lemma sqlParams_fold (params escape date : list string)
    (results : gmap string Value) : forall (memo : gmap string Value) (k : string),
  fold_left
    (fun memo item =>
       let v := prop results item in
       if isNullish v then <[item := VStr "NULL"]> memo
       else if bool_decide (item ∈ escape)
            then <[item := VStr (String quote EmptyString
                                 +:+ toText v
                                 +:+ (if bool_decide (item ∈ date)
                                      then ":00" else EmptyString)
                                 +:+ String quote EmptyString)]> memo
            else <[item := v]> memo)
    params memo !! k
  = if bool_decide (k ∈ params)
    then Some (let v := prop results k in
               if isNullish v then VStr "NULL"
               else if bool_decide (k ∈ escape)
                    then VStr (String quote EmptyString
                               +:+ toText v
                               +:+ (if bool_decide (k ∈ date)
                                    then ":00" else EmptyString)
                               +:+ String quote EmptyString)
                    else v)
    else memo !! k.
Proof.
  induction params as [|item params IH]; intros memo k; [reflexivity|].
  cbn [fold_left]. rewrite IH.
  destruct (decide (k ∈ params)) as [Hin|Hnin].
  - rewrite (bool_decide_eq_true_2 (k ∈ params) Hin).
    rewrite (bool_decide_eq_true_2 (k ∈ item :: params)); [reflexivity|].
    now apply list_elem_of_further.
  - rewrite (bool_decide_eq_false_2 (k ∈ params) Hnin).
    destruct (decide (k = item)) as [->|Hne].
    + rewrite (bool_decide_eq_true_2 (item ∈ item :: params))
        by apply list_elem_of_here.
      cbv zeta.
      destruct (isNullish (prop results item));
        [|destruct (bool_decide (item ∈ escape))];
        now rewrite lookup_insert_eq.
    + rewrite (bool_decide_eq_false_2 (k ∈ item :: params)).
      * cbv zeta.
        destruct (isNullish (prop results item));
          [|destruct (bool_decide (item ∈ escape))];
          now rewrite lookup_insert_ne.
      * intros H. apply elem_of_cons in H as [?|?]; contradiction.
Qed.

(* ------------------------------------------------------------------------- *)
(** ** Steps of a validation keep the first error *)

Section Steps.

Context (h : Helper).

Lemma strictEq_not_sentinel x : x <> Int (-1) -> strictEq x (Int (-1)) = false.
Proof.
  intros H. destruct (strictEq x (Int (-1))) eqn:E; [|reflexivity].
  now apply strictEq_sentinel in E.
Qed.

Lemma subsetStep_sticky ps field allowed e :
  subsetStep h ps field allowed (Some e) = Some e.
Proof. unfold subsetStep. now destruct (ps !! field). Qed.

Lemma practiceName_sticky ps e : practiceName ps (Some e) = Some e.
Proof.
  unfold practiceName. destruct (ps !! "problemName") as [name|]; [|reflexivity].
  now destruct (32 <? jsLength name).
Qed.

Lemma practicePoints_sticky ps e : practicePoints h ps (Some e) = Some e.
Proof.
  unfold practicePoints.
  destruct (isDefined _ || isDefined _); [|reflexivity]. cbv zeta.
  now destruct (gt _ _).
Qed.

Lemma practiceMyPoints_sticky ps e : practiceMyPoints h ps (Some e) = Some e.
Proof.
  unfold practiceMyPoints.
  destruct (isDefined _ || isDefined _); [|reflexivity]. cbv zeta.
  now destruct (gt _ _).
Qed.

(** A failing subset check: the step hands on the first error so far, or
    its own. *)
Lemma subsetStep_fails ps field allowed value e error :
  ps !! field = Some value ->
  checkSubset h (split ","%char value) allowed field = Some e ->
  subsetStep h ps field allowed error = Some (default e error).
Proof.
  intros Hv Hc. unfold subsetStep. rewrite Hv, Hc. now destruct error.
Qed.

End Steps.

(* ------------------------------------------------------------------------- *)
(** ** The page size that a page index calls for *)

(** A getSRMSchedule request that gives a page index other than -1 and no
    page size is rejected with the error helper.checkDefined returns for the
    missing pageSize, before any statement: that check comes first, and
    every later check keeps the error.  searchSRMChallenges does the same
    when the request gives a challengeName. *)
Theorem page_size_required (api : Api) (connection : Connection)
    (index : string) (e : Error) :
  dbConnectionMap connection = true ->
  params connection !! "pageIndex" = Some index ->
  NumberOr (Some index) (Int 1) <> Int (-1) ->
  params connection !! "pageSize" = None ->
  checkDefined (helper api) None "pageSize" = Some e ->
  getSRMSchedule api connection = ([], Rejected e)
  /\ (forall name,
        params connection !! "challengeName" = Some name ->
        searchSRMChallenges api connection = ([], Rejected e)).
Proof.
  intros Hdb Hindex Hne Hsize Hdefined.
  apply strictEq_not_sentinel in Hne. split.
  - apply schedule_rejected; [assumption|]. cbv zeta.
    rewrite scheduleValidate_fst, scheduleHead_steps.
    unfold schedulePaging. rewrite Hindex, Hsize, Hne, Hdefined. cbn [isDefined negb andb orErr].
    rewrite !subsetStep_sticky. apply phases_sticky.
  - intros name Hname. apply (search_rejected api connection name); [assumption..|].
    cbv zeta. unfold searchValidate.
    rewrite Hindex, Hsize, Hne, Hdefined. reflexivity.
Qed.

(** Page 2 of the schedule, without a page size. *)
Lemma page_size_required_witness :
  exists e,
    getSRMSchedule (Examples.api [] []) Examples.pageIndexOnly = ([], Rejected e)
    /\ kind e = IllegalArgumentError.
Proof.
  eexists. split.
  - apply (page_size_required (Examples.api [] []) Examples.pageIndexOnly "2");
      [reflexivity | reflexivity | discriminate | reflexivity | reflexivity].
  - reflexivity.
Defined.

(* ------------------------------------------------------------------------- *)
(** ** C10: the page size check that is not reached *)

(** C10.  A challenge search for page 2 that gives neither a page size nor
    a challengeName: the run function throws on params.challengeName before
    its validation, so the check of the page size is not reached and the
    caller gets no invalid-argument error. *)
Lemma page_size_check_unreached :
  params Examples.pageIndexOnly !! "pageIndex" = Some "2"
  /\ params Examples.pageIndexOnly !! "pageSize" = None
  /\ params Examples.pageIndexOnly !! "challengeName" = None
  /\ (exists exn,
        searchSRMChallenges (Examples.api [] []) Examples.pageIndexOnly
        = ([], Uncaught exn))
  /\ forall e,
       searchSRMChallenges (Examples.api [] []) Examples.pageIndexOnly
       <> ([], Rejected e).
Proof.
  split; [reflexivity|]. split; [reflexivity|]. split; [reflexivity|].
  split; [eexists; vm_compute; reflexivity|].
  intros e. vm_compute. discriminate.
Qed.

(* ------------------------------------------------------------------------- *)
(** ** C6: elements outside an allow-list *)

(** Two requests with a status outside the allow-list whose error is not
    that of the subset check.  getPracticeProblems answers a caller who is
    not logged in with the error of helper.checkMember, which is not an
    invalid-argument error; getSRMSchedule answers a page size of 0 with the
    error of the page size, which does not name statuses.  Each of these
    checks comes before the subset check of statuses. *)
Lemma earlier_check_reports_first :
  (params Examples.unknownStatusAnonymous !! "statuses" = Some "new,x"
   /\ ("x" ∈ split ","%char "new,x")
   /\ ("x" ∉ VALID_PRACTICE_PROBLEMS_STATUS)
   /\ getPracticeProblems (Examples.api [] []) Examples.unknownStatusAnonymous
      = ([], Rejected
               (mkError UnauthorizedError
                  "Only logged in user can access to this endpoint.")))
  /\ (params Examples.unknownStatusPageOfNone !! "statuses" = Some "f,x"
      /\ ("x" ∈ split ","%char "f,x")
      /\ ("x" ∉ VALID_ROUND_STATUS)
      /\ getSRMSchedule (Examples.api [] []) Examples.unknownStatusPageOfNone
         = ([], Rejected
                  (mkError IllegalArgumentError "pageSize should be positive."))).
Proof.
  split; (split; [reflexivity|]; split; [in_list|]; split; [in_list|]);
    vm_compute; reflexivity.
Qed.

(** C6 (amended).  A comma-delimited parameter (statuses or types of
    getSRMSchedule; statuses, difficulty or problemTypes of
    getPracticeProblems) with an element outside its allow-list makes the
    request fail before any statement, whenever helper.checkSubset rejects
    such a list with an invalid-argument error that names the field.  The
    error of the request is the first one of the validation: that of a check
    that comes before the subset check of the field when one of them fails,
    and the error of that subset check otherwise.  The checks that come
    before are, for getSRMSchedule, those of the paging and of the sort,
    then statuses, then types; for getPracticeProblems those of the paging,
    of the sort and of the caller, then statuses, the length of problemName,
    difficulty, then problemTypes. *)
Theorem unknown_element_rejected (api : Api) (connection : Connection)
    (field value : string) (allowed : list string) :
  dbConnectionMap connection = true ->
  subsetContract (helper api) ->
  params connection !! field = Some value ->
  (exists x, x ∈ split ","%char value /\ x ∉ allowed) ->
  let h := helper api in
  let ps := params connection in
  let paging :=
    schedulePaging h ps
      (NumberOr (ps !! "pageIndex") (Int 1))
      (NumberOr (ps !! "pageSize") DEFAULT_PAGE_SIZE)
      (fst (scheduleSort ps)) (snd (scheduleSort ps)) in
  let head :=
    practiceHead h connection
      (NumberOr (ps !! "pageIndex") (Int 1))
      (NumberOr (ps !! "pageSize") (Int 10))
      (orElse (ps !! "sortColumn") "problemId")
      (orElse (ps !! "sortOrder") (consts_ASCENDING h)) in
  exists e0,
    checkSubset h (split ","%char value) allowed field = Some e0
    /\ kind e0 = IllegalArgumentError
    /\ mentions field (message e0)
    /\ (field = "statuses" -> allowed = VALID_ROUND_STATUS ->
        getSRMSchedule api connection = ([], Rejected (default e0 paging)))
    /\ (field = "types" -> allowed = VALID_ROUND_TYPES ->
        getSRMSchedule api connection
        = ([], Rejected
                 (default e0
                    (subsetStep h ps "statuses" VALID_ROUND_STATUS paging))))
    /\ (field = "statuses" -> allowed = VALID_PRACTICE_PROBLEMS_STATUS ->
        getPracticeProblems api connection = ([], Rejected (default e0 head)))
    /\ (field = "difficulty" -> allowed = VALID_PRACTICE_PROBLEMS_DIFFICULTY ->
        getPracticeProblems api connection
        = ([], Rejected
                 (default e0
                    (practiceName ps
                       (subsetStep h ps "statuses"
                          VALID_PRACTICE_PROBLEMS_STATUS head)))))
    /\ (field = "problemTypes" -> allowed = VALID_PRACTICE_PROBLEMS_TYPE ->
        getPracticeProblems api connection
        = ([], Rejected
                 (default e0
                    (subsetStep h ps "difficulty"
                       VALID_PRACTICE_PROBLEMS_DIFFICULTY
                       (practiceName ps
                          (subsetStep h ps "statuses"
                             VALID_PRACTICE_PROBLEMS_STATUS head)))))).
Proof.
  intros Hdb Hcontract Hv Hx h ps paging head.
  destruct (Hcontract (split ","%char value) allowed field Hx)
    as (e0 & Hc & Hkind & Hmsg).
  exists e0. split; [exact Hc|]. split; [exact Hkind|]. split; [exact Hmsg|].
  split; [|split; [|split; [|split]]]; intros -> ->.
  - apply schedule_rejected; [assumption|]. cbv zeta.
    rewrite scheduleValidate_fst, scheduleHead_steps. fold h ps paging.
    rewrite (subsetStep_fails h ps "statuses" _ value e0 paging Hv Hc).
    rewrite subsetStep_sticky. apply phases_sticky.
  - apply schedule_rejected; [assumption|]. cbv zeta.
    rewrite scheduleValidate_fst, scheduleHead_steps. fold h ps paging.
    rewrite (subsetStep_fails h ps "types" _ value e0 _ Hv Hc).
    apply phases_sticky.
  - apply practice_rejected; [assumption|]. cbv zeta.
    rewrite practiceValidate_steps. cbv zeta. fold h ps head.
    rewrite (subsetStep_fails h ps "statuses" _ value e0 head Hv Hc).
    now rewrite practiceName_sticky, !subsetStep_sticky,
      practicePoints_sticky, practiceMyPoints_sticky.
  - apply practice_rejected; [assumption|]. cbv zeta.
    rewrite practiceValidate_steps. cbv zeta. fold h ps head.
    rewrite (subsetStep_fails h ps "difficulty" _ value e0 _ Hv Hc).
    now rewrite subsetStep_sticky, practicePoints_sticky,
      practiceMyPoints_sticky.
  - apply practice_rejected; [assumption|]. cbv zeta.
    rewrite practiceValidate_steps. cbv zeta. fold h ps head.
    rewrite (subsetStep_fails h ps "problemTypes" _ value e0 _ Hv Hc).
    now rewrite practicePoints_sticky, practiceMyPoints_sticky.
Qed.

Lemma specHelper_subset : subsetContract SpecHelper.specHelper.
Proof.
  intros xs allowed name (x & Hx & Hnot). cbn. unfold SpecHelper.checkSubset.
  destruct (find _ xs) as [y|] eqn:E.
  - eexists. split; [reflexivity|]. split; [reflexivity|].
    exists EmptyString, (" contains the unknown element " +:+ y +:+ ".").
    reflexivity.
  - exfalso. apply list_elem_of_In in Hx.
    pose proof (find_none _ _ E x Hx) as Hf. simpl in Hf.
    apply negb_false_iff, bool_decide_eq_true in Hf. contradiction.
Qed.

(** The schedule request with the statuses f and x: no earlier check fails,
    and the error is that of the subset check. *)
Lemma unknown_element_rejected_witness :
  exists e,
    getSRMSchedule (Examples.api [] []) Examples.unknownStatus
    = ([], Rejected e)
    /\ kind e = IllegalArgumentError
    /\ mentions "statuses" (message e).
Proof.
  assert (Hx : exists x, x ∈ split ","%char "f,x" /\ x ∉ VALID_ROUND_STATUS)
    by (exists "x"; split; in_list).
  destruct (unknown_element_rejected (Examples.api [] [])
              Examples.unknownStatus "statuses" "f,x" VALID_ROUND_STATUS
              eq_refl specHelper_subset eq_refl Hx)
    as (e0 & _ & Hkind & Hmsg & Hrun & _).
  exists e0. split; [|split; assumption].
  exact (Hrun eq_refl eq_refl).
Defined.

(* ------------------------------------------------------------------------- *)
(** ** The checks getPracticeProblems makes itself *)

(** Whatever the helper answers, getPracticeProblems rejects before any
    statement a problemName of more than 32 characters, a pointsLowerBound
    greater than the pointsUpperBound, and a myPointsLowerBound greater than
    the myPointsUpperBound; a missing lower bound counts as 0 and a missing
    upper bound as helper.MAX_INT. *)
Theorem practice_own_checks (api : Api) (connection : Connection) :
  let ps := params connection in
  let rejected :=
    exists e, getPracticeProblems api connection = ([], Rejected e) in
  dbConnectionMap connection = true ->
  (forall name,
      ps !! "problemName" = Some name -> 32 < jsLength name -> rejected)
  /\ (isDefined (ps !! "pointsLowerBound")
      || isDefined (ps !! "pointsUpperBound") = true ->
      gt (NumberOr (ps !! "pointsLowerBound") (Int 0))
         (NumberOr (ps !! "pointsUpperBound") (helper_MAX_INT (helper api)))
      = true ->
      rejected)
  /\ (isDefined (ps !! "myPointsLowerBound")
      || isDefined (ps !! "myPointsUpperBound") = true ->
      gt (NumberOr (ps !! "myPointsLowerBound") (Int 0))
         (NumberOr (ps !! "myPointsUpperBound") (helper_MAX_INT (helper api)))
      = true ->
      rejected).
Proof.
  intros ps rejected Hdb.
  assert (Hrej : forall e,
             practiceValidate (helper api) connection
               (NumberOr (ps !! "pageIndex") (Int 1))
               (NumberOr (ps !! "pageSize") (Int 10))
               (orElse (ps !! "sortColumn") "problemId")
               (orElse (ps !! "sortOrder") (consts_ASCENDING (helper api)))
             = Some e -> rejected)
    by (intros e He; exists e; now apply practice_rejected).
  assert (Hsome : forall a e, exists e', a <||> Some e = Some e')
    by (intros [a|] e; simpl; eauto).
  split; [|split].
  - intros name Hname Hlong. apply Z.ltb_lt in Hlong.
    rewrite practiceValidate_steps in Hrej. cbv zeta in Hrej. fold ps in Hrej.
    unfold practiceName at 1 in Hrej. rewrite Hname, Hlong in Hrej.
    match type of Hrej with
    | context [?a <||> Some ?e] => destruct (Hsome a e) as (e' & He')
    end.
    rewrite He' in Hrej. apply (Hrej e').
    now rewrite !subsetStep_sticky, practicePoints_sticky, practiceMyPoints_sticky.
  - intros Hdef Hgt.
    rewrite practiceValidate_steps in Hrej. cbv zeta in Hrej. fold ps in Hrej.
    unfold practicePoints at 1 in Hrej. rewrite Hdef in Hrej. cbv zeta in Hrej.
    rewrite Hgt in Hrej.
    match type of Hrej with
    | context [?a <||> Some ?e] => destruct (Hsome a e) as (e' & He')
    end.
    rewrite He' in Hrej. apply (Hrej e'). apply practiceMyPoints_sticky.
  - intros Hdef Hgt.
    rewrite practiceValidate_steps in Hrej. cbv zeta in Hrej. fold ps in Hrej.
    unfold practiceMyPoints at 1 in Hrej. rewrite Hdef in Hrej.
    cbv zeta in Hrej. rewrite Hgt in Hrej.
    match type of Hrej with
    | context [?a <||> Some ?e] => destruct (Hsome a e) as (e' & He')
    end.
    rewrite He' in Hrej. now apply (Hrej e').
Qed.

(** Points from 500 down to 250. *)
Lemma practice_own_checks_witness :
  exists e,
    getPracticeProblems (Examples.api [] [])
      (Examples.request [("pointsLowerBound", "500"); ("pointsUpperBound", "250")]
         Examples.member)
    = ([], Rejected e).
Proof.
  apply (proj1 (proj2 (practice_own_checks (Examples.api [] [])
           (Examples.request
              [("pointsLowerBound", "500"); ("pointsUpperBound", "250")]
              Examples.member) eq_refl)));
    reflexivity.
Defined.

(* ------------------------------------------------------------------------- *)
(** ** Running async.auto to a result *)

Section AutoRun.

(** Once a task has failed, async.auto hands on the first error. *)
Lemma autoLoop_error tasks : forall results e trace trace' st,
  autoLoop tasks (results, Some e) trace = (trace', Ok st) -> snd st = Some e.
Proof.
  induction tasks as [|t tasks IH]; intros results e trace trace' st H.
  - inversion H. reflexivity.
  - cbn [autoLoop] in H. unfold bind, autoStep in H.
    destruct (ready results t).
    + destruct (body t results trace) as [t1 [[v r1]|e1|x|]];
        try discriminate; eapply IH; exact H.
    + simpl in H. eapply IH; exact H.
Qed.

(** The first of the tasks of a run without error: it was ready, and its
    body gave a result. *)
Lemma autoLoop_cons_ok t rest results trace trace' results' :
  autoLoop (t :: rest) (results, None) trace = (trace', Ok (results', None)) ->
  (ready results t = true
   /\ exists v r1 t1,
        body t results trace = (t1, Ok (v, r1))
        /\ autoLoop rest (<[taskName t := v]> r1, None) t1
           = (trace', Ok (results', None)))
  \/ (ready results t = false
      /\ autoLoop rest (results, None) trace = (trace', Ok (results', None))).
Proof.
  cbn [autoLoop]. unfold bind, autoStep. destruct (ready results t).
  - destruct (body t results trace) as [t1 [[v r1]|e1|x|]]; intros H;
      try discriminate.
    + left. eauto 10.
    + apply autoLoop_error in H. discriminate H.
  - intros H. right. auto.
Qed.

Lemma auto_ok tasks trace trace' results :
  auto tasks trace = (trace', Ok results) ->
  autoLoop tasks (∅, None) trace = (trace', Ok (results, None)).
Proof.
  unfold auto, bind.
  destruct (autoLoop tasks (∅, None) trace) as [t1 [[r e]|e|x|]];
    try discriminate.
  simpl. destruct e; [discriminate|].
  destruct (forallb _ tasks); intros H; inversion H; reflexivity.
Qed.

Lemma task_body_ok name deps f results trace t1 v r1 :
  body (task name deps f) results trace = (t1, Ok (v, r1)) ->
  f results trace = (t1, Ok v) /\ r1 = results.
Proof.
  simpl. unfold bind.
  destruct (f results trace) as [t [a|e|x|]]; intros H; inversion H; auto.
Qed.

(** The same for a task that leaves the results object as it is. *)
Lemma autoLoop_task_ok name deps f rest results trace trace' results' :
  autoLoop (task name deps f :: rest) (results, None) trace
  = (trace', Ok (results', None)) ->
  (ready results (task name deps f) = true
   /\ exists v t1,
        f results trace = (t1, Ok v)
        /\ autoLoop rest (<[name := v]> results, None) t1
           = (trace', Ok (results', None)))
  \/ (ready results (task name deps f) = false
      /\ autoLoop rest (results, None) trace = (trace', Ok (results', None))).
Proof.
  intros H. apply autoLoop_cons_ok in H as [[R (v & r1 & t1 & B & H)] | H].
  - apply task_body_ok in B as [B ->]. left. eauto 10.
  - now right.
Qed.

End AutoRun.

(** The next task of a run without error. *)
Ltac auto_step H v r1 t1 B :=
  let R := fresh "R" in
  apply autoLoop_cons_ok in H as [[_ (v & r1 & t1 & B & H)] | [R _]];
  [cbn [taskName] in H | vm_compute in R; discriminate R].

Ltac auto_task H v t1 B :=
  let R := fresh "R" in
  apply autoLoop_task_ok in H as [[_ (v & t1 & B & H)] | [R _]];
  [| vm_compute in R; discriminate R].

Section Prepared.

Context (api : Api) (connection : Connection).

(** validateAndPrepareSRMContestApiArguments sends existence look-ups
    only. *)
Lemma prepare_only_lookups args :
  emits isLookup (validateAndPrepareSRMContestApiArguments args api connection).
Proof.
  intros trace. unfold validateAndPrepareSRMContestApiArguments.
  set (tasks := (_ ++ _)%list).
  assert (Hsteps : Forall (stepOk isLookup (fun _ _ => True)) tasks).
  { apply Forall_app. split.
    - apply Forall_forall. intros t Ht.
      apply list_elem_of_fmap in Ht as (name & -> & _).
      intros results error tr _ _.
      destruct (validatorOf_keeps api connection name results tr)
        as (new & E & F & _).
      exists new. split; [exact E|]. split; [exact F|].
      now destruct (snd _) as [[? ?]| | |].
    - apply List.Forall_cons; [|apply List.Forall_nil].
      apply stepOk_task. intros results error _ _.
      split; [apply emits_ret | intros tr; exact I]. }
  destruct (auto_inv isLookup _ tasks Hsteps I trace) as (new & E & F & _).
  eauto.
Qed.

End Prepared.

(* ------------------------------------------------------------------------- *)
(** ** createSRMContest *)

(** A response of createSRMContest comes after the existence look-ups of the
    validation and one insert, sent last.  The contest id is the one the id
    generator gave for CONTEST_SEQ: the insert carries it as contestId, and
    the response returns it. *)
Theorem create_contest_insert (api : Api) (connection : Connection)
    (trace : list Statement) (r : Value) :
  createSRMContest api connection = (trace, Response r) ->
  exists lookups sp contestId,
    Forall isLookup lookups
    /\ getNextIDFromDb api "CONTEST_SEQ" = inr contestId
    /\ trace = (lookups ++ [mkStatement "insert_srm_contest" sp])%list
    /\ sp !! "contestId" = Some contestId
    /\ r = VObj {[ "contestId" := contestId ]}.
Proof.
  unfold createSRMContest, finish, bind. intros H.
  destruct (auto _ []) as [t' [results|e|x|]] eqn:Ea; inversion H; subst; clear H.
  apply auto_ok in Ea.
  auto_task Ea v1 t1 B1.
  unfold bind in B1.
  destruct (check _ []) as [t0 [[]|e|x|]] eqn:Ec; inversion B1; subst; clear B1.
  assert (t1 = []) as -> by (destruct (checkAdmin _ _ _ _); inversion Ec; auto).
  auto_task Ea v2 t2 B2.
  unfold bind in B2.
  destruct (prepare_only_lookups api connection CREATE_ARGS []) as (lookups & El & Fl).
  destruct (validateAndPrepareSRMContestApiArguments CREATE_ARGS api connection [])
    as [tv [rv|e|x|]]; inversion B2; subst; clear B2.
  simpl in El. subst t2.
  auto_step Ea v3 r3 t3 B3. cbn [body] in B3.
  destruct (getNextIDFromDb api "CONTEST_SEQ") as [e|contestId] eqn:Eid;
    inversion B3; subst; clear B3.
  auto_task Ea v4 t4 B4.
  unfold bind, executeQuery in B4.
  destruct (dataAccess api _ _) as [e|rows]; inversion B4; subst; clear B4.
  inversion Ea; subst; clear Ea.
  exists t3. eexists. exists contestId.
  split; [exact Fl|]. split; [reflexivity|]. split; [reflexivity|].
  unfold preparedParams, prop.
  repeat (rewrite ?lookup_insert_eq; rewrite ?lookup_insert_ne by discriminate;
          cbn [from_option id fieldsOf]).
  auto.
Qed.

Lemma create_contest_insert_witness :
  exists trace r,
    createSRMContest (Examples.api [] [])
      (Examples.request [("name", "SRM 600")] Examples.admin)
    = (trace, Response r)
    /\ r = VObj {[ "contestId" := VNum (Int 4711) ]}.
Proof.
  assert (H : exists trace r,
             createSRMContest (Examples.api [] [])
               (Examples.request [("name", "SRM 600")] Examples.admin)
             = (trace, Response r))
    by (eexists _, _; vm_compute; reflexivity).
  destruct H as (trace & r & H). exists trace, r. split; [exact H|].
  destruct (create_contest_insert _ _ trace r H)
    as (lookups & sp & contestId & _ & Hid & _ & _ & ->).
  injection Hid as <-. reflexivity.
Defined.

(* ------------------------------------------------------------------------- *)
(** ** C7: the statements of updateSRMContest *)

Ltac read_results :=
  unfold preparedParams, prop;
  repeat (rewrite ?lookup_insert_eq; rewrite ?lookup_insert_ne by discriminate;
          cbn [from_option id fieldsOf]).

Section Validated.

Context (api : Api) (connection : Connection).






End Validated.



(* ------------------------------------------------------------------------- *)
(** ** setRoundEvents *)

(** A response of setRoundEvents comes after exactly three statements: the
    existence check of the round, the clearing of its events, and the insert
    of the new event, in that order; the existence check answered a first
    row.  The insert carries the round id and the event id as read from the
    request, and each of eventName and registrationUrl either as the text
    NULL (when the request gives none) or between two double quotes, and
    then the embedded-quote check has passed on it. *)
Theorem set_round_events_sequence (api : Api) (connection : Connection)
    (trace : list Statement) (r : Value) :
  setRoundEvents api connection = (trace, Response r) ->
  let roundId := VNum (parseInt (params connection !! "roundId")) in
  let eventId := VNum (parseInt (params connection !! "eventId")) in
  let literal field :=
    match params connection !! field with
    | None => VStr "NULL"
    | Some text =>
        VStr (String quote EmptyString +:+ text +:+ String quote EmptyString)
    end in
  let exists_q := mkStatement "check_round_exist" {[ "roundId" := roundId ]} in
  exists sp,
    trace = [exists_q;
             mkStatement "srm_clear_round_events" {[ "roundId" := roundId ]};
             mkStatement "srm_insert_round_event" sp]
    /\ (exists row rest, dataAccess api [] exists_q = inr (row :: rest))
    /\ sp !! "roundId" = Some roundId
    /\ sp !! "eventId" = Some eventId
    /\ sp !! "eventName" = Some (literal "eventName")
    /\ sp !! "registrationUrl" = Some (literal "registrationUrl")
    /\ (forall field text,
          field ∈ ["eventName"; "registrationUrl"] ->
          params connection !! field = Some text ->
          checkIllegalCharacters text field = None)
    /\ r = VObj {[ "success" := VBool true ]}.
Proof.
  intros H roundId eventId literal exists_q.
  unfold setRoundEvents, finish, bind in H.
  destruct (auto _ []) as [t' [results|e|x|]] eqn:Ea; inversion H; subst; clear H.
  apply auto_ok in Ea. unfold idTask, eventTextTask in Ea.
  (* admin *)
  auto_task Ea v1 t1 B1.
  unfold bind in B1.
  destruct (check _ []) as [t0 [[]|e|x|]] eqn:Ec; inversion B1; subst; clear B1.
  assert (t1 = []) as -> by (destruct (checkAdmin _ _ _ _); inversion Ec; auto).
  clear Ec.
  (* roundId *)
  auto_task Ea v2 t2 B2.
  unfold bind in B2.
  destruct (_ <||> _) as [e|]; [discriminate|].
  simpl in B2. inversion B2; subst; clear B2. fold roundId in Ea.
  (* exists *)
  auto_task Ea v3 t3 B3.
  revert B3. read_results. unfold bind, executeQuery, ret. fold exists_q.
  destruct (dataAccess api [] exists_q) as [e|[|row rest]] eqn:Ex;
    simpl; try discriminate.
  destruct (match prop row "round_exist" with VNum n => _ | _ => _ end);
    [discriminate|].
  intros B3. inversion B3; subst; clear B3.
  (* eventId *)
  auto_task Ea v4 t4 B4.
  unfold bind in B4.
  destruct (_ <||> _) as [e|]; [discriminate|].
  simpl in B4. inversion B4; subst; clear B4. fold eventId in Ea.
  (* eventName *)
  auto_task Ea v5 t5 B5.
  assert (Hname : v5 = match params connection !! "eventName" with
                       | None => VNull | Some text => VStr text end
                  /\ t5 = [exists_q]
                  /\ forall text, params connection !! "eventName" = Some text ->
                                  checkIllegalCharacters text "eventName" = None).
  { destruct (params connection !! "eventName") as [text|].
    - unfold bind in B5.
      destruct (_ <||> _) as [e|] eqn:Echeck; [discriminate|].
      inversion B5; subst. repeat split.
      intros text' Ht. inversion Ht; subst.
      now apply orErr_none in Echeck as [_ ?].
    - inversion B5; subst. repeat split. discriminate. }
  destruct Hname as (-> & -> & Hname). clear B5.
  (* registrationUrl *)
  auto_task Ea v6 t6 B6.
  assert (Hurl : v6 = match params connection !! "registrationUrl" with
                      | None => VNull | Some text => VStr text end
                 /\ t6 = [exists_q]
                 /\ forall text,
                      params connection !! "registrationUrl" = Some text ->
                      checkIllegalCharacters text "registrationUrl" = None).
  { destruct (params connection !! "registrationUrl") as [text|].
    - unfold bind in B6.
      destruct (_ <||> _) as [e|] eqn:Echeck; [discriminate|].
      inversion B6; subst. repeat split.
      intros text' Ht. inversion Ht; subst.
      now apply orErr_none in Echeck as [_ ?].
    - inversion B6; subst. repeat split. discriminate. }
  destruct Hurl as (-> & -> & Hurl). clear B6.
  (* sqlParams *)
  auto_task Ea v7 t7 B7.
  inversion B7; subst; clear B7.
  (* clean *)
  auto_task Ea v8 t8 B8.
  revert B8. read_results. unfold bind, executeQuery, ret.
  match goal with
  | |- context [dataAccess api ?t ?q] =>
      destruct (dataAccess api t q) as [e|a1]
  end; cbv beta iota; [discriminate|].
  intros B8. inversion B8; subst; clear B8.
  (* insert *)
  auto_task Ea v9 t9 B9.
  revert B9. read_results. unfold bind, executeQuery, ret.
  match goal with
  | |- context [dataAccess api ?t ?q] =>
      destruct (dataAccess api t q) as [e|a2]
  end; cbv beta iota; [discriminate|].
  intros B9. inversion B9; subst; clear B9.
  inversion Ea; subst; clear Ea.
  eexists. split; [reflexivity|]. split; [eauto|].
  unfold sqlParams. rewrite !sqlParams_fold.
  rewrite !bool_decide_eq_true_2 by in_list. read_results.
  repeat split.
  - unfold literal. now destruct (params connection !! "eventName").
  - unfold literal. now destruct (params connection !! "registrationUrl").
  - intros field text Hf Ht.
    repeat (apply elem_of_cons in Hf as [->|Hf]); [auto | auto |].
    now apply elem_of_nil in Hf.
Qed.

(** The event TCO of the round 13798. *)
Lemma set_round_events_sequence_witness :
  exists trace r,
    setRoundEvents (Examples.api [] [{[ "round_exist" := VNum (Int 1) ]}])
      (Examples.request
         [("roundId", "13798"); ("eventId", "1"); ("eventName", "TCO")]
         Examples.admin)
    = (trace, Response r)
    /\ map query trace
       = ["check_round_exist"; "srm_clear_round_events"; "srm_insert_round_event"].
Proof.
  assert (H : exists trace r,
             setRoundEvents
               (Examples.api [] [{[ "round_exist" := VNum (Int 1) ]}])
               (Examples.request
                  [("roundId", "13798"); ("eventId", "1"); ("eventName", "TCO")]
                  Examples.admin)
             = (trace, Response r))
    by (eexists _, _; vm_compute; reflexivity).
  destruct H as (trace & r & H). exists trace, r. split; [exact H|].
  destruct (set_round_events_sequence _ _ trace r H) as (sp & -> & _).
  reflexivity.
Defined.

Section AutoForward.

Lemma autoLoop_cons_eq t rest st trace st' trace' :
  autoStep st t trace = (trace', Ok st') ->
  autoLoop (t :: rest) st trace = autoLoop rest st' trace'.
Proof. intros H. cbn [autoLoop]. unfold bind. now rewrite H. Qed.

Lemma autoStep_task_ok name deps f results error trace t1 v :
  ready results (task name deps f) = true ->
  f results trace = (t1, Ok v) ->
  autoStep (results, error) (task name deps f) trace
  = (t1, Ok (<[name := v]> results, error)).
Proof.
  intros Hr Hf. unfold autoStep. rewrite Hr. cbn [body task]. unfold bind.
  now rewrite Hf.
Qed.

Lemma autoStep_task_err name deps f results error trace t1 e :
  ready results (task name deps f) = true ->
  f results trace = (t1, Err e) ->
  autoStep (results, error) (task name deps f) trace
  = (t1, Ok (results, Some (default e error))).
Proof.
  intros Hr Hf. unfold autoStep. rewrite Hr. cbn [body task]. unfold bind.
  now rewrite Hf.
Qed.

(** Tasks whose bodies always call back never leave async.auto without an
    answer. *)
Lemma autoLoop_settles tasks :
  Forall (fun t => forall results trace,
            match snd (body t results trace) with
            | Ok _ | Err _ => True
            | _ => False
            end) tasks ->
  forall st trace, exists st', snd (autoLoop tasks st trace) = Ok st'.
Proof.
  induction 1 as [|t tasks Ht _ IH]; intros [results error] trace.
  - eexists. reflexivity.
  - cbn [autoLoop]. unfold bind, autoStep.
    destruct (ready results t); [|apply IH].
    specialize (Ht results trace).
    destruct (body t results trace) as [t1 [[v r1]|e|x|]]; simpl in Ht;
      try contradiction; apply IH.
Qed.

Lemma settles_task name deps (f : gmap string Value -> Async Value) :
  (forall results trace,
      match snd (f results trace) with Ok _ | Err _ => True | _ => False end) ->
  forall results trace,
    match snd (body (task name deps f) results trace) with
    | Ok _ | Err _ => True
    | _ => False
    end.
Proof.
  intros H results trace. specialize (H results trace). cbn [body task].
  unfold bind. now destruct (f results trace) as [t1 [v|e|x|]].
Qed.

End AutoForward.

(** When the caller is an admin, the round id passes its checks and the
    existence check answers a first row whose round_exist is 0, setRoundEvents
    fails after that one statement: the events of the round are neither
    cleared nor inserted, whatever the other parameters are. *)
Theorem unknown_round_keeps_events (api : Api) (connection : Connection)
    (row : gmap string Value) (rest : list (gmap string Value)) :
  let number := parseInt (params connection !! "roundId") in
  let exists_q :=
    mkStatement "check_round_exist" {[ "roundId" := VNum number ]} in
  checkAdmin (helper api) (caller connection)
    UNAUTHORIZED_MESSAGE NON_ADMIN_MESSAGE = None ->
  checkIdParameter (helper api) number "roundId"
  <||> checkMaxNumber (helper api) number MAX_ID "roundId" = None ->
  dataAccess api [] exists_q = inr (row :: rest) ->
  prop row "round_exist" = VNum (Int 0) ->
  exists e, setRoundEvents api connection = ([exists_q], Rejected e).
Proof.
  intros number exists_q Hadmin Hround Hrows Hzero.
  unfold setRoundEvents, finish. unfold bind at 1. unfold auto. unfold bind at 1.
  unfold adminTask, idTask, eventTextTask.
  (* admin *)
  erewrite autoLoop_cons_eq;
    [|apply autoStep_task_ok; [reflexivity | unfold bind; rewrite Hadmin; reflexivity]].
  (* roundId *)
  erewrite autoLoop_cons_eq;
    [|apply autoStep_task_ok;
      [vm_compute; reflexivity
      | unfold bind; fold number; rewrite Hround; reflexivity]].
  (* exists *)
  erewrite autoLoop_cons_eq;
    [|apply autoStep_task_err;
      [vm_compute; reflexivity
      | unfold bind, executeQuery, prop;
        rewrite lookup_insert_eq; cbn [from_option id app];
        fold exists_q; rewrite Hrows; cbn [round_exist_is_zero ret];
        rewrite Hzero; reflexivity]].
  cbn [default from_option id].
  match goal with
  | |- context [autoLoop ?rest (?rs, ?er) _] =>
      set (tasks := rest); set (results0 := rs); set (error0 := er)
  end.
  assert (Hsettle : Forall (fun t => forall results trace,
                              match snd (body t results trace) with
                              | Ok _ | Err _ => True
                              | _ => False
                              end) tasks).
  { repeat apply List.Forall_cons; [| | | | | | apply List.Forall_nil];
      apply settles_task; intros results trace;
      unfold bind, executeQuery;
      repeat match goal with
             | |- context [params connection !! ?k] =>
                 destruct (params connection !! k)
             | |- context [orErr ?a ?b] => destruct (orErr a b)
             | |- context [dataAccess api ?t ?q] => destruct (dataAccess api t q)
             end; exact I. }
  assert (Hsteps : Forall (stepOk (fun _ => False)
                             (fun results _ => missing ["exists"; "clean"] results))
                     tasks).
  { repeat apply List.Forall_cons; [| | | | | | apply List.Forall_nil].
    - apply stepOk_other; [in_list | intros results; repeat emits_step].
    - apply stepOk_other; [in_list | intros results; repeat emits_step].
    - apply stepOk_other; [in_list | intros results; repeat emits_step].
    - apply stepOk_other; [in_list | intros results; repeat emits_step].
    - apply (stepOk_requires _ _ _ "exists"); in_list.
    - apply (stepOk_requires _ _ _ "clean"); in_list. }
  assert (Hmiss : missing ["exists"; "clean"] results0).
  { unfold missing, results0.
    repeat constructor; now rewrite !lookup_insert_ne, lookup_empty by discriminate. }
  destruct (autoLoop_settles tasks Hsettle (results0, error0) [exists_q])
    as [st' Hst].
  destruct (autoLoop_inv (fun _ => False) _ tasks Hsteps results0 error0
              [exists_q] Hmiss) as (new & Enew & Fnew & _).
  destruct (autoLoop tasks (results0, error0) [exists_q])
    as [t' [st0|e|x|]] eqn:Erun; simpl in Hst; inversion Hst; subst st0.
  simpl in Enew. subst t'.
  destruct new as [|q new]; [|now inversion Fnew].
  apply autoLoop_error in Erun. rewrite Erun.
  eexists. reflexivity.
Qed.

(** An event for a round that does not exist. *)
Lemma unknown_round_keeps_events_witness :
  exists e,
    setRoundEvents (Examples.api [] [{[ "round_exist" := VNum (Int 0) ]}])
      (Examples.request
         [("roundId", "13798"); ("eventId", "1"); ("eventName", "TCO")]
         Examples.admin)
    = ([mkStatement "check_round_exist" {[ "roundId" := VNum (Int 13798) ]}],
       Rejected e).
Proof.
  apply (unknown_round_keeps_events
           (Examples.api [] [{[ "round_exist" := VNum (Int 0) ]}])
           (Examples.request
              [("roundId", "13798"); ("eventId", "1"); ("eventName", "TCO")]
              Examples.admin)
           {[ "round_exist" := VNum (Int 0) ]} []);
    vm_compute; reflexivity.
Defined.
